(** * queue-run: dispatch core, embedded and checked against its specification

  The development follows the TypeScript sources:

  - [SharedLocalStorage]  packages/queue-run/src/shared/localStorage.ts
  - [SqsDispatch]         the batch dispatcher [handleSQSMessages]
                          (batch-failure-report protocol)
  - [LegacySqs]           packages/runtime/src/sqs.ts (per-record dispatcher)
  - [Http]                packages/queue-run/src/http/handleHTTPRequest.ts
  - [Manifest]            the manifest loader [loadServices]

  JavaScript strings are modelled by [string] (code units below 256), the
  elapsed time and the durations of calls by [Z] (milliseconds), a
  configured timeout by [Js.Number] (an integer or [NaN]), a thrown value
  by an explicit exception result, and user supplied callbacks by functions
  that return their observable outcome. *)

From Stdlib Require Import String Ascii List ZArith Bool Arith Lia DecimalString
  Permutation.
Import ListNotations.

Local Open Scope string_scope.
Local Open Scope list_scope.

(** ** JavaScript values thrown by the runtime itself *)

Inductive JsError : Type :=
| Error (message : string)
| TypeError (message : string)
| SyntaxError (message : string).

(** [String(error)] *)
Definition String_of_error (e : JsError) : string :=
match e with
| Error m => "Error: " ++ m
| TypeError m => "TypeError: " ++ m
| SyntaxError m => "SyntaxError: " ++ m
end.

(** ** String helpers with the meaning of their JavaScript namesakes *)

Module Js.

Fixpoint rev_string (s acc : string) : string :=
  match s with
  | EmptyString => acc
  | String c r => rev_string r (String c acc)
  end.

(** [s.startsWith(p)] *)
Definition startsWith (s p : string) : bool := String.prefix p s.

(** [s.endsWith(p)] *)
Definition endsWith (s p : string) : bool :=
  String.prefix (rev_string p "") (rev_string s "").

(** [x] is a truthy string: every string but the empty one. *)
Definition truthy (s : string) : bool :=
  match s with EmptyString => false | String _ _ => true end.

(** Line terminators, the characters that [.] of a regular expression does
    not match (U+2028 and U+2029 lie outside the modelled code units). *)
Definition isLineTerminator (c : ascii) : bool :=
  (Ascii.eqb c "010" || Ascii.eqb c "013")%char.

(** [s.split(sep)] for a one character separator: never the empty list. *)
Fixpoint split (sep : ascii) (s : string) : list string :=
  match s with
  | EmptyString => [EmptyString]
  | String c r =>
      if Ascii.eqb c sep then EmptyString :: split sep r
      else match split sep r with
           | [] => [String c EmptyString]
           | p :: ps => String c p :: ps
           end
  end.

(** [parts.join(sep)] *)
Fixpoint join (sep : string) (parts : list string) : string :=
  match parts with
  | [] => EmptyString
  | [p] => p
  | p :: ps => p ++ sep ++ join sep ps
  end.

(** ASCII lower-casing, as [toLowerCase] acts on header and method names. *)
Definition lowerChar (c : ascii) : ascii :=
  let n := nat_of_ascii c in
  if (65 <=? n)%nat && (n <=? 90)%nat then ascii_of_nat (n + 32) else c.

Fixpoint toLowerCase (s : string) : string :=
  match s with
  | EmptyString => EmptyString
  | String c r => String (lowerChar c) (toLowerCase r)
  end.

(** [{ ...all, [name]: value }] on an object with string properties. *)
Fixpoint setProperty (name value : string) (all : list (string * string))
  : list (string * string) :=
  match all with
  | [] => [(name, value)]
  | (n, v) :: rest =>
      if String.eqb n name then (n, value) :: rest
      else (n, v) :: setProperty name value rest
  end.

(** [object[name]] *)
Fixpoint getProperty (name : string) (all : list (string * string))
  : option string :=
  match all with
  | [] => None
  | (n, v) :: rest => if String.eqb n name then Some v else getProperty name rest
  end.

(** White space in the sense of [trim], among the modelled code units. *)
Definition isWhiteSpace (c : ascii) : bool :=
  let n := nat_of_ascii c in
  ((9 <=? n)%nat && (n <=? 13)%nat) || (n =? 32)%nat || (n =? 160)%nat.

Fixpoint trimStart (s : string) : string :=
  match s with
  | String c r => if isWhiteSpace c then trimStart r else s
  | EmptyString => EmptyString
  end.

(** [s.trim()] *)
Definition trim (s : string) : string :=
  rev_string (trimStart (rev_string (trimStart s) "")) "".

(** [set.has(x)] and [array.includes(x)] on strings. *)
Definition has (x : string) (set : list string) : bool :=
  existsb (String.eqb x) set.

(** A JavaScript number that carries seconds or milliseconds: [NaN], or a
    finite number, modelled by an integer. *)
Inductive Number : Type :=
| NaN
| Int (z : Z).

(** [Math.min(a, b)] and [Math.max(a, b)]: [NaN] as soon as one argument
    is. *)
Definition Math_min (a b : Number) : Number :=
  match a, b with
  | Int x, Int y => Int (Z.min x y)
  | _, _ => NaN
  end.

Definition Math_max (a b : Number) : Number :=
  match a, b with
  | Int x, Int y => Int (Z.max x y)
  | _, _ => NaN
  end.

(** [a * b] *)
Definition times (a b : Number) : Number :=
  match a, b with
  | Int x, Int y => Int (x * y)
  | _, _ => NaN
  end.

(** [a < b] and [a <= b]: false as soon as one side is [NaN]. *)
Definition lt (a b : Number) : bool :=
  match a, b with
  | Int x, Int y => (x <? y)%Z
  | _, _ => false
  end.

Definition le (a b : Number) : bool :=
  match a, b with
  | Int x, Int y => (x <=? y)%Z
  | _, _ => false
  end.

(** The longest delay of a timer, in milliseconds. *)
Definition TIMEOUT_MAX : Z := 2147483647.

(** The milliseconds after which [setTimeout(callback, delay)] fires: a
    delay that is under 1, over [TIMEOUT_MAX] or [NaN] is set to 1. *)
Definition timerDelay (delay : Number) : Z :=
  match delay with
  | Int ms => if ((1 <=? ms) && (ms <=? TIMEOUT_MAX))%Z then ms else 1%Z
  | NaN => 1%Z
  end.

End Js.

(** * The ambient request context (shared/localStorage.ts) *)

Module SharedLocalStorage.

(** What callers hand to the [user] setter: [{ id, ... } | null | undefined].
    The [id] property may be missing at run time, whatever the type says. *)
Record UserObject : Type := mkUser {
  id : option string;
  properties : list (string * string)
}.

Inductive UserArg : Type :=
| UserNull
| UserUndefined
| UserObj (u : UserObject).

(** [!user.id] is false exactly for a present, non-empty id. *)
Definition hasId (u : UserObject) : bool :=
  match id u with
  | Some s => Js.truthy s
  | None => false
  end.

Record Urls : Type := mkUrls { http : string; ws : string }.

(** The fields of the abstract class [LocalStorage]. *)
Record LocalStorage : Type := mkLocalStorage {
  urls : Urls;
  _user : option UserObject;      (* [null] is [None] *)
  _userSet : bool;
  connection : option string
}.

(** [constructor({ urls })] with the field initialisers. *)
Definition new_LocalStorage (u : Urls) : LocalStorage :=
  {| urls := u; _user := None; _userSet := false; connection := None |}.

(** [get user()] *)
Definition get_user (ls : LocalStorage) : option UserObject := _user ls.

(** [user ?? null] *)
Definition orNull (u : UserArg) : option UserObject :=
  match u with
  | UserObj o => Some o
  | UserNull | UserUndefined => None
  end.

(** [set user(user)]: the left summand is the thrown error. *)
Definition set_user (ls : LocalStorage) (user : UserArg)
  : JsError + LocalStorage :=
  if _userSet ls then inl (Error "Local context user already set")
  else
    match user with
    | UserObj o =>
        if hasId o
        then inr {| urls := urls ls; _user := Some o; _userSet := true;
                    connection := connection ls |}
        else inl (TypeError "User ID is required")
    | UserNull | UserUndefined =>
        inr {| urls := urls ls; _user := None; _userSet := true;
               connection := connection ls |}
    end.

(** A caller that tries a series of assignments on the same context,
    catching each error: the context after the series and, per attempt,
    the error it raised if any. *)
Fixpoint assignAll (ls : LocalStorage) (attempts : list UserArg)
  : LocalStorage * list (option JsError) :=
  match attempts with
  | [] => (ls, [])
  | u :: rest =>
      match set_user ls u with
      | inl e => let (ls', out) := assignAll ls rest in (ls', Some e :: out)
      | inr ls1 => let (ls', out) := assignAll ls1 rest in (ls', None :: out)
      end
  end.

(** Number of attempts of a series that went through. *)
Definition successes (out : list (option JsError)) : nat :=
  List.length (filter (fun r => match r with None => true | Some _ => false end) out).

(** An argument the setter accepts on a fresh context: [null], [undefined]
    or a user with an id. *)
Definition acceptable (u : UserArg) : bool :=
  match u with
  | UserObj o => hasId o
  | _ => true
  end.

(** *** The async-local holder

    [asyncLocal] is one [AsyncLocalStorage]: code runs with the store that
    the nearest enclosing [run] installed, or with none.  [LocalStorage]
    objects are mutable and shared, so they live in a heap and the holder
    keeps a reference. *)

Definition Ref := nat.
Definition Heap := list LocalStorage.

Inductive Completion (A : Type) : Type :=
| Returned (a : A)
| Thrown (e : JsError).
Arguments Returned {A} a.
Arguments Thrown {A} e.

(** Code running under the holder: it reads the current store, may mutate
    the heap, and returns or throws. *)
Definition Ctx (A : Type) : Type :=
  option Ref -> Heap -> Completion A * Heap.

Definition ret {A} (a : A) : Ctx A := fun _ h => (Returned a, h).
Definition throw {A} (e : JsError) : Ctx A := fun _ h => (Thrown e, h).
Definition bind {A B} (m : Ctx A) (k : A -> Ctx B) : Ctx B :=
  fun store h =>
    match m store h with
    | (Returned a, h') => k a store h'
    | (Thrown e, h') => (Thrown e, h')
    end.

Declare Scope ctx_scope.
Delimit Scope ctx_scope with ctx.
Notation "x <- m ;; k" := (bind m (fun x => k))
  (at level 61, m at next level, right associativity) : ctx_scope.
Notation "m ;;; k" := (bind m (fun _ => k))
  (at level 61, right associativity) : ctx_scope.
Local Open Scope ctx_scope.

(** [asyncLocal.getStore()] *)
Definition getStore : Ctx (option Ref) := fun store h => (Returned store, h).

(** [asyncLocal.run(store, fn)] *)
Definition asyncLocal_run {A} (store : Ref) (fn : Ctx A) : Ctx A :=
  fun _ h => fn (Some store) h.

(** [asyncLocal.exit(fn)] *)
Definition asyncLocal_exit {A} (fn : Ctx A) : Ctx A :=
  fun _ h => fn None h.

(** [new SomeLocalStorage({ urls })] *)
Definition alloc (u : Urls) : Ctx Ref :=
  fun _ h => (Returned (List.length h), h ++ [new_LocalStorage u]).

(** [getLocalStorage()] *)
Definition getLocalStorage : Ctx Ref :=
  local <- getStore ;;
  match local with
  | None => throw (Error "Runtime not available")
  | Some l => ret l
  end.

(** [withLocalStorage(localStorage, fn)] *)
Definition withLocalStorage {A} (localStorage : Ref) (fn : Ctx A) : Ctx A :=
  current <- getStore ;;
  match current with
  | Some _ => throw (Error "Can't nest runtimes")
  | None => asyncLocal_run localStorage fn
  end.

(** [localStorage.exit(callback)]: the callback's value is dropped. *)
Definition exit {A} (callback : Ctx A) : Ctx unit :=
  asyncLocal_exit callback ;;; ret tt.

Fixpoint update (h : Heap) (l : Ref) (v : LocalStorage) : Heap :=
  match h, l with
  | [], _ => []
  | _ :: t, O => v :: t
  | x :: t, S l' => x :: update t l' v
  end.

(** [ref.user = user] *)
Definition assignUser (l : Ref) (user : UserArg) : Ctx unit :=
  fun _ h =>
    match nth_error h l with
    | None => (Thrown (TypeError "Cannot set properties of undefined"), h)
    | Some ls =>
        match set_user ls user with
        | inl e => (Thrown e, h)
        | inr ls' => (Returned tt, update h l ls')
        end
    end.

(** [ref.user] *)
Definition readUser (l : Ref) : Ctx (option UserObject) :=
  fun _ h =>
    match nth_error h l with
    | None => (Thrown (TypeError "Cannot read properties of undefined"), h)
    | Some ls => (Returned (get_user ls), h)
    end.

End SharedLocalStorage.


(** * Asynchronous tasks

    An [async] function is modelled by a state transformer over the world it
    acts on.  Awaiting it gives a value, a thrown value, or nothing at all
    when the promise never settles. *)

Module Async.

Inductive Outcome (E A : Type) : Type :=
| Ret (a : A)
| Throw (e : E)
| Never.
Arguments Ret {E A} a.
Arguments Throw {E A} e.
Arguments Never {E A}.

Definition Task (W E A : Type) : Type := W -> Outcome E A * W.

Definition ret {W E A} (a : A) : Task W E A := fun w => (Ret a, w).
Definition throw {W E A} (e : E) : Task W E A := fun w => (Throw e, w).
Definition never {W E A} : Task W E A := fun w => (Never, w).

Definition bind {W E A B} (m : Task W E A) (k : A -> Task W E B)
  : Task W E B :=
  fun w =>
    match m w with
    | (Ret a, w') => k a w'
    | (Throw e, w') => (Throw e, w')
    | (Never, w') => (Never, w')
    end.

(** [try { m } catch (e) { h(e) }] *)
Definition tryCatch {W E A} (m : Task W E A) (h : E -> Task W E A)
  : Task W E A :=
  fun w =>
    match m w with
    | (Throw e, w') => h e w'
    | other => other
    end.

(** [try { m } finally { f }], for an [f] that neither throws nor waits. *)
Definition finally {W E A} (m : Task W E A) (f : W -> W) : Task W E A :=
  fun w =>
    match m w with
    | (Never, w') => (Never, w')
    | (r, w') => (r, f w')
    end.

(** A synchronous effect on the world. *)
Definition effect {W E} (f : W -> W) : Task W E unit := fun w => (Ret tt, f w).

(** A synchronous computation that may throw. *)
Definition lift {W E A} (r : E + A) : Task W E A :=
  match r with
  | inl e => throw e
  | inr a => ret a
  end.

(** [Promise.all(tasks)]: every task is started and runs to its end whatever
    the others do; the result is the list of values, or the rejection of a
    task that threw.  The tasks do not interfere with each other, so their
    effects are recorded in list order. *)
Fixpoint promiseAll {W E A} (tasks : list (Task W E A)) : Task W E (list A) :=
  match tasks with
  | [] => ret []
  | t :: rest =>
      fun w =>
        let '(r, w1) := t w in
        let '(rs, w2) := promiseAll rest w1 in
        (match r, rs with
         | Throw e, _ => Throw e
         | _, Throw e => Throw e
         | Never, _ => Never
         | _, Never => Never
         | Ret a, Ret l => Ret (a :: l)
         end, w2)
  end.

Declare Scope task_scope.
Delimit Scope task_scope with task.
Notation "x <- m ;; k" := (bind m (fun x => k))
  (at level 61, m at next level, right associativity) : task_scope.
Notation "m ;;; k" := (bind m (fun _ => k))
  (at level 61, right associativity) : task_scope.

End Async.

(** ** Values of user code *)

(** Parsed JSON. *)
#[local] Unset Elimination Schemes.
Inductive Json : Type :=
| JNull
| JBool (b : bool)
| JNumber (n : Z)
| JString (s : string)
| JArray (items : list Json)
| JObject (fields : list (string * Json)).
#[local] Set Elimination Schemes.

(** What user code throws, other than a [Response]: an [Error] object, or
    any other value, kept as its [String(value)] rendering. *)
Inductive Thrown : Type :=
| ThrownError (e : JsError)
| ThrownValue (rendering : string).

(** [error instanceof Error ? error : new Error(String(error))] *)
Definition asError (t : Thrown) : JsError :=
  match t with
  | ThrownError e => e
  | ThrownValue s => Error s
  end.

(** Functions of the platform that the engine calls and this development
    does not interpret. *)
Class Platform : Type := {
  (** [JSON.parse]: [None] when it throws a SyntaxError *)
  JSON_parse : string -> option Json;
  (** [JSON.stringify] *)
  JSON_stringify : Json -> string;
  (** [Array.from(new URLSearchParams(s).entries())] *)
  URLSearchParams_entries : option string -> list (string * string);
  (** unary [+] on a string; [None] is [NaN] *)
  toNumber : string -> option Z;
  (** [crypto.createHash("md5").update(content).digest("hex")] *)
  md5_hex : string -> string;
  (** [buffer.toString("utf-8")] *)
  utf8_decode : string -> string
}.

(** Decimal rendering of an integer, as a template literal prints it. *)
Definition Z_to_string (z : Z) : string :=
  NilZero.string_of_int (Z.to_int z).

(** A number, as a template literal prints it. *)
Definition Number_to_string (n : Js.Number) : string :=
  match n with
  | Js.NaN => "NaN"
  | Js.Int z => Z_to_string z
  end.


(** * The queue dispatcher ([handleSQSMessages], batch-failure reports) *)

Module SqsDispatch.
Import Async.
Local Open Scope task_scope.
Local Open Scope Z_scope.

Definition minTimeout : Z := 1.
Definition maxTimeout : Z := 30.
Definition defaultTimeout : Z := 10.

Record Attributes : Type := mkAttributes {
  ApproximateReceiveCount : string;
  SentTimestamp : string;
  MessageGroupId : option string;
  SequenceNumber : option string
}.

Record SQSMessage : Type := mkSQSMessage {
  messageId : string;
  body : string;
  eventSourceARN : string;
  receiptHandle : string;
  attributes : Attributes;
  (** name and [stringValue] of each message attribute *)
  messageAttributes : list (string * option string)
}.

(** [message.messageAttributes[name]?.stringValue] *)
Fixpoint stringValue (name : string) (attrs : list (string * option string))
  : option string :=
  match attrs with
  | [] => None
  | (n, v) :: rest => if String.eqb n name then v else stringValue name rest
  end.

(** [config.timeout] is a number when it is there. *)
Record QueueConfig : Type := mkQueueConfig { timeout : option Js.Number }.

Inductive Payload : Type :=
| PayloadJson (value : Json)
| PayloadText (text : string).

(** The second argument of a queue handler.  [signal] names the
    [AbortController] the dispatcher made for this message. *)
Record Metadata : Type := mkMetadata {
  messageID : string;
  groupID : option string;
  params : list (string * string);
  queueName : string;
  receivedCount : option Z;
  sentAt : option Z;
  sequenceNumber : option (option Z);
  user : option string;
  signal : nat
}.

(** How a handler's promise fares in the race against the deadline: the
    time in milliseconds after which it settles, if it ever does. *)
Inductive HandlerRun : Type :=
| Resolves (ms : Z)
| Rejects (ms : Z) (reason : Thrown)
| Pending.

(** An awaited call that is not raced. *)
Inductive Settled : Type :=
| Fulfilled
| Rejected (reason : Thrown)
| Unsettled.

Record QueueModule : Type := mkQueueModule {
  handler : Payload -> Metadata -> HandlerRun;
  config : option QueueConfig;
  onError : option (JsError -> Metadata -> Settled)
}.

(** The SQS client: its configured region and how [deleteMessage] answers
    for a queue URL and a receipt handle. *)
Record SQS : Type := mkSQS {
  region : string;
  deleteMessage : string -> string -> Settled
}.

Inductive Event : Type :=
| Info_Handling (id queue : string)
| Call_handler (payload : Payload) (metadata : Metadata)
| Info_Deleting (id queue : string)
| Error_queue (queue id : string) (error : Thrown)
| Call_onError (error : JsError) (metadata : Metadata)
| Error_onError (queue : string) (error : Thrown).

Record World : Type := mkWorld {
  (** queue URL and receipt handle of every message the backend deleted *)
  deleted : list (string * string);
  (** console output and calls into user code, oldest first *)
  trace : list Event;
  (** calls of [getRemainingTimeInMillis] made so far *)
  reads : nat;
  (** the [aborted] flag of every [AbortController] made so far *)
  controllers : list bool
}.

Definition emit (e : Event) (w : World) : World :=
  {| deleted := deleted w; trace := trace w ++ [e]; reads := reads w;
     controllers := controllers w |}.

Definition recordDeleted (url handle : string) (w : World) : World :=
  {| deleted := deleted w ++ [(url, handle)]; trace := trace w;
     reads := reads w; controllers := controllers w |}.

Fixpoint setFlag (l : list bool) (n : nat) : list bool :=
  match l, n with
  | [], _ => []
  | _ :: t, O => true :: t
  | b :: t, S n' => b :: setFlag t n'
  end.

(** [controller.abort()] *)
Definition abort (controller : nat) (w : World) : World :=
  {| deleted := deleted w; trace := trace w; reads := reads w;
     controllers := setFlag (controllers w) controller |}.

Definition Dispatch (A : Type) : Type := Task World Thrown A.

(** [new AbortController()] *)
Definition newAbortController : Dispatch nat :=
  fun w => (Ret (List.length (controllers w)),
            {| deleted := deleted w; trace := trace w; reads := reads w;
               controllers := controllers w ++ [false] |}).

Definition allChars (p : ascii -> bool) : string -> bool :=
  fix go (s : string) : bool :=
    match s with
    | EmptyString => true
    | String c r => p c && go r
    end.

(** No line terminator: what a greedy dot-star anchored at the end of the
    input can match in full. *)
Definition dotStar (s : string) : bool :=
  allChars (fun c => negb (Js.isLineTerminator c)) s.

Fixpoint stripPrefix (p s : string) : option string :=
  match p, s with
  | EmptyString, _ => Some s
  | String a p', String b s' => if Ascii.eqb a b then stripPrefix p' s' else None
  | String _ _, EmptyString => None
  end.

(** Group 1 of the pattern of [getQueueName] (a lazy dot-star from the
    start, two underscores, then a captured dot-star up to the end): the
    text after the first pair of underscores that the lazy prefix can reach. *)
Fixpoint afterSeparator (s : string) : option string :=
  match s with
  | EmptyString => None
  | String c r =>
      match stripPrefix "__" s with
      | Some rest =>
          if dotStar rest then Some rest
          else afterSeparator r
      | None => if Js.isLineTerminator c then None else afterSeparator r
      end
  end.

(** [getQueueName(message)] *)
Definition getQueueName (message : SQSMessage) : JsError + string :=
  let qualifiedName := List.last (Js.split ":" (eventSourceARN message)) "" in
  match afterSeparator qualifiedName with
  | Some name =>
      if Js.truthy name then inr name
      else inl (Error ("Could not parse queue name from " ++ qualifiedName))
  | None => inl (Error ("Could not parse queue name from " ++ qualifiedName))
  end.

(** [isFifoQueue(message)] *)
Definition isFifoQueue (message : SQSMessage) : JsError + bool :=
  match getQueueName message with
  | inl e => inl e
  | inr name => inr (Js.endsWith name ".fifo")
  end.

(** The three greedy, colon separated groups that the pattern of
    [getQueueURL] captures in the text after its literal prefix. *)
Definition arnGroups (rest : string) : option (string * string * string) :=
  if dotStar rest then
    match rev (Js.split ":" rest) with
    | name :: account :: r :: rs => Some (Js.join ":" (rev (r :: rs)), account, name)
    | _ => None
    end
  else None.

(** [message.eventSourceARN.match(...)]: the leftmost place where the
    literal prefix ["arn:aws:sqs:"] is followed by three such groups. *)
Fixpoint matchArn (s : string) : option (string * string * string) :=
  match s with
  | EmptyString => None
  | String _ r =>
      match stripPrefix "arn:aws:sqs:" s with
      | Some rest =>
          match arnGroups rest with
          | Some g => Some g
          | None => matchArn r
          end
      | None => matchArn r
      end
  end.

(** [getQueueURL(message)] *)
Definition getQueueURL (message : SQSMessage) : JsError + string :=
  match matchArn (eventSourceARN message) with
  | Some (reg, accountId, name) =>
      inr ("https://sqs." ++ reg ++ ".amazonaws.com/" ++ accountId ++ "/" ++ name)%string
  | None => inl (TypeError "Cannot read properties of null (reading 'slice')")
  end.

(** What the dispatcher is given by its host and by the project it serves:
    the loader of queue modules, [null] being [None], and the remaining-time
    oracle, as the value it returns at each successive call. *)
Class Runtime : Type := {
  loadModule : string -> option QueueModule;
  getRemainingTimeInMillis : nat -> Z
}.

Section WithPlatform.
Context {platform : Platform} {runtime : Runtime}.

(** [getPayload(message)] *)
Definition getPayload (message : SQSMessage) : JsError + Payload :=
  let type := stringValue "type" (messageAttributes message) in
  match type with
  | Some "application/json" =>
      match JSON_parse (body message) with
      | Some v => inr (PayloadJson v)
      | None => inl (SyntaxError "Unexpected token in JSON")
      end
  | _ =>
      if match type with Some t => Js.truthy t | None => false end
      then inr (PayloadText (body message))
      else match JSON_parse (body message) with
           | Some v => inr (PayloadJson v)
           | None => inr (PayloadText (body message))
           end
  end.

(** [{ ...getMetadata(message), signal: controller.signal }]; the queue name
    is the one [getQueueName] returned for this message. *)
Definition getMetadata (message : SQSMessage) (name : string) (controller : nat)
  : Metadata :=
  let a := attributes message in
  let userId := stringValue "userId" (messageAttributes message) in
  {| messageID := messageId message;
     groupID := MessageGroupId a;
     params :=
       fold_left (fun all nv => Js.setProperty (fst nv) (snd nv) all)
         (URLSearchParams_entries (stringValue "params" (messageAttributes message)))
         [];
     queueName := name;
     receivedCount := toNumber (ApproximateReceiveCount a);
     sentAt := toNumber (SentTimestamp a);
     sequenceNumber :=
       match SequenceNumber a with
       | Some s => if Js.truthy s then Some (toNumber s) else None
       | None => None
       end;
     user :=
       match userId with
       | Some u => if Js.truthy u then Some u else None
       | None => None
       end;
     signal := controller |}.

(** [getTimeout(config)], in seconds. *)
Definition getTimeout (config : option QueueConfig) : Js.Number :=
  Js.Math_min
    (Js.Math_max (match config with
                  | Some c => match timeout c with
                              | Some t => t
                              | None => Js.Int defaultTimeout
                              end
                  | None => Js.Int defaultTimeout
                  end) (Js.Int minTimeout))
    (Js.Int maxTimeout).

(** An awaited call outside the race. *)
Definition await (s : Settled) : Dispatch unit :=
  match s with
  | Fulfilled => ret tt
  | Rejected reason => throw reason
  | Unsettled => never
  end.

(** The error of a message that ran out of time. *)
Definition timeoutError (timeout : Js.Number) : Thrown :=
  ThrownError (Error ("Timeout: message took longer than "
                      ++ Number_to_string timeout ++ " to process")).

(** The milliseconds after which the timer of a message fires:
    [setTimeout(() => controller.abort(), timeout * 1000)]. *)
Definition abortDelay (timeout : Js.Number) : Z :=
  Js.timerDelay (Js.times timeout (Js.Int 1000)).

(** [Promise.race([module.handler(payload, metadata), aborted])] followed by
    the check of [controller.signal.aborted].  The timer was armed with
    [timeout * 1000] before the handler was called, so a handler that
    settles when the timer fires or later finds the signal aborted. *)
Definition raceHandler (module : QueueModule) (payload : Payload)
    (metadata : Metadata) (timeout : Js.Number) : Dispatch unit :=
  effect (emit (Call_handler payload metadata)) ;;;
  match handler module payload metadata with
  | Resolves ms =>
      if ms <? abortDelay timeout then ret tt
      else effect (abort (signal metadata)) ;;; throw (timeoutError timeout)
  | Rejects ms reason =>
      if ms <? abortDelay timeout then throw reason
      else effect (abort (signal metadata)) ;;; throw (timeoutError timeout)
  | Pending =>
      effect (abort (signal metadata)) ;;; throw (timeoutError timeout)
  end.

Definition liftError {A} (r : JsError + A) : Dispatch A :=
  match r with
  | inl e => throw (ThrownError e)
  | inr a => ret a
  end.

(** [handleOneMessage({ message, sqs, timeout })]: its [timeout] argument
    is what [getRemainingTimeInMillis()] returned, a whole number of
    milliseconds; the smaller of that number and of the timeout of the
    queue, which counts seconds, is what the timer is armed with. *)
Definition handleOneMessage (message : SQSMessage) (sqs : SQS)
    (remainingTime : Z) : Dispatch bool :=
  name <- liftError (getQueueName message) ;;
  match loadModule ("queues/" ++ name) with
  | None => throw (ThrownError (Error ("No handler for queue " ++ name)))
  | Some module =>
      let timeout :=
        Js.Math_min (getTimeout (config module)) (Js.Int remainingTime) in
      if Js.le timeout (Js.Int 0) then ret false
      else
        controller <- newAbortController ;;
        let metadata := getMetadata message name controller in
        finally
          (tryCatch
             (effect (emit (Info_Handling (messageId message) name)) ;;;
              payload <- liftError (getPayload message) ;;
              raceHandler module payload metadata timeout ;;;
              (if String.eqb (region sqs) "localhost" then ret tt
               else
                 effect (emit (Info_Deleting (messageId message) name)) ;;;
                 url <- liftError (getQueueURL message) ;;
                 await (deleteMessage sqs url (receiptHandle message)) ;;;
                 effect (recordDeleted url (receiptHandle message))) ;;;
              ret true)
             (fun error =>
                effect (emit (Error_queue name (messageId message) error)) ;;;
                match onError module with
                | Some f =>
                    tryCatch
                      (effect (emit (Call_onError (asError error) metadata)) ;;;
                       await (f (asError error) metadata))
                      (fun error' => effect (emit (Error_onError name error')))
                | None => ret tt
                end ;;;
                ret false))
          (abort controller)
  end.

(** One call of the host's budget oracle. *)
Definition remainingTime : Dispatch Z :=
  fun w => (Ret (getRemainingTimeInMillis (reads w)),
            {| deleted := deleted w; trace := trace w; reads := S (reads w);
               controllers := controllers w |}).

(** [handleFifoMessages]: the result is the list of [itemIdentifier]s. *)
Fixpoint handleFifoMessages (messages : list SQSMessage) (sqs : SQS)
  : Dispatch (list string) :=
  match messages with
  | [] => ret []
  | message :: rest =>
      t <- remainingTime ;;
      successful <- handleOneMessage message sqs t ;;
      if successful then handleFifoMessages rest sqs
      else ret (map messageId (message :: rest))
  end.

(** [.filter(Boolean)] on the ids: [null] and the empty id are dropped. *)
Definition keepIds (ids : list (option string)) : list string :=
  flat_map (fun i => match i with
                     | Some s => if Js.truthy s then [s] else []
                     | None => []
                     end) ids.

(** [handleStandardMessages]: [messages.map] starts every message, reading
    the budget for each as it goes, and [Promise.all] awaits them. *)
Definition handleStandardMessages (messages : list SQSMessage) (sqs : SQS)
  : Dispatch (list string) :=
  fun w =>
    let budgets := map (fun i => getRemainingTimeInMillis (reads w + i))
                       (seq 0 (List.length messages)) in
    let w0 := {| deleted := deleted w; trace := trace w;
                 reads := (reads w + List.length messages)%nat;
                 controllers := controllers w |} in
    (failedMessageIds <-
       promiseAll
         (map (fun mt : SQSMessage * Z =>
                 ok <- handleOneMessage (fst mt) sqs (snd mt) ;;
                 ret (if ok : bool then None else Some (messageId (fst mt))))
              (combine messages budgets)) ;;
     ret (keepIds failedMessageIds)) w0.

(** [handleSQSMessages({ getRemainingTimeInMillis, messages, sqs })]: the
    [batchItemFailures] identifiers. *)
Definition handleSQSMessages (messages : list SQSMessage) (sqs : SQS)
  : Dispatch (list string) :=
  match messages with
  | [] =>
      throw (ThrownError
               (TypeError "Cannot read properties of undefined (reading 'eventSourceARN')"))
  | first :: _ =>
      fifo <- liftError (isFifoQueue first) ;;
      if fifo : bool then handleFifoMessages messages sqs
      else handleStandardMessages messages sqs
  end.

(** *** Vocabulary for the properties of a batch *)

(** The ids of the messages whose handling was announced, oldest first. *)
Definition handled (tr : list Event) : list string :=
  flat_map (fun e => match e with Info_Handling id _ => [id] | _ => [] end) tr.

(** The deletion the dispatcher asks of the backend for a message. *)
Definition deleteRequest (m : SQSMessage) : list (string * string) :=
  match getQueueURL m with
  | inr url => [(url, receiptHandle m)]
  | inl _ => []
  end.

(** One turn of the FIFO loop: read the budget, handle the message. *)
Definition turn (message : SQSMessage) (sqs : SQS) : Dispatch bool :=
  t <- remainingTime ;; handleOneMessage message sqs t.

(** The world after the FIFO loop has taken the given messages in turn and
    each one was handled successfully; [None] as soon as one is not. *)
Fixpoint succeedInTurn (messages : list SQSMessage) (sqs : SQS) (w : World)
  : option World :=
  match messages with
  | [] => Some w
  | m :: rest =>
      match turn m sqs w with
      | (Ret true, w') => succeedInTurn rest sqs w'
      | _ => None
      end
  end.

End WithPlatform.

Definition emptyWorld : World :=
  {| deleted := []; trace := []; reads := 0; controllers := [] |}.

End SqsDispatch.

(** * The per-record dispatcher (packages/runtime/src/sqs.ts) *)

Module LegacySqs.
Import SqsDispatch.

(** [isFifo(message)]: [!!message.attributes.MessageGroupId] *)
Definition isFifo (message : SQSMessage) : bool :=
  match MessageGroupId (attributes message) with
  | Some g => Js.truthy g
  | None => false
  end.

(** The records [handleUnorderedMessages] processes in parallel. *)
Definition unordered (messages : list SQSMessage) : list SQSMessage :=
  filter (fun m => negb (isFifo m)) messages.

(** [groups.get(groupId)] followed by [push] or [set]. *)
Fixpoint addToGroup (g : string) (m : SQSMessage)
    (groups : list (string * list SQSMessage)) : list (string * list SQSMessage) :=
  match groups with
  | [] => [(g, [m])]
  | (g', ms) :: rest =>
      if String.eqb g' g then (g', ms ++ [m]) :: rest
      else (g', ms) :: addToGroup g m rest
  end.

(** The [Map] that [handleFifoMessages] builds: one ordered list per group. *)
Definition fifoGroups (messages : list SQSMessage)
  : list (string * list SQSMessage) :=
  fold_left
    (fun groups m =>
       if isFifo m
       then match MessageGroupId (attributes m) with
            | Some g => addToGroup g m groups
            | None => groups
            end
       else groups)
    messages [].

(** [getTimeout(config)]: [Math.min(config.timeout ?? 30, 10)] *)
Definition getTimeout (config : QueueConfig) : Js.Number :=
  Js.Math_min (match timeout config with Some t => t | None => Js.Int 30 end)
    (Js.Int 10).

End LegacySqs.


(** ** Sample project for the queue dispatcher *)

Module SqsSamples.
Import Async SqsDispatch.

(** A platform whose JSON parser accepts nothing: payloads stay text. *)
Definition textPlatform : Platform :=
  {| JSON_parse := fun _ => None;
     JSON_stringify := fun _ => "null";
     URLSearchParams_entries := fun _ => [];
     toNumber := fun _ => None;
     md5_hex := fun s => s;
     utf8_decode := fun s => s |}.

Definition arnOf (queue : string) : string :=
  "arn:aws:sqs:us-east-2:123456789012:project-branch__" ++ queue.

Definition sample (id queue : string) (group : option string) : SQSMessage :=
  {| messageId := id; body := "hello"; eventSourceARN := arnOf queue;
     receiptHandle := "receipt-" ++ id;
     attributes := {| ApproximateReceiveCount := "1"; SentTimestamp := "0";
                      MessageGroupId := group; SequenceNumber := None |};
     messageAttributes := [] |}.

(** A handler that throws on the message whose id is [bad] and returns
    after five milliseconds on every other message. *)
Definition failingOn (bad : string) : QueueModule :=
  {| handler := fun _ metadata =>
                  if String.eqb (messageID metadata) bad
                  then Rejects 1 (ThrownValue "boom")
                  else Resolves 5;
     config := None;
     onError := None |}.

(** A project with the two queues [jobs] and [jobs.fifo]. *)
Definition project (bad : string) (name : string) : option QueueModule :=
  if String.eqb name "queues/jobs" || String.eqb name "queues/jobs.fifo"
  then Some (failingOn bad) else None.

(** A queue configured with a timeout of 500 seconds whose handler returns
    after 40 seconds. *)
Definition slow : QueueModule :=
  {| handler := fun _ _ => Resolves 40000;
     config := Some {| timeout := Some (Js.Int 500) |};
     onError := None |}.

Definition slowProject (name : string) : option QueueModule :=
  if String.eqb name "queues/jobs" then Some slow else None.

(** A queue configured with a timeout of 30 seconds whose handler returns
    after 25 seconds. *)
Definition steady : QueueModule :=
  {| handler := fun _ _ => Resolves 25000;
     config := Some {| timeout := Some (Js.Int 30) |};
     onError := None |}.

Definition steadyProject (name : string) : option QueueModule :=
  if String.eqb name "queues/jobs" then Some steady else None.

Definition oneMinute : nat -> Z := fun _ => 60000%Z.

(** The project with a handler failing on [bad], and a minute of budget. *)
Definition runtime (bad : string) : Runtime :=
  {| loadModule := project bad; getRemainingTimeInMillis := oneMinute |}.

Definition slowRuntime : Runtime :=
  {| loadModule := slowProject; getRemainingTimeInMillis := oneMinute |}.

(** The project of the queue [steady], with twenty seconds of budget. *)
Definition steadyRuntime : Runtime :=
  {| loadModule := steadyProject;
     getRemainingTimeInMillis := fun _ => 20000%Z |}.

Definition remote : SQS :=
  {| region := "us-east-2"; deleteMessage := fun _ _ => Fulfilled |}.

Definition localhost : SQS :=
  {| region := "localhost"; deleteMessage := fun _ _ => Fulfilled |}.

Definition A : SQSMessage := sample "A" "jobs.fifo" (Some "g").
Definition B : SQSMessage := sample "B" "jobs.fifo" (Some "g").
Definition C : SQSMessage := sample "C" "jobs.fifo" (Some "g").

(** Three messages of one group; the handler fails on the second. *)
Definition batch : list SQSMessage := [A; B; C].

(** The world after each of the first two turns of the FIFO loop. *)
Definition afterA (sqs : SQS) : World :=
  snd (turn (platform := textPlatform) (runtime := runtime "B") A sqs emptyWorld).

Definition afterB (sqs : SQS) : World :=
  snd (turn (platform := textPlatform) (runtime := runtime "B") B sqs
         (afterA sqs)).

(** Two messages that carry a group id but come from the queue [jobs],
    whose name has no suffix; the handler fails on the first. *)
Definition grouped : list SQSMessage :=
  [sample "A" "jobs" (Some "g"); sample "B" "jobs" (Some "g")].

(** A message of the queue [jobs.fifo] that carries no group id. *)
Definition ungrouped : SQSMessage := sample "A" "jobs.fifo" None.

End SqsSamples.


(** * The HTTP request engine (http/handleHTTPRequest.ts) *)

Module Http.
Import Async.
Local Open Scope task_scope.
Local Open Scope Z_scope.

(** ** Requests and responses *)

(** [Headers]: one value per name, names compared without case and kept in
    lower case. *)
Definition Headers : Type := list (string * string).

(** [headers.get(name)] *)
Definition headers_get (name : string) (h : Headers) : option string :=
  Js.getProperty (Js.toLowerCase name) h.

(** [headers.has(name)] *)
Definition headers_has (name : string) (h : Headers) : bool :=
  match headers_get name h with Some _ => true | None => false end.

(** [headers.set(name, value)] *)
Definition headers_set (name value : string) (h : Headers) : Headers :=
  Js.setProperty (Js.toLowerCase name) value h.

(** [new Headers({ ...first, ...second })] for an object literal or the
    spread of header entries. *)
Definition headers_assign (first : Headers) (second : list (string * string))
  : Headers :=
  fold_left (fun h nv => headers_set (fst nv) (snd nv) h) second first.

Definition new_Headers (init : list (string * string)) : Headers :=
  headers_assign [] init.

Record Response : Type := mkResponse {
  status : Z;
  headers : Headers;
  body : option string
}.

Record Request : Type := mkRequest {
  method : string;
  url : string;
  request_headers : Headers
}.

(** What user code of the HTTP engine throws: a [Response], or anything
    else. *)
Inductive HttpThrown : Type :=
| ThrowResponse (response : Response)
| ThrowOther (value : Thrown).

(** An awaited call into user code: the milliseconds it takes and what it
    gives, if it ever settles. *)
Inductive Call (A : Type) : Type :=
| Returns (ms : Z) (a : A)
| Throws (ms : Z) (thrown : HttpThrown)
| Hangs.
Arguments Returns {A} ms a.
Arguments Throws {A} ms thrown.
Arguments Hangs {A}.

(** ** Routes, modules and middleware *)

Record HTTPRoute : Type := mkHTTPRoute {
  cors : bool;
  methods : option (list string);
  accepts : list string;
  (** seconds *)
  timeout : Js.Number;
  filename : string
}.

Definition UserArg := SharedLocalStorage.UserArg.

(** The second argument of a request handler. *)
Record RequestHandlerMetadata : Type := mkMetadata {
  cookies : list (string * string);
  params : list (string * string);
  signal : nat;
  user : UserArg
}.

(** What a request handler returns. *)
Inductive HandlerResult : Type :=
| ResultResponse (response : Response)
| ResultString (text : string)
| ResultBuffer (bytes : string)
| ResultValue (value : Json)
| ResultUndefined.

Definition RequestHandler : Type :=
  Request -> RequestHandlerMetadata -> Call HandlerResult.

Inductive EtagValue : Type :=
| EtagBoolean (b : bool)
| EtagString (s : string).

Inductive EtagPolicy : Type :=
| EtagUnset
| EtagIs (v : EtagValue)
| EtagFunction (f : HandlerResult -> EtagValue).

Inductive CachePolicy : Type :=
| CacheUnset
| CacheSeconds (n : Z)
| CacheFunction (f : HandlerResult -> option Z).

Record RouteConfig : Type := mkRouteConfig {
  cache : CachePolicy;
  etag : EtagPolicy
}.

(** What a module holds under a name, when that is neither [undefined] nor
    [null]: a function, given by what it does when it is called as a
    request handler, or any other value, of which only the truthiness
    matters. *)
Inductive Exported : Type :=
| Function (call : RequestHandler)
| Value (truthy : bool).

Record RouteExports : Type := mkRouteExports {
  (** what [module[name]] gives for each name other than [config]: the
      request handlers [get], [post], [del], [default] and so on, and
      whatever else the module object holds *)
  exports : list (string * Exported);
  (** [module.config], an object when it is there *)
  config : option RouteConfig
}.

Record RouteMiddleware : Type := mkRouteMiddleware {
  authenticate : option (Request -> list (string * string) -> Call UserArg);
  onRequest : option (Request -> Call unit);
  onResponse : option (Request -> Response -> Call unit);
  onError : option (JsError -> Request -> Call unit)
}.

(** What [findRoute] resolves to. *)
Record Found : Type := mkFound {
  found_middleware : RouteMiddleware;
  found_module : RouteExports;
  found_params : list (string * string);
  found_route : HTTPRoute
}.

(** ** The world of one request *)

Inductive Event : Type :=
| Call_onRequest (request : Request)
| Call_authenticate (request : Request) (cookies : list (string * string))
| Console_invalid_user (filename : string)
| Set_user (user : UserArg)
| Call_handler (request : Request) (metadata : RequestHandlerMetadata)
| Console_no_response (filename : string)
| Call_onResponse (request : Request) (response : Response)
| Call_onError (error : JsError) (request : Request)
| Console_error_in (filename : string) (error : Thrown)
| Console_error_in_onResponse (filename : string) (error : Thrown)
| Console_error_in_onError (filename : string) (error : HttpThrown)
| Console_internal_error (method url : string) (error : Thrown).

(** The store that [getLocalStorage().run] installs: its [user] property. *)
Record LocalStorage : Type := mkLocalStorage { store_user : UserArg }.

Record State : Type := mkState {
  (** milliseconds elapsed *)
  clock : Z;
  (** console output, calls into user code and assignments, oldest first *)
  trace : list Event;
  (** the store of the running request, if one is installed *)
  store : option LocalStorage;
  (** per [AbortController] made so far, the time its signal fired *)
  controllers : list (option Z)
}.

Definition Pipeline (A : Type) : Type := Task State HttpThrown A.

Definition emit (e : Event) (s : State) : State :=
  {| clock := clock s; trace := trace s ++ [e]; store := store s;
     controllers := controllers s |}.

Definition advance (ms : Z) (s : State) : State :=
  {| clock := clock s + ms; trace := trace s; store := store s;
     controllers := controllers s |}.

Definition log (e : Event) : Pipeline unit := effect (emit e).

(** [await call] *)
Definition await {A} (c : Call A) : Pipeline A :=
  fun s =>
    match c with
    | Returns ms a => (Ret a, advance ms s)
    | Throws ms t => (Throw t, advance ms s)
    | Hangs => (Never, s)
    end.

Definition lift {A} (r : HttpThrown + A) : Pipeline A :=
  match r with
  | inl e => throw e
  | inr a => ret a
  end.

(** ** The engine *)

Definition internalServerError : Response :=
  {| status := 500; headers := []; body := Some "Internal Server Error" |}.

Definition methodNotAllowed : Response :=
  {| status := 405; headers := []; body := Some "Method Not Allowed" |}.

Definition unsupportedMediaType : Response :=
  {| status := 415; headers := []; body := Some "Unsupported Media Type" |}.

Definition forbidden : Response :=
  {| status := 403; headers := []; body := Some "Forbidden" |}.

Definition timedOut : Response :=
  {| status := 500; headers := []; body := Some "Timed Out" |}.

(** [getCorsHeaders({ cors, methods })] *)
Definition getCorsHeaders (route : HTTPRoute) : option Headers :=
  if negb (cors route) then None
  else Some (new_Headers
               [("Access-Control-Allow-Origin", "*");
                ("Access-Control-Allow-Methods",
                 match methods route with
                 | Some ms => Js.join ", " ms
                 | None => "*"
                 end);
                ("Access-Control-Allow-Headers", "Content-Type, Authorization")]).

(** [new Headers(corsHeaders)] *)
Definition orEmpty (h : option Headers) : Headers :=
  match h with Some x => x | None => [] end.

(** [checkRequest(request, route)] *)
Definition checkRequest (request : Request) (route : HTTPRoute)
  : HttpThrown + unit :=
  match methods route with
  | None =>
      inl (ThrowOther (ThrownError
             (TypeError "Cannot read properties of undefined (reading 'has')")))
  | Some ms =>
      if negb (Js.has "*" ms || Js.has (method request) ms)
      then inl (ThrowResponse methodNotAllowed)
      else
        let hasBody := negb (String.eqb (method request) "GET")
                       && negb (String.eqb (method request) "HEAD") in
        if negb hasBody then inr tt
        else if Js.has "*/*" (accepts route) then inr tt
        else
          let mimeType :=
            match headers_get "content-type" (request_headers request) with
            | Some v => Some (Js.trim (hd "" (Js.split ";" v)))
            | None => None
            end in
          let accepted :=
            match mimeType with
            | Some m =>
                Js.truthy m
                && (Js.has m (accepts route)
                    || Js.has (hd "" (Js.split "/" m) ++ "/*") (accepts route))
            | None => false
            end in
          if negb accepted then inl (ThrowResponse unsupportedMediaType)
          else inr tt
  end.

Fixpoint export (name : string) (l : list (string * Exported))
  : option Exported :=
  match l with
  | [] => None
  | (n, h) :: rest => if String.eqb n name then Some h else export name rest
  end.

(** [module[name]]: [None] when it is [undefined] or [null]. *)
Definition property (name : string) (module : RouteExports) : option Exported :=
  if String.eqb name "config"
  then match config module with
       | Some _ => Some (Value true)
       | None => None
       end
  else export name (exports module).

(** [a ?? b] *)
Definition orElse {A} (a b : option A) : option A :=
  match a with Some _ => a | None => b end.

(** [module.config ?? {}] *)
Definition configOrEmpty (module : RouteExports) : RouteConfig :=
  match config module with
  | Some c => c
  | None => {| cache := CacheUnset; etag := EtagUnset |}
  end.

(** [getHandler(module, method)]: what it returns is truthy, and need not
    be a function. *)
Definition getHandler (module : RouteExports) (method : string)
  : HttpThrown + Exported :=
  let handler :=
    orElse (property (Js.toLowerCase method) module)
      (orElse (if String.eqb method "DELETE"
               then property "del" module else None)
         (orElse (if String.eqb method "HEAD"
                  then property "get" module else None)
            (property "default" module))) in
  match handler with
  | Some (Function h) => inr (Function h)
  | Some (Value true) => inr (Value true)
  | Some (Value false) => inl (ThrowResponse methodNotAllowed)
  | None => inl (ThrowResponse methodNotAllowed)
  end.

(** The key and the value of one cookie: the text before the first ["="],
    which must not be empty, and the text after it. *)
Fixpoint cookiePair (s : string) : option (string * string) :=
  match s with
  | EmptyString => None
  | String c r =>
      if Ascii.eqb c "="%char then Some (EmptyString, r)
      else match cookiePair r with
           | Some (k, v) => Some (String c k, v)
           | None => None
           end
  end.

Definition matchCookie (s : string) : option (string * string) :=
  match cookiePair s with
  | Some (String c k, v) =>
      if SqsDispatch.dotStar v then Some (String c k, v) else None
  | _ => None
  end.

(** [getCookies(request)]: a cookie without ["="] makes the destructuring
    in the reducer throw. *)
Definition getCookies (request : Request) : JsError + list (string * string) :=
  match headers_get "cookie" (request_headers request) with
  | None => inr []
  | Some header =>
      if negb (Js.truthy header) then inr []
      else
        fold_left
          (fun acc cookie =>
             match acc, matchCookie (Js.trim cookie) with
             | inl e, _ => inl e
             | inr cookies, Some (key, value) =>
                 inr (Js.setProperty key value cookies)
             | inr _, None => inl (TypeError "undefined is not iterable")
             end)
          (Js.split ";" header) (inr [])
  end.

(** Truthiness of an etag value. *)
Definition etagTruthy (e : EtagValue) : bool :=
  match e with
  | EtagBoolean b => b
  | EtagString s => Js.truthy s
  end.

Section WithPlatform.
Context {platform : Platform}.

(** [addETag(headers, content, etag)] *)
Definition addETag (h : Headers) (content : string) (e : EtagValue) : Headers :=
  if headers_has "ETag" h || negb (etagTruthy e) then h
  else headers_set "ETag"
         (match e with
          | EtagString s => s
          | EtagBoolean _ => md5_hex content
          end) h.

(** [addCacheControl(headers, cache)] *)
Definition addCacheControl (h : Headers) (seconds : option Z) : Headers :=
  match seconds with
  | None => h
  | Some n =>
      if headers_has "Cache-Control" h || (n =? 0) then h
      else headers_set "Cache-Control"
             ("private, max-age=" ++ Z_to_string n ++ ", must-revalidate") h
  end.

(** Truthiness of a returned value that is no string, buffer or response. *)
Definition valueTruthy (v : Json) : bool :=
  match v with
  | JNull => false
  | JBool b => b
  | JNumber n => negb (n =? 0)
  | JString s => Js.truthy s
  | JArray _ => true
  | JObject _ => true
  end.

(** [resultToResponse({ cache, corsHeaders, etag, filename, result })] *)
Definition resultToResponse (cache : option Z) (corsHeaders : option Headers)
    (etag : EtagValue) (filename : string) (result : HandlerResult)
  : Pipeline Response :=
  let text (body : string) : Pipeline Response :=
    let h := headers_set "Content-Type" "text/plain; charset=utf-8"
               (orEmpty corsHeaders) in
    let h := addETag h body etag in
    let h := addCacheControl h cache in
    ret {| status := 200; headers := h; body := Some body |} in
  let empty : Pipeline Response :=
    log (Console_no_response filename) ;;;
    ret {| status := 204; headers := orEmpty corsHeaders; body := None |} in
  match result with
  | ResultResponse r =>
      let h := headers_assign (orEmpty corsHeaders) (headers r) in
      let h := if status r =? 200
               then addCacheControl
                      (addETag h (match body r with Some b => b | None => "" end)
                         etag) cache
               else h in
      ret {| status := status r; headers := h; body := body r |}
  | ResultString s => text s
  | ResultBuffer b => text (utf8_decode b)
  | ResultValue (JString s) => text s
  | ResultValue v =>
      if valueTruthy v then
        let h := headers_set "Content-Type" "application/json"
                   (orEmpty corsHeaders) in
        let body := JSON_stringify v in
        let h := addETag h body etag in
        let h := addCacheControl h cache in
        ret {| status := 200; headers := h; body := Some (JSON_stringify v) |}
      else empty
  | ResultUndefined => empty
  end.

(** The call of a middleware that may be absent. *)
Definition whenPresent {F} (f : option F) (call : F -> Pipeline unit)
  : Pipeline unit :=
  match f with
  | Some g => call g
  | None => ret tt
  end.

(** [await middleware.onError(error, request)] with its own [catch]. *)
Definition callOnError (middleware : RouteMiddleware) (filename : string)
    (error : Thrown) (request : Request) : Pipeline unit :=
  whenPresent (onError middleware)
    (fun g =>
       tryCatch
         (log (Call_onError (asError error) request) ;;;
          await (g (asError error) request))
         (fun e => log (Console_error_in_onError filename e))).

(** [await middleware.onResponse(request, response)] *)
Definition callOnResponse (middleware : RouteMiddleware) (request : Request)
    (response : Response) : Pipeline unit :=
  whenPresent (onResponse middleware)
    (fun f =>
       log (Call_onResponse request response) ;;;
       await (f request response)).

(** [handleOnResponse({ filename, middleware, request, response })] *)
Definition handleOnResponse (filename : string) (middleware : RouteMiddleware)
    (request : Request) (response : Response) : Pipeline Response :=
  tryCatch
    (callOnResponse middleware request response ;;; ret response)
    (fun error =>
       match error with
       | ThrowResponse r => ret r
       | ThrowOther t =>
           callOnError middleware filename t request ;;;
           ret internalServerError
       end).

(** [handleOnError({ error, filename, middleware, request })] *)
Definition handleOnError (error : HttpThrown) (filename : string)
    (middleware : RouteMiddleware) (request : Request) : Pipeline Response :=
  match error with
  | ThrowResponse _ => ret tt
  | ThrowOther t => log (Console_error_in filename t)
  end ;;;
  let response :=
    match error with
    | ThrowResponse r => r
    | ThrowOther _ => internalServerError
    end in
  response <-
    tryCatch
      (callOnResponse middleware request response ;;; ret response)
      (fun e =>
         match e with
         | ThrowResponse r => ret r
         | ThrowOther t =>
             log (Console_error_in_onResponse filename t) ;;; ret response
         end) ;;
  match error with
  | ThrowResponse _ => ret tt
  | ThrowOther t => callOnError middleware filename t request
  end ;;;
  ret response.

(** [!user?.id] *)
Definition lacksId (user : UserArg) : bool :=
  match user with
  | SharedLocalStorage.UserObj o => negb (SharedLocalStorage.hasId o)
  | _ => true
  end.

(** [getLocalStorage().getStore()!.user = user] *)
Definition assignUser (user : UserArg) : Pipeline unit :=
  fun s =>
    match store s with
    | None =>
        (Throw (ThrowOther (ThrownError
                  (TypeError "Cannot set properties of undefined (setting 'user')"))),
         s)
    | Some _ =>
        (Ret tt,
         emit (Set_user user)
           {| clock := clock s; trace := trace s;
              store := Some {| store_user := user |};
              controllers := controllers s |})
    end.

(** [await handler(request, { ...metadata, user })]: calling what is no
    function throws. *)
Definition callHandler (handler : Exported) (request : Request)
    (metadata : RequestHandlerMetadata) : Pipeline HandlerResult :=
  match handler with
  | Function h => log (Call_handler request metadata) ;;;
                  await (h request metadata)
  | Value _ =>
      throw (ThrowOther (ThrownError (TypeError "handler is not a function")))
  end.

(** [runWithMiddleware({ config, corsHeaders, filename, handler, middleware,
    metadata, request })]; [metadata] comes without its [user]. *)
Definition runWithMiddleware (config : RouteConfig)
    (corsHeaders : option Headers) (filename : string)
    (handler : Exported) (middleware : RouteMiddleware)
    (cookies params : list (string * string)) (signal : nat)
    (request : Request) : Pipeline Response :=
  tryCatch
    (whenPresent (onRequest middleware)
       (fun f => log (Call_onRequest request) ;;; await (f request)) ;;;
     user <- match authenticate middleware with
             | Some f =>
                 log (Call_authenticate request cookies) ;;;
                 await (f request cookies)
             | None => ret SharedLocalStorage.UserUndefined
             end ;;
     (if match authenticate middleware with Some _ => true | None => false end
         && lacksId user
      then log (Console_invalid_user filename) ;;;
           throw (ThrowResponse forbidden)
      else ret tt) ;;;
     assignUser user ;;;
     let metadata :=
       {| cookies := cookies; params := params; signal := signal;
          user := user |} in
     result <- callHandler handler request metadata ;;
     let cache :=
       match cache config with
       | CacheFunction f => f result
       | CacheSeconds n => Some n
       | CacheUnset => None
       end in
     let etag :=
       match etag config with
       | EtagFunction f => f result
       | EtagIs v => v
       | EtagUnset => EtagBoolean true
       end in
     response <- resultToResponse cache corsHeaders etag filename result ;;
     handleOnResponse filename middleware request response)
    (fun error => handleOnError error filename middleware request).

Fixpoint setAborted (l : list (option Z)) (n : nat) (at_ : Z)
  : list (option Z) :=
  match l, n with
  | [], _ => []
  | None :: t, O => Some at_ :: t
  | Some a :: t, O => Some a :: t
  | x :: t, S n' => x :: setAborted t n' at_
  end.

(** The milliseconds after which the timer of a request fires:
    [setTimeout(() => controller.abort(), timeout * 1000)]. *)
Definition abortDelay (timeout : Js.Number) : Z :=
  Js.timerDelay (Js.times timeout (Js.Int 1000)).

(** [handleRoute({ config, corsHeaders, filename, handler, middleware,
    newLocalStorage, params, request, timeout })].

    The pipeline and the timer run side by side and the first to settle
    decides; when both fall on the same millisecond the timer, which was
    armed first, is taken to fire first.  A pipeline that loses the race is
    abandoned, not stopped: what it does later stays in the trace.

    The cookies are read after the timer is armed and outside the [try]:
    when that throws, the call rejects at once, with the timer armed and
    the signal not fired. *)
Definition handleRoute (config : RouteConfig) (corsHeaders : option Headers)
    (filename : string) (handler : Exported)
    (middleware : RouteMiddleware) (newLocalStorage : LocalStorage)
    (params : list (string * string)) (request : Request)
    (timeout : Js.Number)
  : Pipeline Response :=
  fun s =>
    let controller := List.length (controllers s) in
    let deadline := clock s + abortDelay timeout in
    let finish (at_ : Z) (s' : State) : State :=
      {| clock := at_; trace := trace s'; store := store s;
         controllers := setAborted (controllers s') controller at_ |} in
    let s0 := {| clock := clock s; trace := trace s; store := store s;
                 controllers := controllers s ++ [None] |} in
    match getCookies request with
    | inl e => (Throw (ThrowOther (ThrownError e)), s0)
    | inr cookies =>
        let '(out, s1) :=
          runWithMiddleware config corsHeaders filename handler middleware
            cookies params controller request
            {| clock := clock s0; trace := trace s0;
               store := Some newLocalStorage;
               controllers := controllers s0 |} in
        match out with
        | Never => (Ret timedOut, finish deadline s1)
        | Ret response =>
            if clock s1 <? deadline then (Ret response, finish (clock s1) s1)
            else (Ret timedOut, finish deadline s1)
        | Throw e =>
            if clock s1 <? deadline then (Throw e, finish (clock s1) s1)
            else (Ret timedOut, finish deadline s1)
        end
    end.

Variable findRoute : string -> HttpThrown + Found.

(** [handleHTTPRequest(request, newLocalStorage)] *)
Definition handleHTTPRequest (request : Request)
    (newLocalStorage : LocalStorage) : Pipeline Response :=
  tryCatch
    (found <- lift (findRoute (url request)) ;;
     let route := found_route found in
     let module := found_module found in
     let corsHeaders := getCorsHeaders route in
     if cors route && String.eqb (method request) "OPTIONS"
     then ret {| status := 204; headers := orEmpty corsHeaders; body := None |}
     else
       handler <- lift (getHandler module (method request)) ;;
       lift (checkRequest request route) ;;;
       handleRoute (configOrEmpty module)
         corsHeaders (filename route) handler (found_middleware found)
         newLocalStorage (found_params found) request (timeout route))
    (fun error =>
       match error with
       | ThrowResponse r => ret r
       | ThrowOther t =>
           log (Console_internal_error (method request) (url request) t) ;;;
           ret internalServerError
       end).

End WithPlatform.

(** *** Vocabulary for the properties of a response *)

(** The headers of a response before the engine adds any of its own: the
    CORS headers, overridden by those of a response the handler returned. *)
Definition presetHeaders (corsHeaders : option Headers) (result : HandlerResult)
  : Headers :=
  match result with
  | ResultResponse r => headers_assign (orEmpty corsHeaders) (headers r)
  | _ => orEmpty corsHeaders
  end.

(** The calls of the request handler in a trace, with their arguments. *)
Definition handlerCalls (tr : list Event)
  : list (Request * RequestHandlerMetadata) :=
  flat_map (fun e => match e with
                     | Call_handler r m => [(r, m)]
                     | _ => []
                     end) tr.

(** The values assigned to the user cell in a trace. *)
Definition assignments (tr : list Event) : list UserArg :=
  flat_map (fun e => match e with Set_user u => [u] | _ => [] end) tr.

(** A step that calls no handler, assigns no user and leaves the store and
    the abort controllers as they are. *)
Definition quiet (s s' : State) : Prop :=
  controllers s' = controllers s /\
  store s' = store s /\
  handlerCalls (trace s') = handlerCalls (trace s) /\
  assignments (trace s') = assignments (trace s).

(** The [onRequest] middleware, if there is one, returns. *)
Definition onRequestPasses (middleware : RouteMiddleware) (request : Request)
  : Prop :=
  match onRequest middleware with
  | None => True
  | Some f => exists ms, f request = Returns ms tt
  end.

(** The bytes of a response body; no body is the empty content. *)
Definition content (r : Response) : string :=
  match body r with Some b => b | None => "" end.

Definition start : State :=
  {| clock := 0; trace := []; store := None; controllers := [] |}.

End Http.

(** ** Sample routes for the HTTP engine *)

Module HttpSamples.
Import Async Http.

Definition platform : Platform := SqsSamples.textPlatform.

Definition noMiddleware : RouteMiddleware :=
  {| authenticate := None; onRequest := None; onResponse := None;
     onError := None |}.

Definition defaults : RouteConfig := {| cache := CacheUnset; etag := EtagUnset |}.

Definition get (path : string) : Request :=
  {| method := "GET"; url := path; request_headers := [] |}.

(** A handler that answers after five seconds. *)
Definition sleepy : Exported :=
  Function (fun _ _ => Returns 5000 (ResultString "done")).

(** A store as the host makes it for a request: no user yet. *)
Definition fresh : LocalStorage :=
  {| store_user := SharedLocalStorage.UserUndefined |}.

(** A route whose [authenticate] returns [null] and whose [onResponse]
    replaces whatever response it is shown by a 200. *)
Definition welcome : Response :=
  {| status := 200; headers := []; body := Some "Welcome" |}.

Definition lenient : RouteMiddleware :=
  {| authenticate := Some (fun _ _ => Returns 1 SharedLocalStorage.UserNull);
     onRequest := None;
     onResponse := Some (fun _ _ => Throws 1 (ThrowResponse welcome));
     onError := None |}.

Definition secret : Exported :=
  Function (fun _ _ => Returns 1 (ResultString "secret")).

Definition privateRoute : Found :=
  {| found_middleware := lenient;
     found_module := {| exports := [("get", secret)]; config := None |};
     found_params := [];
     found_route := {| cors := false; methods := Some ["GET"]; accepts := ["*/*"];
                       timeout := Js.Int 30; filename := "api/private.ts" |} |}.

Definition routes (url : string) : HttpThrown + Found :=
  if String.eqb url "/private" then inr privateRoute
  else inl (ThrowResponse {| status := 404; headers := [];
                             body := Some "Not Found" |}).

(** A route with CORS enabled for GET and POST. *)
Definition openRoute : Found :=
  {| found_middleware := noMiddleware;
     found_module := {| exports := [("get", secret)]; config := None |};
     found_params := [];
     found_route := {| cors := true; methods := Some ["GET"; "POST"];
                       accepts := ["application/json"];
                       timeout := Js.Int 30; filename := "api/x.ts" |} |}.

(** A route that allows one second, served by the handler that takes
    five. *)
Definition sleepyRoute : Found :=
  {| found_middleware := noMiddleware;
     found_module := {| exports := [("get", sleepy)]; config := None |};
     found_params := [];
     found_route := {| cors := false; methods := Some ["GET"]; accepts := ["*/*"];
                       timeout := Js.Int 1; filename := "api/x.ts" |} |}.

Definition sleepyRoutes (url : string) : HttpThrown + Found :=
  if String.eqb url "/x" then inr sleepyRoute
  else inl (ThrowResponse {| status := 404; headers := [];
                             body := Some "Not Found" |}).

(** A route whose [authenticate] returns [undefined]. *)
Definition guarded : RouteMiddleware :=
  {| authenticate :=
       Some (fun _ _ => Returns 1 SharedLocalStorage.UserUndefined);
     onRequest := None; onResponse := None; onError := None |}.

Definition guardedRoute : Found :=
  {| found_middleware := guarded;
     found_module := {| exports := [("get", secret)]; config := None |};
     found_params := [];
     found_route := {| cors := false; methods := Some ["GET"]; accepts := ["*/*"];
                       timeout := Js.Int 30; filename := "api/private.ts" |} |}.

Definition guardedRoutes (url : string) : HttpThrown + Found :=
  if String.eqb url "/private" then inr guardedRoute
  else inl (ThrowResponse {| status := 404; headers := [];
                             body := Some "Not Found" |}).




Definition openRoutes (url : string) : HttpThrown + Found :=
  if String.eqb url "/x" then inr openRoute
  else inl (ThrowResponse {| status := 404; headers := [];
                             body := Some "Not Found" |}).

End HttpSamples.


(** * The manifest loader ([loadServices]) *)

Module Manifest.
Local Open Scope string_scope.

(** The double quote character, as a string. *)
Definition quote : string := String (ascii_of_nat 34) EmptyString.

(** ** Paths *)

(** The text after the last ["/"] and the text before it, if there is one. *)
Fixpoint lastSegment (s : string) : option string * string :=
  match s with
  | EmptyString => (None, EmptyString)
  | String c r =>
      match lastSegment r with
      | (Some dir, base) => (Some (String c dir), base)
      | (None, base) =>
          if Ascii.eqb c "/"%char then (Some EmptyString, base)
          else (None, String c base)
      end
  end.

(** [path.dirname(p)] for a path without a trailing separator. *)
Definition dirname (p : string) : string :=
  match fst (lastSegment p) with
  | None => "."
  | Some EmptyString => "/"
  | Some dir => dir
  end.

(** The text from the last ["."] on, when that dot is not the first
    character. *)
Fixpoint extensionFrom (first : bool) (s : string) : option string :=
  match s with
  | EmptyString => None
  | String c r =>
      match extensionFrom false r with
      | Some ext => Some ext
      | None => if Ascii.eqb c "."%char && negb first then Some s else None
      end
  end.

(** [path.extname(p)] *)
Definition extname (p : string) : string :=
  match extensionFrom true (snd (lastSegment p)) with
  | Some ext => ext
  | None => EmptyString
  end.

(** [path.basename(p, ext)] *)
Definition basename (p ext : string) : string :=
  let base := snd (lastSegment p) in
  if Js.truthy ext && Js.endsWith base ext && negb (String.eqb base ext)
  then String.substring 0 (String.length base - String.length ext) base
  else base.

(** [part.replace(...)] of [renamePathProperties], twice: ["[...x]"]
    becomes [":x*"] and ["[x]"] becomes [":x"]. *)
Definition unbracket (opening closing : string) (before after : string)
    (part : string) : string :=
  match SqsDispatch.stripPrefix opening part with
  | Some rest =>
      if Js.endsWith rest closing && SqsDispatch.dotStar rest
      then before
           ++ String.substring 0 (String.length rest - String.length closing) rest
           ++ after
      else part
  | None => part
  end.

(** [renamePathProperties(filename)] *)
Definition renamePathProperties (filename : string) : string :=
  Js.join "/"
    (map (fun part =>
            unbracket "[" "]" ":" "" (unbracket "[..." "]" ":" "*" part))
         (Js.split "/" filename)).

(** Every ["."] becomes ["/"], and a run of ["/"] becomes one. *)
Fixpoint collapse (afterSlash : bool) (s : string) : string :=
  match s with
  | EmptyString => EmptyString
  | String c r =>
      if Ascii.eqb c "."%char || Ascii.eqb c "/"%char
      then if afterSlash then collapse true r else String "/" (collapse true r)
      else String c (collapse false r)
  end.

(** [expandNestedRoutes(filename)] *)
Definition expandNestedRoutes (filename : string) : string :=
  collapse false filename.

Definition isNameChar (c : ascii) : bool :=
  let n := nat_of_ascii c in
  ((48 <=? n)%nat && (n <=? 57)%nat) || ((65 <=? n)%nat && (n <=? 90)%nat)
  || ((97 <=? n)%nat && (n <=? 122)%nat) || (n =? 95)%nat || (n =? 45)%nat.

(** A colon, one or more name characters and maybe a star, up to the end. *)
Fixpoint isParameterSuffix (s : string) : bool :=
  match s with
  | EmptyString => false
  | String c r =>
      (Ascii.eqb c ":"%char
       && match r with
          | EmptyString => false
          | String _ _ =>
              let name := if Js.endsWith r "*"
                          then String.substring 0 (String.length r - 1) r
                          else r in
              Js.truthy name && SqsDispatch.allChars isNameChar name
          end)
      || isParameterSuffix r
  end.

(** [isValidPathPart(part)]: the alternation of the pattern anchors its
    first branch at the start only and its second at the end only. *)
Definition isValidPathPart (part : string) : bool :=
  match part with
  | EmptyString => false
  | String c _ => isNameChar c || isParameterSuffix part
  end.

(** A key as path-to-regexp reports it. *)
Record Key : Type := mkKey { name : string; modifier : string }.

(** The path-to-regexp library, which this development does not interpret:
    the keys that [pathToRegexp(path, keys)] collects, or what it throws. *)
Class PathToRegexp : Type := {
  pathToRegexp : string -> JsError + list Key
}.

Fixpoint distinctNames (l : list string) : bool :=
  match l with
  | [] => true
  | x :: rest => negb (Js.has x rest) && distinctNames rest
  end.

(** [keys.findIndex(({ modifier }) => modifier === "*")] *)
Fixpoint findCatchAll (keys : list Key) (i : nat) : option nat :=
  match keys with
  | [] => None
  | k :: rest => if String.eqb (modifier k) "*" then Some i
                 else findCatchAll rest (S i)
  end.

Section WithLibrary.
Context {library : PathToRegexp}.

(** [verifyPathParameters(path)] *)
Definition verifyPathParameters (path : string) : JsError + unit :=
  match pathToRegexp path with
  | inl e => inl e
  | inr keys =>
      if negb (distinctNames (map name keys))
      then inl (Error "Found two parameters with the same name")
      else
        match findCatchAll keys 0 with
        | Some i =>
            if negb (Nat.eqb i (List.length keys - 1))
            then inl (Error "The catch-all parameter can only come at the end of the path")
            else if forallb isValidPathPart (Js.split "/" path) then inr tt
            else inl (Error "Path parts may only be alphanumeric, dash, underscore, or dot")
        | None =>
            if forallb isValidPathPart (Js.split "/" path) then inr tt
            else inl (Error "Path parts may only be alphanumeric, dash, underscore, or dot")
        end
  end.

(** [pathFromFilename(filename)] *)
Definition pathFromFilename (filename : string) : JsError + string :=
  let base := basename filename (extname filename) in
  let directory := dirname filename in
  let withoutIndex :=
    if String.eqb base "index" then directory
    else (directory ++ "/" ++ base)%string in
  let renamed := renamePathProperties withoutIndex in
  let expanded := expandNestedRoutes renamed in
  match verifyPathParameters expanded with
  | inl e => inl e
  | inr _ => inr expanded
  end.

(** ** Shapes *)

(** [path.replace(...)] of [loadRoutes]: each colon, the text after it up to
    the next slash or the end, and that slash, become the colon and that
    slash.  [skipped] holds the text passed over since the colon; a line
    terminator there means the pattern did not match at that colon. *)
Fixpoint signatureFrom (skipped : option string) (s : string) : string :=
  match skipped, s with
  | None, EmptyString => EmptyString
  | Some _, EmptyString => ":"
  | None, String c r =>
      if Ascii.eqb c ":"%char then signatureFrom (Some EmptyString) r
      else String c (signatureFrom None r)
  | Some text, String c r =>
      if Ascii.eqb c "/"%char then ":/" ++ signatureFrom None r
      else if Js.isLineTerminator c
           then ":" ++ text ++ String c (signatureFrom None r)
           else signatureFrom (Some (text ++ String c EmptyString)) r
  end.

Definition signature (path : string) : string := signatureFrom None path.

(** ** Module configuration *)

(** A configuration value that is one string or an array of strings. *)
Inductive OneOrMany : Type :=
| One (s : string)
| Many (l : list string).

(** [Array.isArray(x) ? x : [x]] *)
Definition asArray (x : OneOrMany) : list string :=
  match x with One s => [s] | Many l => l end.

(** [!x] *)
Definition absent (x : option OneOrMany) : bool :=
  match x with
  | None => true
  | Some (One s) => negb (Js.truthy s)
  | Some (Many _) => false
  end.

(** The [timeout] of a configuration: a number, which [NaN] is too, or a
    value of another type. *)
Inductive TimeoutValue : Type :=
| Seconds (n : Js.Number)
| NotANumber.

Record RouteConfig : Type := mkRouteConfig {
  methods : option OneOrMany;
  accepts : option OneOrMany;
  timeout : option TimeoutValue
}.

Record QueueConfig : Type := mkQueueConfig {
  url : option string;
  queue_accepts : option OneOrMany;
  queue_timeout : option TimeoutValue
}.

Definition upperChar (c : ascii) : ascii :=
  let n := nat_of_ascii c in
  if (97 <=? n)%nat && (n <=? 122)%nat then ascii_of_nat (n - 32) else c.

Fixpoint toUpperCase (s : string) : string :=
  match s with
  | EmptyString => EmptyString
  | String c r => String (upperChar c) (toUpperCase r)
  end.

(** [checkMethod(config)]: its test of the method names runs over the keys
    of a [Set], of which there are none, so it never throws. *)
Definition checkMethod (methods : option OneOrMany) : string -> bool :=
  if absent methods then fun _ => true
  else
    let set := map toUpperCase
                 (match methods with Some m => asArray m | None => [] end) in
    fun method => Js.has (toUpperCase method) set.

Definition isLetter (c : ascii) : bool :=
  let n := nat_of_ascii c in
  ((65 <=? n)%nat && (n <=? 90)%nat) || ((97 <=? n)%nat && (n <=? 122)%nat).

(** A MIME type as [config.accepts] may list it: letters, a slash, and
    letters or a star. *)
Definition isMimePattern (s : string) : bool :=
  match Js.split "/" s with
  | [type; subtype] =>
      Js.truthy type && SqsDispatch.allChars isLetter type
      && (String.eqb subtype "*"
          || (Js.truthy subtype && SqsDispatch.allChars isLetter subtype))
  | _ => false
  end.

(** [checkContentType(config)] *)
Definition checkContentType (accepts : option OneOrMany)
  : JsError + (string -> bool) :=
  if absent accepts then inr (fun _ => true)
  else
    let list := match accepts with Some a => asArray a | None => [] end in
    if negb (forallb isMimePattern list)
    then inl (Error ("config.accepts lists acceptable MIME types, like "
                     ++ quote ++ "application/json" ++ quote ++ " or "
                     ++ quote ++ "text/*" ++ quote))
    else
      let exact := filter (fun a => negb (Js.endsWith a "/*")) list in
      let primary := map (fun a => hd "" (Js.split "/" a))
                         (filter (fun a => Js.endsWith a "/*") list) in
      inr (fun type => Js.has type exact
                       || Js.has (hd "" (Js.split "/" type)) primary).

(** [getTimeout({ timeout }, { max, default })]: neither comparison holds
    of [NaN], which is returned as it is. *)
Definition getTimeout (timeout : option TimeoutValue) (max def : Z)
  : JsError + Js.Number :=
  match timeout with
  | None => inr (Js.Int def)
  | Some NotANumber => inl (Error "config.timeout must be a number (seconds)")
  | Some (Seconds t) =>
      if Js.lt t (Js.Int 1)
      then inl (Error "config.timeout must be at least 1 second")
      else if Js.lt (Js.Int max) t
           then inl (Error ("config.timeout cannot be more than "
                            ++ Z_to_string max ++ " seconds"))
           else inr t
  end.

(** ** Services *)

Record Queue : Type := mkQueue {
  queue_checkContentType : string -> bool;
  queue_filename : string;
  isFifo : bool;
  path : option string;
  queueName : string;
  queue_seconds : Js.Number
}.

Record Route : Type := mkRoute {
  route_checkContentType : string -> bool;
  route_checkMethod : string -> bool;
  filename : string;
  (** the path that [match] was compiled from *)
  matcher : string;
  queue : option Queue;
  seconds : Js.Number
}.

(** [map.set(key, value)] on a [Map] in insertion order. *)
Fixpoint Map_set {V} (key : string) (value : V) (m : list (string * V))
  : list (string * V) :=
  match m with
  | [] => [(key, value)]
  | (k, v) :: rest =>
      if String.eqb k key then (k, value) :: rest
      else (k, v) :: Map_set key value rest
  end.

(** [set.add(x)] *)
Definition Set_add (x : string) (set : list string) : list string :=
  if Js.has x set then set else (set ++ [x])%list.

(** The two collections that [loadRoutes] fills. *)
Record Loading : Type := mkLoading {
  routes : list (string * Route);
  dupes : list string
}.

(** The modules of the project by file name, [None] where there is none:
    the configuration that each exports. *)
Class Project : Type := {
  loadRouteModule : string -> option RouteConfig;
  loadQueueModule : string -> option QueueConfig
}.

Context {project : Project}.

(** [throw new Error(`Error in "${filename}": ${error}`)] *)
Definition errorIn (filename : string) (error : JsError) : JsError :=
  Error ("Error in " ++ quote ++ filename ++ quote ++ ": "
         ++ String_of_error error).

Definition identicalRoute : JsError :=
  Error "An identical route already exists, maybe with different parameter names".

(** [filename.replace(...)]: without the leading ["api/"]. *)
Definition withoutApi (filename : string) : string :=
  match SqsDispatch.stripPrefix "api/" filename with
  | Some rest => rest
  | None => filename
  end.

(** The body of the first loop of [loadRoutes], before its [catch]. *)
Definition tryRoute (filename : string) (st : Loading) : JsError + Loading :=
  match loadRouteModule filename with
  | None => inl (Error "Invariant failed: Module not found")
  | Some config =>
      match pathFromFilename (withoutApi filename) with
      | inl e => inl e
      | inr path =>
          if Js.has (signature path) (dupes st) then inl identicalRoute
          else
            match checkContentType (accepts config) with
            | inl e => inl e
            | inr acceptsType =>
                match getTimeout (timeout config) 30 30 with
                | inl e => inl e
                | inr t =>
                    inr {| routes :=
                             Map_set path
                               {| route_checkContentType := acceptsType;
                                  route_checkMethod := checkMethod (methods config);
                                  filename := filename;
                                  matcher := path;
                                  queue := None;
                                  seconds := t |}
                               (routes st);
                           dupes := Set_add (signature path) (dupes st) |}
                end
            end
      end
  end.

(** One turn of the first loop of [loadRoutes]. *)
Definition addRoute (filename : string) (st : Loading) : JsError + Loading :=
  match tryRoute filename st with
  | inl e => inl (errorIn filename e)
  | inr st' => inr st'
  end.

Fixpoint addRoutes (filenames : list string) (st : Loading)
  : JsError + Loading :=
  match filenames with
  | [] => inr st
  | f :: rest =>
      match addRoute f st with
      | inl e => inl e
      | inr st' => addRoutes rest st'
      end
  end.

(** [queue.path.replace(...)]: without one leading and one trailing slash. *)
Definition withoutSlashes (p : string) : string :=
  if SqsDispatch.dotStar p then
    let p1 := match SqsDispatch.stripPrefix "/" p with
              | Some rest => rest
              | None => p
              end in
    if Js.endsWith p1 "/" then String.substring 0 (String.length p1 - 1) p1
    else p1
  else p.

(** The body of the second loop of [loadRoutes], before its [catch]. *)
Definition tryQueueRoute (q : Queue) (queuePath : string) (st : Loading)
  : JsError + Loading :=
  let path := renamePathProperties (withoutSlashes queuePath) in
  match verifyPathParameters path with
  | inl e => inl e
  | inr _ =>
      if Js.has (signature path) (dupes st)
      then inl (Error ("Error in " ++ quote ++ queue_filename q ++ quote
                       ++ ": duplicate route exists"))
      else
        inr {| routes :=
                 Map_set path
                   {| route_checkContentType := queue_checkContentType q;
                      route_checkMethod :=
                        fun method => String.eqb (toUpperCase method) "POST";
                      filename := queue_filename q;
                      matcher := path;
                      queue := Some q;
                      seconds := queue_seconds q |}
                   (routes st);
               dupes := Set_add (signature path) (dupes st) |}
  end.

(** One turn of the second loop of [loadRoutes]. *)
Definition addQueueRoute (q : Queue) (st : Loading) : JsError + Loading :=
  match path q with
  | None => inr st
  | Some queuePath =>
      if negb (Js.truthy queuePath) then inr st
      else match tryQueueRoute q queuePath st with
           | inl e => inl (errorIn (queue_filename q) e)
           | inr st' => inr st'
           end
  end.

Fixpoint addQueueRoutes (queues : list Queue) (st : Loading)
  : JsError + Loading :=
  match queues with
  | [] => inr st
  | q :: rest =>
      match addQueueRoute q st with
      | inl e => inl e
      | inr st' => addQueueRoutes rest st'
      end
  end.

(** [loadRoutes(queues)] over the files that the glob found. *)
Definition loadRoutes (filenames : list string)
    (queues : list (string * Queue)) : JsError + list (string * Route) :=
  match addRoutes filenames {| routes := []; dupes := [] |} with
  | inl e => inl e
  | inr st =>
      match addQueueRoutes (map snd queues) st with
      | inl e => inl e
      | inr st' => inr (routes st')
      end
  end.

(** ** Queues *)

(** [queueNameFromFilename(filename)] *)
Definition queueNameFromFilename (filename : string) : JsError + string :=
  let name := basename filename (extname filename) in
  let stem := if Js.endsWith (Js.toLowerCase name) ".fifo"
              then String.substring 0 (String.length name - 5) name
              else name in
  if negb (Js.truthy stem && SqsDispatch.allChars isNameChar stem)
  then inl (Error "Queue name must be alphanumeric, dash, or underscore, and optionally followed by '.fifo'")
  else if (40 <? String.length name)%nat
       then inl (Error "Queue name longer than the allowed 40 characters")
       else inr name.

(** [getQueuePath(config, isFifo)] *)
Definition getQueuePath (config : QueueConfig) (fifo : bool)
  : JsError + option string :=
  match url config with
  | None => inr None
  | Some u =>
      if negb (Js.truthy u) then inr None
      else if negb (Js.startsWith u "/")
           then inl (Error ("config.url is a relative URL and must start with "
                            ++ quote ++ "/" ++ quote))
           else
             let p := renamePathProperties u in
             match pathToRegexp p with
             | inl e => inl e
             | inr keys =>
                 if fifo && negb (Js.has "group" (map name keys))
                 then inl (Error "FIFO queue must have a :group parameter in the URL, and optionally a :dedupe parameter")
                 else inr (Some p)
             end
  end.

(** The body of the loop of [loadQueues], before its [catch]. *)
Definition tryQueue (filename : string) : JsError + Queue :=
  match loadQueueModule filename with
  | None => inl (Error "Invariant failed: Module not found")
  | Some config =>
      match queueNameFromFilename filename with
      | inl e => inl e
      | inr name =>
          let fifo := Js.endsWith name ".fifo" in
          match checkContentType (queue_accepts config) with
          | inl e => inl e
          | inr acceptsType =>
              match getQueuePath config fifo with
              | inl e => inl e
              | inr p =>
                  match getTimeout (queue_timeout config) 500 30 with
                  | inl e => inl e
                  | inr t =>
                      inr {| queue_checkContentType := acceptsType;
                             queue_filename := filename;
                             isFifo := fifo;
                             path := p;
                             queueName := name;
                             queue_seconds := t |}
                  end
              end
          end
      end
  end.

(** [loadQueues()] over the files that the glob found. *)
Fixpoint loadQueues (filenames : list string) (queues : list (string * Queue))
  : JsError + list (string * Queue) :=
  match filenames with
  | [] => inr queues
  | f :: rest =>
      match tryQueue f with
      | inl e => inl (errorIn f e)
      | inr q => loadQueues rest (Map_set (queueName q) q queues)
      end
  end.

(** [loadServices(dirname)]: the queues and the routes. *)
Definition loadServices (queueFiles apiFiles : list string)
  : JsError + (list (string * Queue) * list (string * Route)) :=
  match loadQueues queueFiles [] with
  | inl e => inl e
  | inr queues =>
      match loadRoutes apiFiles queues with
      | inl e => inl e
      | inr routes => inr (queues, routes)
      end
  end.

End WithLibrary.

(** *** Vocabulary for the properties of a manifest *)

(** The shapes of the routes of a manifest, in the order of the routes. *)
Definition shapes (routes : list (string * Route)) : list string :=
  map (fun r => signature (fst r)) routes.

(** The set of shapes seen so far is that of the routes added so far, and
    holds each shape once. *)
Definition consistent (st : Loading) : Prop :=
  dupes st = shapes (routes st) /\ NoDup (dupes st).

Definition empty : Loading := {| routes := []; dupes := [] |}.

End Manifest.

(** ** Sample project for the manifest loader *)

Module ManifestSamples.
Import Manifest.
Local Open Scope string_scope.

(** The keys of a path in which every parameter is a colon followed by
    letters, digits or underscores, with an optional star. *)
Fixpoint keysFrom (current : option string) (s : string) : list Key :=
  match s with
  | EmptyString =>
      match current with
      | Some n => [{| name := n; modifier := "" |}]
      | None => []
      end
  | String c r =>
      match current with
      | None =>
          if Ascii.eqb c ":"%char then keysFrom (Some EmptyString) r
          else keysFrom None r
      | Some n =>
          if isNameChar c && negb (Ascii.eqb c "-"%char)
          then keysFrom (Some (n ++ String c EmptyString)) r
          else if Ascii.eqb c "*"%char
               then {| name := n; modifier := "*" |} :: keysFrom None r
               else {| name := n; modifier := "" |} :: keysFrom None r
      end
  end.

Definition library : PathToRegexp :=
  {| pathToRegexp := fun p => inr (keysFrom None p) |}.

(** Every file has a module, with an empty configuration. *)
Definition modules : Project :=
  {| loadRouteModule := fun _ =>
       Some {| methods := None; accepts := None; timeout := None |};
     loadQueueModule := fun _ =>
       Some {| url := None; queue_accepts := None; queue_timeout := None |} |}.

(** The two files of the duplicate-shape scenario. *)
Definition twoFiles : list string := ["api/a/[x].ts"; "api/a/[y].ts"].

End ManifestSamples.


(** ** Strings without a given character *)

Module JsMore.
Import SqsDispatch.

(** The character [c] does not occur in [s]. *)
Definition lacks (c : ascii) (s : string) : bool :=
  allChars (fun x => negb (Ascii.eqb x c)) s.

End JsMore.


(** ** Vocabulary for the batch dispatcher *)

Module SqsObservations.
Import SqsDispatch JsMore.

(** A part of an ARN: a text without colon and without line terminator. *)
Definition arnPart (s : string) : bool := lacks ":" s && dotStar s.

(** The messages of a batch that a failure report names, and those that it
    does not name. *)
Definition reported (failures : list string) (messages : list SQSMessage)
  : list SQSMessage :=
  filter (fun m => Js.has (messageId m) failures) messages.

Definition acknowledged (failures : list string) (messages : list SQSMessage)
  : list SQSMessage :=
  filter (fun m => negb (Js.has (messageId m) failures)) messages.

(** The errors that a trace reports for messages, and the errors that were
    handed to [onError], oldest first. *)
Definition errorsLogged (tr : list Event) : list Thrown :=
  flat_map (fun e => match e with Error_queue _ _ error => [error] | _ => [] end) tr.

Definition onErrorCalls (tr : list Event) : list JsError :=
  flat_map (fun e => match e with Call_onError error _ => [error] | _ => [] end) tr.

(** The abort signals that handlers were called with, oldest first. *)
Definition signalsGiven (tr : list Event) : list nat :=
  flat_map (fun e => match e with Call_handler _ metadata => [signal metadata] | _ => [] end) tr.

(** The value that a list of name and value entries gives a name: that of
    the last entry with this name. *)
Definition lastValue (name : string) (entries : list (string * string))
  : option string :=
  fold_left (fun found nv => if String.eqb (fst nv) name then Some (snd nv) else found)
    entries None.

End SqsObservations.


(** ** Further sample batches *)

Module SqsMoreSamples.
Import Async SqsDispatch.

(** The world after the dispatcher has handled [m] alone, with a minute of
    budget, in the project whose handler fails on B. *)
Definition afterOne (m : SQSMessage) (sqs : SQS) : World :=
  snd (handleOneMessage (platform := SqsSamples.textPlatform)
         (runtime := SqsSamples.runtime "B") m sqs 60000 emptyWorld).

(** Three messages of the standard queue [jobs]; the handler fails on the
    second. *)
Definition standardBatch : list SQSMessage :=
  [SqsSamples.sample "A" "jobs" None; SqsSamples.sample "B" "jobs" None;
   SqsSamples.sample "C" "jobs" None].

(** Two messages of a queue that has no module in the project. *)
Definition orphans : list SQSMessage :=
  [SqsSamples.sample "A" "other" None; SqsSamples.sample "B" "other" None].

(** A message of the queue [jobs] that declares a JSON body. *)
Definition declaredJson : SQSMessage :=
  {| messageId := "J"; body := "hello"; eventSourceARN := SqsSamples.arnOf "jobs";
     receiptHandle := "receipt-J";
     attributes := {| ApproximateReceiveCount := "1"; SentTimestamp := "0";
                      MessageGroupId := None; SequenceNumber := None |};
     messageAttributes := [("type", Some "application/json")] |}.

End SqsMoreSamples.


(** ** Vocabulary for the per-record dispatcher *)

Module LegacyGroups.
Import SqsDispatch LegacySqs.

(** [groups.get(groupId)] *)
Fixpoint getGroup (g : string) (groups : list (string * list SQSMessage))
  : option (list SQSMessage) :=
  match groups with
  | [] => None
  | (g', ms) :: rest => if String.eqb g' g then Some ms else getGroup g rest
  end.

(** The FIFO records of a batch that carry the group id [g], in the order
    of the batch. *)
Definition ofGroup (g : string) (messages : list SQSMessage) : list SQSMessage :=
  filter (fun m => isFifo m
                   && match MessageGroupId (attributes m) with
                      | Some g' => String.eqb g' g
                      | None => false
                      end) messages.

(** [groups] is the grouping of the FIFO records of [seen]: at most one
    entry for a group id, holding the records of [seen] with that id. *)
Definition groupedBy (groups : list (string * list SQSMessage))
    (seen : list SQSMessage) : Prop :=
  NoDup (map fst groups) /\
  forall g, getGroup g groups =
            match ofGroup g seen with [] => None | l => Some l end.

End LegacyGroups.


(** ** Vocabulary for the HTTP engine *)

Module HttpObservations.
Import Async Http.

(** The stage of the pipeline that a call into user code belongs to. *)
Definition stage (e : Event) : list nat :=
  match e with
  | Call_onRequest _ => [0]
  | Call_authenticate _ _ => [1]
  | Call_handler _ _ => [2]
  | Call_onResponse _ _ => [3]
  | Call_onError _ _ => [4]
  | _ => []
  end.

(** The stages of the calls into user code in a trace, oldest first. *)
Definition stages (tr : list Event) : list nat := flat_map stage tr.

(** Each number is smaller than the next. *)
Fixpoint increasing (l : list nat) : bool :=
  match l with
  | x :: (y :: _) as rest => (x <? y)%nat && increasing rest
  | _ => true
  end.

(** The errors that were handed to [onError], and the responses that were
    shown to [onResponse], oldest first. *)
Definition errorCalls (tr : list Event) : list JsError :=
  flat_map (fun e => match e with Call_onError error _ => [error] | _ => [] end) tr.

Definition responsesShown (tr : list Event) : list Response :=
  flat_map (fun e => match e with Call_onResponse _ r => [r] | _ => [] end) tr.

(** What a [Headers] object holds: one entry per name, names in lower
    case. *)
Definition wellFormed (h : Headers) : Prop :=
  NoDup (map fst h) /\ Forall (fun k => Js.toLowerCase k = k) (map fst h).

(** The media type of a Content-Type header value: the text before the
    first semicolon, trimmed. *)
Definition mediaType (value : string) : string :=
  Js.trim (hd "" (Js.split ";" value)).

End HttpObservations.


(** ** Further sample requests *)

Module HttpMoreSamples.
Import Async Http HttpSamples.

(** A middleware that only watches for errors. *)
Definition watchful : RouteMiddleware :=
  {| authenticate := None; onRequest := None; onResponse := None;
     onError := Some (fun _ _ => Returns 1 tt) |}.

(** A GET request whose Cookie header has a piece without a value. *)
Definition brokenCookie : Request :=
  {| method := "GET"; url := "/x";
     request_headers := [("cookie", "a=1; broken")] |}.

(** A POST request with a JSON body in UTF-8. *)
Definition jsonPost : Request :=
  {| method := "POST"; url := "/x";
     request_headers := [("content-type", "application/json; charset=utf-8")] |}.

(** A response as a handler returns it after creating a resource. *)
Definition created : Response :=
  {| status := 201; headers := [("location", "/x/1")]; body := None |}.

(** The world of a request whose store is installed. *)
Definition running : State :=
  {| clock := 0; trace := []; store := Some fresh; controllers := [None] |}.

End HttpMoreSamples.


(** ** Vocabulary for the manifest loader *)

Module ManifestShapes.
Import Manifest.
Local Open Scope string_scope.

(** A text that [collapse] leaves as it is: no dot, and no slash after a
    slash (nor at the start, when [afterSlash] is set). *)
Fixpoint tidy (afterSlash : bool) (s : string) : bool :=
  match s with
  | EmptyString => true
  | String c r =>
      if Ascii.eqb c "."%char then false
      else if Ascii.eqb c "/"%char then negb afterSlash && tidy true r
           else tidy false r
  end.

(** The name of a path parameter as a file name spells it: a text without
    slash and without line terminator. *)
Definition parameterName (s : string) : bool :=
  JsMore.lacks "/" s && SqsDispatch.dotStar s.

(** A timeout as the loader lets it through: [NaN], or a number of seconds
    between 1 and [max]. *)
Definition allowedTimeout (max : Z) (t : Js.Number) : Prop :=
  t = Js.NaN \/ exists n, t = Js.Int n /\ (1 <= n <= max)%Z.

End ManifestShapes.


(** ** Further sample manifests *)

Module ManifestMoreSamples.
Import Manifest.
Local Open Scope string_scope.

(** The files of two queues, one of them FIFO. *)
Definition queueFiles : list string :=
  ["queues/jobs.ts"; "queues/orders.fifo.ts"].

(** The queues that the manifest holds for these files. *)
Definition twoQueues : list (string * Queue) :=
  [("jobs",
    {| queue_checkContentType := fun _ => true;
       queue_filename := "queues/jobs.ts"; isFifo := false; path := None;
       queueName := "jobs"; queue_seconds := Js.Int 30 |});
   ("orders.fifo",
    {| queue_checkContentType := fun _ => true;
       queue_filename := "queues/orders.fifo.ts"; isFifo := true; path := None;
       queueName := "orders.fifo"; queue_seconds := Js.Int 30 |})].

(** The route that the manifest holds for the one file api/a/[x].ts. *)
Definition oneRoute : list (string * Route) :=
  [("a/:x",
    {| route_checkContentType := fun _ => true;
       route_checkMethod := fun _ => true;
       filename := "api/a/[x].ts"; matcher := "a/:x"; queue := None;
       seconds := Js.Int 30 |})].

End ManifestMoreSamples.


(* ================================================================== *)
(** * Properties *)
(* ================================================================== *)

(** * Ambient request context *)

Module SharedLocalStorageProps.
Import SharedLocalStorage.
Local Open Scope ctx_scope.

Lemma set_user_once_set (ls : LocalStorage) (u : UserArg) :
  _userSet ls = true ->
  set_user ls u = inl (Error "Local context user already set").
Proof.
  intros Hset. unfold set_user. now rewrite Hset.
Qed.

Lemma set_user_marks_set (ls ls' : LocalStorage) (u : UserArg) :
  set_user ls u = inr ls' ->
  _userSet ls = false /\ _userSet ls' = true /\ _user ls' = orNull u /\
  acceptable u = true.
Proof.
  unfold set_user. destruct (_userSet ls) eqn:E; [discriminate|].
  destruct u as [| |o]; simpl.
  - intros [= <-]. auto.
  - intros [= <-]. auto.
  - destruct (hasId o) eqn:Hid; [|discriminate].
    intros [= <-]. auto.
Qed.

(** Once the cell is set, a series of further attempts changes nothing and
    every attempt raises the same error. *)
Lemma assignAll_after_set (attempts : list UserArg) (ls : LocalStorage) :
  _userSet ls = true ->
  assignAll ls attempts =
    (ls, map (fun _ => Some (Error "Local context user already set")) attempts).
Proof.
  intros Hset. induction attempts as [|u rest IH]; simpl.
  - reflexivity.
  - rewrite (set_user_once_set ls u Hset), IH. reflexivity.
Qed.

Lemma successes_failed (e : JsError) (out : list (option JsError)) :
  successes (Some e :: out) = successes out.
Proof. reflexivity. Qed.

Lemma successes_passed (out : list (option JsError)) :
  successes (None :: out) = S (successes out).
Proof. reflexivity. Qed.

Lemma successes_all_failed {A} (e : JsError) (l : list A) :
  successes (map (fun _ => Some e) l) = 0%nat.
Proof. induction l; simpl; auto. Qed.

(** Whatever the series and the context it starts from, at most one attempt
    goes through, and none does once the cell is set. *)
Lemma assignAll_at_most_once (attempts : list UserArg) (ls : LocalStorage) :
  (successes (snd (assignAll ls attempts)) <= 1)%nat /\
  (_userSet ls = true -> successes (snd (assignAll ls attempts)) = 0%nat).
Proof.
  revert ls. induction attempts as [|u rest IH]; intros ls; simpl.
  - split; auto.
  - destruct (set_user ls u) as [e|ls1] eqn:E.
    + specialize (IH ls).
      destruct (assignAll ls rest) as [ls' out]. simpl in *.
      rewrite successes_failed. exact IH.
    + apply set_user_marks_set in E. destruct E as (Hf & Ht & _ & _).
      specialize (IH ls1).
      destruct (assignAll ls1 rest) as [ls' out]. simpl in *.
      rewrite successes_passed.
      destruct IH as [_ IH]. rewrite (IH Ht). split; [lia|].
      intros Habs. congruence.
Qed.

Lemma update_last (h : Heap) (old new : LocalStorage) :
  update (h ++ [old]) (List.length h) new = h ++ [new].
Proof. induction h as [|x h IH]; simpl; [reflexivity|now rewrite IH]. Qed.

Lemma nth_error_last (h : Heap) (ls : LocalStorage) :
  nth_error (h ++ [ls]) (List.length h) = Some ls.
Proof. induction h as [|x h IH]; simpl; [reflexivity|exact IH]. Qed.

(** X30. Inside a context, code that reaches the store through the holder and
    assigns the user twice is stopped at the second assignment; the store
    keeps the first value. *)
Lemma ambient_user_assigned_once (u : Urls) (first again : UserArg) (h : Heap) :
  acceptable first = true ->
  (l <- alloc u ;;
   withLocalStorage l
     (r <- getLocalStorage ;; assignUser r first ;;; assignUser r again))
    None h =
  (Thrown (Error "Local context user already set"),
   h ++ [{| urls := u; _user := orNull first; _userSet := true;
            connection := None |}]).
Proof.
  intros Hok.
  unfold bind, alloc, withLocalStorage, getLocalStorage, getStore, bind,
    asyncLocal_run, ret, assignUser.
  cbv beta iota. rewrite nth_error_last.
  assert (Hset : set_user (new_LocalStorage u) first =
                 inr {| urls := u; _user := orNull first; _userSet := true;
                        connection := None |}).
  { unfold set_user. simpl. destruct first as [| |o]; simpl in *; try reflexivity.
    now rewrite Hok. }
  rewrite Hset, update_last, nth_error_last.
  reflexivity.
Qed.

(** C4. On a fresh context the user cell is [null]; the first assignment of
    [null], [undefined] or a user with an id succeeds and stores that value
    ([null] for the first two); from then on every assignment to the same
    context throws "Local context user already set" and leaves the cell as
    it is.  So over a series of attempts that starts with such a value the
    cell is assigned exactly once, and over any series at most once. *)
Theorem user_cell_set_once (u : Urls) (first : UserArg) (later : list UserArg) :
  acceptable first = true ->
  exists ls1,
    set_user (new_LocalStorage u) first = inr ls1 /\
    get_user (new_LocalStorage u) = None /\
    get_user ls1 = orNull first /\
    (forall again, set_user ls1 again =
                   inl (Error "Local context user already set")) /\
    assignAll (new_LocalStorage u) (first :: later) =
      (ls1, None :: map (fun _ => Some (Error "Local context user already set"))
                        later) /\
    successes (snd (assignAll (new_LocalStorage u) (first :: later))) = 1%nat /\
    (forall attempts,
        (successes (snd (assignAll (new_LocalStorage u) attempts)) <= 1)%nat).
Proof.
  intros Hok.
  assert (Hfirst : exists ls1, set_user (new_LocalStorage u) first = inr ls1).
  { unfold set_user; simpl. destruct first as [| |o]; simpl in *; eauto.
    rewrite Hok; eauto. }
  destruct Hfirst as [ls1 H1]. exists ls1.
  pose proof (set_user_marks_set _ _ _ H1) as (_ & Hset & Hval & _).
  assert (Hrun : assignAll (new_LocalStorage u) (first :: later) =
                 (ls1, None :: map (fun _ => Some (Error "Local context user already set")) later)).
  { simpl. rewrite H1, (assignAll_after_set later ls1 Hset). reflexivity. }
  repeat split.
  - exact H1.
  - exact Hval.
  - intros again. now apply set_user_once_set.
  - exact Hrun.
  - rewrite Hrun. simpl. rewrite successes_passed.
    now rewrite successes_all_failed.
  - intros attempts. apply assignAll_at_most_once.
Qed.

Lemma user_cell_set_once_witness :
  exists ls1,
    set_user (new_LocalStorage (mkUrls "http://h" "ws://h"))
             (UserObj (mkUser (Some "u1") [])) = inr ls1 /\
    get_user (new_LocalStorage (mkUrls "http://h" "ws://h")) = None /\
    get_user ls1 = orNull (UserObj (mkUser (Some "u1") [])) /\
    (forall again, set_user ls1 again =
                   inl (Error "Local context user already set")) /\
    assignAll (new_LocalStorage (mkUrls "http://h" "ws://h"))
              (UserObj (mkUser (Some "u1") []) :: [UserNull; UserObj (mkUser (Some "u2") [])]) =
      (ls1, None :: map (fun _ => Some (Error "Local context user already set"))
                        [UserNull; UserObj (mkUser (Some "u2") [])]) /\
    successes (snd (assignAll (new_LocalStorage (mkUrls "http://h" "ws://h"))
              (UserObj (mkUser (Some "u1") []) :: [UserNull; UserObj (mkUser (Some "u2") [])]))) = 1%nat /\
    (forall attempts,
        (successes (snd (assignAll (new_LocalStorage (mkUrls "http://h" "ws://h"))
                           attempts)) <= 1)%nat).
Proof.
  apply (user_cell_set_once (mkUrls "http://h" "ws://h")
           (UserObj (mkUser (Some "u1") []))
           [UserNull; UserObj (mkUser (Some "u2") [])]).
  reflexivity.
Defined.

(** C9. Outside any context [getLocalStorage] throws "Runtime not
    available"; [withLocalStorage] refuses to open a context while one is
    live ("Can't nest runtimes") without running its function; and [exit]
    runs its callback with the context cleared, so that inside the callback
    the ambient access fails closed and a new context may be opened, while
    the code after [exit] sees the original context again. *)
Theorem ambient_context_discipline :
  (forall h, getLocalStorage None h =
             (Thrown (Error "Runtime not available"), h)) /\
  (forall l h, withLocalStorage l getLocalStorage None h = (Returned l, h)) /\
  (forall (A : Type) live l (fn : Ctx A) h,
      withLocalStorage l fn (Some live) h =
      (Thrown (Error "Can't nest runtimes"), h)) /\
  (forall (A : Type) live (callback : Ctx A) h,
      exit callback (Some live) h =
      (match fst (callback None h) with
       | Returned _ => Returned tt
       | Thrown e => Thrown e
       end, snd (callback None h))) /\
  (forall live h,
      exit getLocalStorage (Some live) h =
      (Thrown (Error "Runtime not available"), h)) /\
  (forall live l h,
      exit (withLocalStorage l getLocalStorage) (Some live) h =
      (Returned tt, h)) /\
  (forall live l h,
      (exit (withLocalStorage l getLocalStorage) ;;; getLocalStorage)
        (Some live) h = (Returned live, h)).
Proof.
  repeat split; intros; try reflexivity.
  unfold exit, bind, asyncLocal_exit.
  destruct (callback None h) as [[a|e] h']; reflexivity.
Qed.

End SharedLocalStorageProps.

(** * Queue dispatcher *)

Module SqsDispatchProps.
Import Async SqsDispatch.
Local Open Scope task_scope.

Lemma handled_app (a b : list Event) : handled (a ++ b) = handled a ++ handled b.
Proof. unfold handled. now rewrite flat_map_app. Qed.

(** Symbolic execution of a task: split on the scrutinee of the next
    [match] of a hypothesis and reduce, until every hypothesis is an equation
    between results. *)
Ltac run_step :=
  match goal with
  | H : (_, _) = (_, _) |- _ => inversion H; subst; clear H
  | H : inl _ = inr _ |- _ => discriminate H
  | H : inr _ = inl _ |- _ => discriminate H
  | H : context [match ?x with _ => _ end] |- _ =>
      destruct x eqn:?; cbv beta iota in *; try discriminate
  end.

Ltac run_cases H :=
  unfold handleOneMessage, raceHandler, liftError, await, bind, tryCatch,
    finally, effect, ret, throw, never, newAbortController in H;
  cbv beta iota in H;
  repeat run_step.

Ltac region_cases :=
  repeat match goal with
    | H : (_ =? _)%string = true |- _ => apply String.eqb_eq in H
    | H : (_ =? _)%string = false |- _ => apply String.eqb_neq in H
    end.

(** An event that was appended to a trace is in it. *)
Ltac find_event :=
  repeat first [ apply in_or_app; right; left; reflexivity
               | apply in_or_app; left ].

Ltac tidy_trace :=
  simpl; repeat rewrite handled_app; simpl; repeat rewrite app_nil_r.

Section WithPlatform.
Context {platform : Platform} {runtime : Runtime}.

(** A message that was handled successfully was announced once and, unless
    the client is in local mode, deleted under its queue URL. *)
Lemma handleOneMessage_true (m : SQSMessage) (sqs : SQS) (t : Z) (w w' : World) :
  handleOneMessage m sqs t w = (Ret true, w') ->
  handled (trace w') = handled (trace w) ++ [messageId m] /\
  reads w' = reads w /\
  (region sqs = "localhost" -> deleted w' = deleted w) /\
  (region sqs <> "localhost" ->
   deleted w' = deleted w ++ deleteRequest m /\
   exists url, getQueueURL m = inr url).
Proof.
  intros H. run_cases H; tidy_trace; region_cases.
  all: repeat split; auto; try congruence.
  all: unfold deleteRequest;
    try match goal with E : getQueueURL _ = _ |- _ => rewrite E end; eauto.
Qed.

(** A message that failed was announced at most once and not deleted. *)
Lemma handleOneMessage_false (m : SQSMessage) (sqs : SQS) (t : Z) (w w' : World) :
  handleOneMessage m sqs t w = (Ret false, w') ->
  (handled (trace w') = handled (trace w) \/
   handled (trace w') = handled (trace w) ++ [messageId m]) /\
  reads w' = reads w /\
  deleted w' = deleted w.
Proof.
  intros H. run_cases H; tidy_trace; auto.
Qed.

Lemma turn_unfold (m : SQSMessage) (sqs : SQS) (w : World) :
  turn m sqs w =
  handleOneMessage m sqs (getRemainingTimeInMillis (reads w))
    {| deleted := deleted w; trace := trace w; reads := S (reads w);
       controllers := controllers w |}.
Proof. reflexivity. Qed.

Lemma fifo_step (m : SQSMessage) (rest : list SQSMessage) (sqs : SQS) (w : World) :
  handleFifoMessages (m :: rest) sqs w =
  match turn m sqs w with
  | (Ret true, w') => handleFifoMessages rest sqs w'
  | (Ret false, w') => (Ret (map messageId (m :: rest)), w')
  | (Throw e, w') => (Throw e, w')
  | (Never, w') => (Never, w')
  end.
Proof.
  rewrite turn_unfold. cbn [handleFifoMessages].
  unfold bind at 1. unfold remainingTime at 1. cbv beta iota.
  unfold bind at 1.
  destruct (handleOneMessage m sqs _ _) as [[[|]|e|] w1]; reflexivity.
Qed.

(** A prefix of the batch that succeeds in turn is consumed by the loop,
    announced in order, and deleted in order unless in local mode. *)
Lemma succeedInTurn_spec (done : list SQSMessage) (sqs : SQS) :
  forall (w wk : World) (rest : list SQSMessage),
    succeedInTurn done sqs w = Some wk ->
    handleFifoMessages (done ++ rest) sqs w = handleFifoMessages rest sqs wk /\
    handled (trace wk) = handled (trace w) ++ map messageId done /\
    reads wk = (reads w + List.length done)%nat /\
    (region sqs = "localhost" -> deleted wk = deleted w) /\
    (region sqs <> "localhost" ->
     deleted wk = deleted w ++ flat_map deleteRequest done /\
     forall m, In m done -> exists url, getQueueURL m = inr url).
Proof.
  induction done as [|m done IH]; intros w wk rest Hrun.
  - simpl in Hrun. injection Hrun as <-. simpl.
    rewrite !app_nil_r, Nat.add_0_r. repeat split; auto. intros m [].
  - cbn [succeedInTurn] in Hrun.
    destruct (turn m sqs w) as [[[|]|e|] w1] eqn:Hturn; try discriminate.
    destruct (IH _ _ rest Hrun) as (Hloop & Hhandled & Hreads & Hlocal & Hremote).
    rewrite <- app_comm_cons, fifo_step, Hturn.
    rewrite turn_unfold in Hturn.
    apply handleOneMessage_true in Hturn.
    destruct Hturn as (Hh1 & Hr1 & Hl1 & Hd1). simpl in Hh1, Hr1, Hl1, Hd1.
    split; [exact Hloop|].
    split; [rewrite Hhandled, Hh1; simpl; now rewrite <- app_assoc|].
    split; [simpl; lia|].
    split.
    + intros L. rewrite (Hlocal L). auto.
    + intros R. destruct (Hremote R) as [Hd Hall].
      destruct (Hd1 R) as [Hd' [url Hurl]].
      split.
      * rewrite Hd, Hd'. simpl. now rewrite app_assoc.
      * intros m' [<-|Hin]; eauto.
Qed.

(** C1 (as amended). The FIFO loop takes the messages one at a time in
    arrival order.  If the messages before index [k] are handled
    successfully in turn and the message at index [k] then fails, the
    reported failures are exactly the ids of the messages from index [k] on,
    in order; no later message is touched; and the messages before [k] have
    been deleted from the queue, in order, when the SQS client is not in
    local mode (region other than "localhost"), while in local mode no
    deletion is issued. *)
Theorem fifo_first_failure (messages : list SQSMessage) (k : nat)
    (mk : SQSMessage) (sqs : SQS) (w wk w' : World) :
  nth_error messages k = Some mk ->
  succeedInTurn (firstn k messages) sqs w = Some wk ->
  turn mk sqs wk = (Ret false, w') ->
  handleFifoMessages messages sqs w =
    (Ret (map messageId (skipn k messages)), w') /\
  (exists last, (last = [] \/ last = [messageId mk]) /\
     handled (trace w') =
       handled (trace w) ++ map messageId (firstn k messages) ++ last) /\
  reads w' = (reads w + S k)%nat /\
  (region sqs <> "localhost" ->
   deleted w' = deleted w ++ flat_map deleteRequest (firstn k messages) /\
   forall m, In m (firstn k messages) ->
     exists url, getQueueURL m = inr url /\
                 In (url, receiptHandle m) (deleted w')) /\
  (region sqs = "localhost" -> deleted w' = deleted w).
Proof.
  intros Hk Hdone Hfail.
  destruct (nth_error_split _ _ Hk) as (before & after & Hsplit & Hlen).
  assert (Hfirst : firstn k messages = before).
  { subst messages k. rewrite firstn_app, Nat.sub_diag, firstn_all. simpl.
    now rewrite app_nil_r. }
  assert (Hskip : skipn k messages = mk :: after).
  { subst messages k. rewrite skipn_app, Nat.sub_diag, skipn_all. reflexivity. }
  rewrite Hfirst in *. rewrite Hskip.
  destruct (succeedInTurn_spec before sqs w wk (mk :: after) Hdone)
    as (Hloop & Hhandled & Hreads & Hlocal & Hremote).
  rewrite Hsplit, Hloop, fifo_step, Hfail.
  rewrite turn_unfold in Hfail. apply handleOneMessage_false in Hfail.
  destruct Hfail as (Hlast & Hr & Hd). simpl in Hlast, Hr, Hd.
  split; [reflexivity|].
  split.
  { destruct Hlast as [E|E]; [exists []|exists [messageId mk]];
      (split; [auto|]); rewrite E, Hhandled; now rewrite ?app_nil_r, ?app_assoc. }
  split; [lia|].
  split.
  - intros R. destruct (Hremote R) as [Hdel Hurls].
    split; [congruence|].
    intros m Hin. destruct (Hurls m Hin) as [url Hurl].
    exists url. split; [exact Hurl|].
    rewrite Hd, Hdel. apply in_or_app. right.
    apply in_flat_map. exists m. split; [exact Hin|].
    unfold deleteRequest. rewrite Hurl. now left.
  - intros L. rewrite Hd. auto.
Qed.

(** The timeout of a queue in the dispatcher: 10 seconds when none is
    configured, a configured number of seconds clamped to the range 1 to
    30, and [NaN] when [NaN] is configured. *)
Lemma getTimeout_range (c : option QueueConfig) :
  getTimeout c = Js.NaN \/
  exists t, getTimeout c = Js.Int t /\ (minTimeout <= t <= maxTimeout)%Z.
Proof.
  unfold getTimeout, minTimeout, maxTimeout, defaultTimeout.
  destruct c as [[[[|t]|]]|]; cbn [timeout Js.Math_min Js.Math_max]; auto.
  all: right; eexists; split; [reflexivity|lia].
Qed.

Lemma getTimeout_configured (t : Z) :
  getTimeout (Some {| timeout := Some (Js.Int t) |}) =
  Js.Int (if t <? 1 then 1 else if 30 <? t then 30 else t)%Z.
Proof.
  unfold getTimeout, minTimeout, maxTimeout. simpl. f_equal.
  destruct (Z.ltb_spec t 1); destruct (Z.ltb_spec 30 t); lia.
Qed.

(** The remaining time, which counts milliseconds, is compared with the
    timeout, which counts seconds: with 30 milliseconds or more left it
    changes nothing, and the timer is armed with the timeout of the queue. *)
Lemma remaining_time_is_no_cap (c : option QueueConfig) (remaining : Z) :
  (maxTimeout <= remaining)%Z ->
  Js.Math_min (getTimeout c) (Js.Int remaining) = getTimeout c.
Proof.
  intros Hleft. destruct (getTimeout_range c) as [->|(t & -> & Ht)].
  - reflexivity.
  - cbn [Js.Math_min]. f_equal. lia.
Qed.

(** C3 (as amended). The batch dispatcher classifies a batch by the queue
    name of its first message alone: the batch is handled by the FIFO loop
    when that name ends with ".fifo" and by the standard, parallel path when
    it does not, whatever [MessageGroupId] attributes the messages carry.
    The older per-record dispatcher classifies each record by its
    [MessageGroupId] alone: a record is FIFO exactly when the attribute is a
    non-empty string, whatever the queue name, and all other records take
    the unordered path. *)
Theorem fifo_classification (first : SQSMessage) (rest : list SQSMessage)
    (sqs : SQS) (name : string) (w : World) :
  getQueueName first = inr name ->
  (Js.endsWith name ".fifo" = true ->
   handleSQSMessages (first :: rest) sqs w =
   handleFifoMessages (first :: rest) sqs w) /\
  (Js.endsWith name ".fifo" = false ->
   handleSQSMessages (first :: rest) sqs w =
   handleStandardMessages (first :: rest) sqs w) /\
  (forall m : SQSMessage,
      LegacySqs.isFifo m = true <->
      exists g, MessageGroupId (attributes m) = Some g /\ g <> "") /\
  (forall (messages : list SQSMessage) (m : SQSMessage),
      In m (LegacySqs.unordered messages) <->
      In m messages /\ LegacySqs.isFifo m = false).
Proof.
  intros Hname.
  assert (Hdispatch :
    handleSQSMessages (first :: rest) sqs w =
    (if Js.endsWith name ".fifo"
     then handleFifoMessages (first :: rest) sqs w
     else handleStandardMessages (first :: rest) sqs w)).
  { unfold handleSQSMessages, isFifoQueue. rewrite Hname.
    cbn [liftError]. unfold bind at 1. unfold ret at 1.
    destruct (Js.endsWith name ".fifo"); reflexivity. }
  split; [intros E; now rewrite Hdispatch, E|].
  split; [intros E; now rewrite Hdispatch, E|].
  split.
  - intros m. unfold LegacySqs.isFifo.
    destruct (MessageGroupId (attributes m)) as [g|].
    + destruct g as [|c g]; simpl; split.
      * discriminate.
      * intros (g' & [= <-] & Hne). now contradiction Hne.
      * intros _. eexists. split; [reflexivity|discriminate].
      * reflexivity.
    + split; [discriminate|]. intros (g & Habs & _). discriminate.
  - intros messages m. unfold LegacySqs.unordered.
    rewrite filter_In, negb_true_iff. reflexivity.
Qed.

End WithPlatform.

Lemma fifo_first_failure_witness :
  (nth_error SqsSamples.batch 1 = Some SqsSamples.B /\
   succeedInTurn (platform := SqsSamples.textPlatform)
     (runtime := SqsSamples.runtime "B")
     (firstn 1 SqsSamples.batch) SqsSamples.remote emptyWorld =
     Some (SqsSamples.afterA SqsSamples.remote) /\
   turn (platform := SqsSamples.textPlatform)
     (runtime := SqsSamples.runtime "B")
     SqsSamples.B SqsSamples.remote (SqsSamples.afterA SqsSamples.remote) =
     (Ret false, SqsSamples.afterB SqsSamples.remote)) /\
  handleFifoMessages (platform := SqsSamples.textPlatform)
    (runtime := SqsSamples.runtime "B")
    SqsSamples.batch SqsSamples.remote emptyWorld =
    (Ret ["B"; "C"], SqsSamples.afterB SqsSamples.remote) /\
  deleted (SqsSamples.afterB SqsSamples.remote) =
    [("https://sqs.us-east-2.amazonaws.com/123456789012/project-branch__jobs.fifo",
      "receipt-A")].
Proof.
  assert (H1 : nth_error SqsSamples.batch 1 = Some SqsSamples.B)
    by reflexivity.
  assert (H2 : succeedInTurn (platform := SqsSamples.textPlatform)
                 (runtime := SqsSamples.runtime "B")
                 (firstn 1 SqsSamples.batch) SqsSamples.remote emptyWorld =
               Some (SqsSamples.afterA SqsSamples.remote))
    by (vm_compute; reflexivity).
  assert (H3 : turn (platform := SqsSamples.textPlatform)
                 (runtime := SqsSamples.runtime "B")
                 SqsSamples.B SqsSamples.remote
                 (SqsSamples.afterA SqsSamples.remote) =
               (Ret false, SqsSamples.afterB SqsSamples.remote))
    by (vm_compute; reflexivity).
  split; [auto|].
  destruct (fifo_first_failure (platform := SqsSamples.textPlatform)
              (runtime := SqsSamples.runtime "B")
              SqsSamples.batch 1 SqsSamples.B SqsSamples.remote emptyWorld
              (SqsSamples.afterA SqsSamples.remote)
              (SqsSamples.afterB SqsSamples.remote) H1 H2 H3)
    as (Hfail & _ & _ & Hdel & _).
  split; [exact Hfail|].
  destruct Hdel as [Hdel _]; [discriminate|].
  rewrite Hdel. reflexivity.
Defined.

(** C1 fails as stated in local mode: with the region "localhost" the
    message A at index 0 is handled successfully, B at index 1 is the first
    to fail and the failures B, C are reported, yet nothing has been deleted
    from the queue. *)
Lemma fifo_local_mode_deletes_nothing :
  fst (turn (platform := SqsSamples.textPlatform)
         (runtime := SqsSamples.runtime "B")
         SqsSamples.A SqsSamples.localhost emptyWorld) = Ret true /\
  fst (turn (platform := SqsSamples.textPlatform)
         (runtime := SqsSamples.runtime "B")
         SqsSamples.B SqsSamples.localhost
         (SqsSamples.afterA SqsSamples.localhost)) = Ret false /\
  fst (handleFifoMessages (platform := SqsSamples.textPlatform)
         (runtime := SqsSamples.runtime "B")
         SqsSamples.batch SqsSamples.localhost emptyWorld) = Ret ["B"; "C"] /\
  handled (trace (snd (handleFifoMessages (platform := SqsSamples.textPlatform)
         (runtime := SqsSamples.runtime "B")
         SqsSamples.batch SqsSamples.localhost emptyWorld))) = ["A"; "B"] /\
  deleted (snd (handleFifoMessages (platform := SqsSamples.textPlatform)
         (runtime := SqsSamples.runtime "B")
         SqsSamples.batch SqsSamples.localhost emptyWorld)) = [].
Proof. repeat split; vm_compute; reflexivity. Qed.

(** C2. Where the dispatcher departs from the documented queue timeout.
    A queue configured with 30 seconds, of which a message is handled with
    20000 milliseconds left: the smaller of 30 and 20000 is 30, the timer is
    armed with 30000 milliseconds, and a handler that returns after 25
    seconds is reported as successful although only 20 seconds were left.
    A queue configured with 500 seconds is given 30, so that with a minute
    left a handler that returns after 40 seconds is reported as timed out
    after 30; a queue that configures nothing is given 10 seconds; and a
    timeout of [NaN] is not clamped. *)
Lemma dispatcher_deadline_diverges :
  Js.Math_min (getTimeout (config SqsSamples.steady)) (Js.Int 20000) = Js.Int 30 /\
  abortDelay (Js.Math_min (getTimeout (config SqsSamples.steady)) (Js.Int 20000)) =
    30000%Z /\
  fst (handleOneMessage (platform := SqsSamples.textPlatform)
         (runtime := SqsSamples.steadyRuntime) (SqsSamples.sample "A" "jobs" None)
         SqsSamples.localhost 20000 emptyWorld) = Ret true /\
  getTimeout None = Js.Int 10 /\
  getTimeout (Some {| timeout := None |}) = Js.Int 10 /\
  getTimeout (config SqsSamples.slow) = Js.Int 30 /\
  fst (handleOneMessage (platform := SqsSamples.textPlatform)
         (runtime := SqsSamples.slowRuntime) (SqsSamples.sample "A" "jobs" None)
         SqsSamples.localhost 60000 emptyWorld) = Ret false /\
  In (Error_queue "jobs" "A" (timeoutError (Js.Int 30)))
     (trace (snd (handleOneMessage (platform := SqsSamples.textPlatform)
                    (runtime := SqsSamples.slowRuntime) (SqsSamples.sample "A" "jobs" None)
                    SqsSamples.localhost 60000 emptyWorld))) /\
  getTimeout (Some {| timeout := Some Js.NaN |}) = Js.NaN /\
  abortDelay Js.NaN = 1%Z.
Proof.
  repeat split; try reflexivity.
  vm_compute. auto.
Qed.

Lemma fifo_classification_witness :
  getQueueName SqsSamples.A = inr "jobs.fifo" /\
  handleSQSMessages (platform := SqsSamples.textPlatform)
    (runtime := SqsSamples.runtime "B")
    (SqsSamples.A :: [SqsSamples.B; SqsSamples.C]) SqsSamples.remote emptyWorld =
  handleFifoMessages (platform := SqsSamples.textPlatform)
    (runtime := SqsSamples.runtime "B")
    (SqsSamples.A :: [SqsSamples.B; SqsSamples.C]) SqsSamples.remote emptyWorld.
Proof.
  assert (H1 : getQueueName SqsSamples.A = inr "jobs.fifo") by reflexivity.
  split; [exact H1|].
  destruct (fifo_classification (platform := SqsSamples.textPlatform)
              (runtime := SqsSamples.runtime "B")
              SqsSamples.A [SqsSamples.B; SqsSamples.C] SqsSamples.remote
              "jobs.fifo" emptyWorld H1) as (Hfifo & _).
  apply Hfifo. reflexivity.
Defined.

(** C3 fails as stated: neither condition suffices for both dispatchers.
    Two messages that carry a [MessageGroupId] but come from the queue
    "jobs" are dispatched by the batch dispatcher as a standard batch: the
    first fails, the second is still handled and only the first is
    reported, where the FIFO loop would stop and report both.  And the
    per-record dispatcher treats a message of the queue "jobs.fifo" that
    has no [MessageGroupId] as unordered. *)
Lemma group_id_alone_is_not_fifo :
  map (fun m => MessageGroupId (attributes m)) SqsSamples.grouped =
    [Some "g"; Some "g"] /\
  fst (handleSQSMessages (platform := SqsSamples.textPlatform)
         (runtime := SqsSamples.runtime "A")
         SqsSamples.grouped SqsSamples.remote emptyWorld) = Ret ["A"] /\
  handled (trace (snd (handleSQSMessages (platform := SqsSamples.textPlatform)
         (runtime := SqsSamples.runtime "A")
         SqsSamples.grouped SqsSamples.remote emptyWorld))) = ["A"; "B"] /\
  fst (handleFifoMessages (platform := SqsSamples.textPlatform)
         (runtime := SqsSamples.runtime "A")
         SqsSamples.grouped SqsSamples.remote emptyWorld) = Ret ["A"; "B"] /\
  handled (trace (snd (handleFifoMessages (platform := SqsSamples.textPlatform)
         (runtime := SqsSamples.runtime "A")
         SqsSamples.grouped SqsSamples.remote emptyWorld))) = ["A"] /\
  isFifoQueue SqsSamples.ungrouped = inr true /\
  LegacySqs.isFifo SqsSamples.ungrouped = false /\
  LegacySqs.unordered [SqsSamples.ungrouped] = [SqsSamples.ungrouped].
Proof. repeat split; vm_compute; reflexivity. Qed.

End SqsDispatchProps.

(** * HTTP request engine *)

Module HttpProps.
Import Async Http.
Local Open Scope task_scope.

(** ** Headers *)

Lemma getProperty_setProperty_same (n v : string) (l : list (string * string)) :
  Js.getProperty n (Js.setProperty n v l) = Some v.
Proof.
  induction l as [|[n' v'] l IH]; simpl.
  - now rewrite String.eqb_refl.
  - destruct (String.eqb n' n) eqn:E; simpl; rewrite E; auto.
Qed.

Lemma getProperty_setProperty_other (n m v : string) (l : list (string * string)) :
  n <> m ->
  Js.getProperty n (Js.setProperty m v l) = Js.getProperty n l.
Proof.
  intros Hne. induction l as [|[n' v'] l IH]; simpl.
  - destruct (String.eqb m n) eqn:E; auto.
    apply String.eqb_eq in E. congruence.
  - destruct (String.eqb n' m) eqn:E; simpl.
    + apply String.eqb_eq in E. subst n'.
      destruct (String.eqb m n) eqn:E'; auto.
      apply String.eqb_eq in E'. congruence.
    + destruct (String.eqb n' n); auto.
Qed.

Lemma headers_get_set_same (name value : string) (h : Headers) :
  headers_get name (headers_set name value h) = Some value.
Proof. apply getProperty_setProperty_same. Qed.

Lemma headers_get_set_other (name other value : string) (h : Headers) :
  Js.toLowerCase name <> Js.toLowerCase other ->
  headers_get name (headers_set other value h) = headers_get name h.
Proof. intros H. now apply getProperty_setProperty_other. Qed.


Section WithPlatform.
Context {platform : Platform}.






(** ** The pipeline *)

Lemma handlerCalls_app (a b : list Event) :
  handlerCalls (a ++ b) = handlerCalls a ++ handlerCalls b.
Proof. unfold handlerCalls. now rewrite flat_map_app. Qed.

Lemma assignments_app (a b : list Event) :
  assignments (a ++ b) = assignments a ++ assignments b.
Proof. unfold assignments. now rewrite flat_map_app. Qed.

Lemma quiet_refl (s : State) : quiet s s.
Proof. unfold quiet. auto. Qed.

Lemma quiet_trans (a b c : State) : quiet a b -> quiet b c -> quiet a c.
Proof. unfold quiet. intros (?&?&?&?) (?&?&?&?). repeat split; congruence. Qed.

(** The scrutinee that a term waits for: that of its head [match], or of
    the [match] in that scrutinee, and so on. *)
Ltac find_scrutinee t :=
  match t with
  | match ?x with _ => _ end => find_scrutinee x
  | match ?x with _ => _ end => x
  | ?f _ => find_scrutinee f
  end.

(** One step of symbolic execution, in program order: use what is known
    about the scrutinee the run waits for, or split on it. *)
Ltac run_step :=
  match goal with
  | H : (_, _) = (_, _) |- _ => inversion H; subst; clear H
  | H : ?run = (_, _) |- _ =>
      let x := find_scrutinee run in
      first [ match goal with E : x = _ |- _ => rewrite E in H end
            | let E := fresh "E" in
              destruct x eqn:E; try (cbn in E; congruence) ];
      cbv beta iota in H
  end.

(** An event that was appended to a trace is in it. *)
Ltac find_event :=
  repeat first [ apply in_or_app; right; left; reflexivity
               | apply in_or_app; left ].

Ltac run_with defs H :=
  defs H;
  unfold callHandler, callOnError, callOnResponse, whenPresent, assignUser,
    await, log, lift, bind, tryCatch, effect, ret, throw in H;
  cbv beta iota zeta in H;
  repeat run_step.

Ltac read_trace :=
  unfold quiet; simpl;
  rewrite ?handlerCalls_app, ?assignments_app; simpl;
  rewrite ?app_nil_r.

Lemma resultToResponse_quiet (cache : option Z) (corsHeaders : option Headers)
    (etag : EtagValue) (filename : string) (result : HandlerResult)
    (s s' : State) (out : Outcome HttpThrown Response) :
  resultToResponse cache corsHeaders etag filename result s = (out, s') ->
  quiet s s' /\ clock s' = clock s /\ exists response, out = Ret response.
Proof.
  intros H. run_with ltac:(fun H => unfold resultToResponse in H) H.
  all: read_trace; eauto 10.
Qed.

Lemma handleOnResponse_quiet (filename : string) (middleware : RouteMiddleware)
    (request : Request) (response : Response)
    (s s' : State) (out : Outcome HttpThrown Response) :
  handleOnResponse filename middleware request response s = (out, s') ->
  quiet s s' /\ (forall e, out <> Throw e).
Proof.
  intros H. run_with ltac:(fun H => unfold handleOnResponse in H) H.
  all: read_trace; split; auto; discriminate.
Qed.

Lemma handleOnError_quiet (error : HttpThrown) (filename : string)
    (middleware : RouteMiddleware) (request : Request)
    (s s' : State) (out : Outcome HttpThrown Response) :
  handleOnError error filename middleware request s = (out, s') ->
  quiet s s' /\ (forall e, out <> Throw e).
Proof.
  intros H. run_with ltac:(fun H => unfold handleOnError in H) H.
  all: read_trace; split; auto; discriminate.
Qed.

Ltac use_quiet :=
  repeat match goal with
    | H : handleOnError _ _ _ _ _ = _ |- _ =>
        apply handleOnError_quiet in H; destruct H as [(? & ? & ? & ?) ?]
    | H : handleOnResponse _ _ _ _ _ = _ |- _ =>
        apply handleOnResponse_quiet in H; destruct H as [(? & ? & ? & ?) ?]
    | H : resultToResponse _ _ _ _ _ _ = _ |- _ =>
        apply resultToResponse_quiet in H;
        destruct H as ((? & ? & ? & ?) & ? & ? & ?)
    end.

Ltac chase :=
  repeat match goal with
    | H : handlerCalls (trace ?a) = _ |- context [handlerCalls (trace ?a)] =>
        rewrite H
    | H : assignments (trace ?a) = _ |- context [assignments (trace ?a)] =>
        rewrite H
    | H : controllers ?a = _ |- context [controllers ?a] => rewrite H
    | H : store ?a = _ |- context [store ?a] => rewrite H
    end;
  simpl; rewrite ?handlerCalls_app, ?assignments_app; simpl;
  rewrite ?app_nil_r.

(** What the pipeline of one request does to the world: it never throws,
    it calls the handler at most once, for this request and with the signal
    it was given, and it assigns the user cell at most once, right before
    that call, to the value that [authenticate] returned if that has an id,
    or to [undefined] when there is no [authenticate]. *)
Lemma runWithMiddleware_spec (config : RouteConfig)
    (corsHeaders : option Headers) (filename : string)
    (handler : Exported) (middleware : RouteMiddleware)
    (cookies params : list (string * string)) (sig : nat)
    (request : Request) (s s' : State) (out : Outcome HttpThrown Response) :
  runWithMiddleware config corsHeaders filename handler middleware cookies
    params sig request s = (out, s') ->
  controllers s' = controllers s /\
  (forall e, out <> Throw e) /\
  (handlerCalls (trace s') = handlerCalls (trace s) \/
   exists user,
     handlerCalls (trace s') =
       handlerCalls (trace s) ++ [(request, mkMetadata cookies params sig user)] /\
     assignments (trace s') = assignments (trace s) ++ [user]) /\
  (assignments (trace s') = assignments (trace s) \/
   exists user,
     assignments (trace s') = assignments (trace s) ++ [user] /\
     match authenticate middleware with
     | None => user = SharedLocalStorage.UserUndefined
     | Some auth =>
         exists ms, auth request cookies = Returns ms user /\
                    lacksId user = false
     end).
Proof.
  intros H. run_with ltac:(fun H => unfold runWithMiddleware in H) H.
  all: use_quiet.
  all: split; [chase; reflexivity|].
  all: split; [solve [auto | discriminate]|].
  all: split.
  all: try solve [left; chase; reflexivity].
  all: try solve [right; eexists; split; [chase; reflexivity|];
                  first [chase; reflexivity | reflexivity | eauto]].
Qed.

Lemma setAborted_fresh (l : list (option Z)) (t : Z) :
  nth_error (setAborted (l ++ [None]) (List.length l) t) (List.length l) =
  Some (Some t).
Proof.
  induction l as [|x l IH]; simpl.
  - reflexivity.
  - destruct x; exact IH.
Qed.

(** A timeout between 1 and 2147483 seconds arms the timer with that many
    seconds. *)
Lemma abortDelay_in_range (seconds : Z) :
  (1 <= seconds <= 2147483)%Z ->
  abortDelay (Js.Int seconds) = (seconds * 1000)%Z.
Proof.
  unfold abortDelay, Js.timerDelay, Js.TIMEOUT_MAX. intros H. cbn [Js.times].
  destruct (Z.leb_spec 1 (seconds * 1000));
    destruct (Z.leb_spec (seconds * 1000) 2147483647); cbn [andb]; lia.
Qed.

(** The race of [handleRoute], once the cookies are read: the pipeline
    against the timer. *)
Lemma handleRoute_race (config : RouteConfig)
    (corsHeaders : option Headers) (filename : string)
    (handler : Exported) (middleware : RouteMiddleware)
    (newLocalStorage : LocalStorage) (params : list (string * string))
    (request : Request) (timeout : Js.Number) (s : State)
    (cookies : list (string * string)) :
  getCookies request = inr cookies ->
  let controller := List.length (controllers s) in
  let deadline := (clock s + abortDelay timeout)%Z in
  let pipeline :=
    runWithMiddleware config corsHeaders filename handler middleware cookies
      params controller request
      {| clock := clock s; trace := trace s; store := Some newLocalStorage;
         controllers := controllers s ++ [None] |} in
  let result :=
    handleRoute config corsHeaders filename handler middleware newLocalStorage
      params request timeout s in
  ((fst pipeline = Never \/ (deadline <= clock (snd pipeline))%Z) ->
   fst result = Ret timedOut /\
   clock (snd result) = deadline /\
   nth_error (controllers (snd result)) controller = Some (Some deadline)) /\
  (forall response : Response,
      fst pipeline = Ret response ->
      (clock (snd pipeline) < deadline)%Z ->
      fst result = Ret response /\
      clock (snd result) = clock (snd pipeline) /\
      nth_error (controllers (snd result)) controller =
        Some (Some (clock (snd pipeline)))) /\
  trace (snd result) = trace (snd pipeline) /\
  (exists response, fst result = Ret response).
Proof.
  intros Hcookies controller deadline pipeline result.
  subst result. unfold handleRoute. rewrite Hcookies. cbv zeta.
  fold controller. fold deadline.
  change (runWithMiddleware config corsHeaders filename handler middleware
            cookies params controller request _) with pipeline.
  destruct pipeline as [out s1] eqn:Hrun. cbn [fst snd].
  apply runWithMiddleware_spec in Hrun.
  destruct Hrun as (Hcontrollers & Hnothrow & _).
  cbn [controllers trace] in Hcontrollers.
  assert (Hfired : forall t,
             nth_error (setAborted (controllers s1) controller t) controller =
             Some (Some t)).
  { intros t. rewrite Hcontrollers. apply setAborted_fresh. }
  destruct out as [response|e|]; [|now contradiction (Hnothrow e)|].
  - destruct (clock s1 <? deadline)%Z eqn:E; cbn [fst snd clock trace controllers].
    + apply Z.ltb_lt in E. split; [|split; [|split]].
      * intros [Habs|Hlate]; [discriminate|lia].
      * intros r [= <-] _. auto.
      * reflexivity.
      * eauto.
    + apply Z.ltb_ge in E. split; [|split; [|split]].
      * intros _. auto.
      * intros r _ Hearly. lia.
      * reflexivity.
      * eauto.
  - cbn [fst snd clock trace controllers]. split; [|split; [|split]].
    + intros _. auto.
    + intros r Habs. discriminate.
    + reflexivity.
    + eauto.
Qed.

Ltac rewrite_matches :=
  repeat match goal with
    | E : ?x = _ |- context [match ?x with _ => _ end] => rewrite E
    end.

(** With an [authenticate] that returns a value without an id, the pipeline
    stops at the gate. *)
Lemma runWithMiddleware_rejects (config : RouteConfig)
    (corsHeaders : option Headers) (filename : string)
    (handler : Exported) (middleware : RouteMiddleware)
    (cookies params : list (string * string)) (sig : nat)
    (request : Request) (s s' : State) (out : Outcome HttpThrown Response)
    (auth : Request -> list (string * string) -> Call UserArg)
    (ms : Z) (user : UserArg) :
  authenticate middleware = Some auth ->
  onRequestPasses middleware request ->
  auth request cookies = Returns ms user ->
  lacksId user = true ->
  runWithMiddleware config corsHeaders filename handler middleware cookies
    params sig request s = (out, s') ->
  handlerCalls (trace s') = handlerCalls (trace s) /\
  assignments (trace s') = assignments (trace s) /\
  store s' = store s /\
  In (Console_invalid_user filename) (trace s') /\
  out = match onResponse middleware with
        | None => Ret forbidden
        | Some f =>
            match f request forbidden with
            | Returns _ _ => Ret forbidden
            | Throws _ (ThrowResponse r) => Ret r
            | Throws _ (ThrowOther _) => Ret forbidden
            | Hangs => Never
            end
        end.
Proof.
  intros Hauth Hpass Hreturns Hlacks H.
  unfold onRequestPasses in Hpass.
  destruct (onRequest middleware) as [f|] eqn:HonRequest;
    [destruct Hpass as [ms0 Hpass]|].
  all: run_with ltac:(fun H => unfold runWithMiddleware, handleOnError in H) H.
  all: rewrite_matches.
  all: repeat split; try reflexivity; try (chase; reflexivity).
  all: simpl trace; find_event.
Qed.

(** Without [authenticate], an [onRequest] that returns and a store in
    place, the user cell is set to [undefined]. *)
Lemma runWithMiddleware_anonymous (config : RouteConfig)
    (corsHeaders : option Headers) (filename : string)
    (handler : Exported) (middleware : RouteMiddleware)
    (cookies params : list (string * string)) (sig : nat)
    (request : Request) (s s' : State) (out : Outcome HttpThrown Response)
    (installed : LocalStorage) :
  authenticate middleware = None ->
  onRequestPasses middleware request ->
  store s = Some installed ->
  runWithMiddleware config corsHeaders filename handler middleware cookies
    params sig request s = (out, s') ->
  assignments (trace s') =
    assignments (trace s) ++ [SharedLocalStorage.UserUndefined] /\
  (forall h, handler = Function h ->
   handlerCalls (trace s') =
     handlerCalls (trace s)
     ++ [(request, mkMetadata cookies params sig SharedLocalStorage.UserUndefined)]).
Proof.
  intros Hauth Hpass Hstore H.
  unfold onRequestPasses in Hpass.
  destruct (onRequest middleware) as [f|] eqn:HonRequest;
    [destruct Hpass as [ms0 Hpass]|].
  all: run_with ltac:(fun H => unfold runWithMiddleware in H) H.
  all: use_quiet.
  all: split; [chase; reflexivity|].
  all: intros h0 Hh; try congruence; chase; reflexivity.
Qed.

Variable findRoute : string -> HttpThrown + Found.

(** A request that passes the checks of the engine and whose cookies are
    read is answered by [handleRoute]. *)
Lemma handleHTTPRequest_route (request : Request)
    (newLocalStorage : LocalStorage) (s : State) (found : Found)
    (handler : Exported) (cookies : list (string * string)) :
  findRoute (url request) = inr found ->
  cors (found_route found) && String.eqb (method request) "OPTIONS" = false ->
  getHandler (found_module found) (method request) = inr handler ->
  checkRequest request (found_route found) = inr tt ->
  getCookies request = inr cookies ->
  handleHTTPRequest findRoute request newLocalStorage s =
  handleRoute (configOrEmpty (found_module found))
    (getCorsHeaders (found_route found)) (filename (found_route found))
    handler (found_middleware found) newLocalStorage (found_params found)
    request (timeout (found_route found)) s.
Proof.
  intros Hfound Hpre Hhandler Hcheck Hcookies.
  unfold handleHTTPRequest, tryCatch, bind, lift.
  rewrite Hfound. unfold ret at 1. cbv beta iota zeta.
  rewrite Hpre, Hhandler. unfold ret at 1. cbv beta iota.
  rewrite Hcheck. unfold ret at 1. cbv beta iota.
  pose proof (handleRoute_race (configOrEmpty (found_module found))
                (getCorsHeaders (found_route found))
                (filename (found_route found)) handler
                (found_middleware found) newLocalStorage (found_params found)
                request (timeout (found_route found)) s cookies Hcookies) as H.
  cbv zeta in H. destruct H as (_ & _ & _ & response & Hresponse).
  destruct (handleRoute _ _ _ _ _ _ _ _ _ s) as [out s1].
  cbn [fst] in Hresponse. now rewrite Hresponse.
Qed.

Ltac answered_at_once H :=
  cbn in H; injection H as <- <-; left; cbn;
  split; [first [left; reflexivity | right; eexists; reflexivity]|];
  split; [reflexivity|eexists; reflexivity].

(** A request that does not reach the pipeline is answered at once, and
    no user code has run. *)
Lemma handleHTTPRequest_cases (request : Request)
    (newLocalStorage : LocalStorage) (s : State) :
  (trace (snd (handleHTTPRequest findRoute request newLocalStorage s)) =
     trace s \/
   exists t,
     trace (snd (handleHTTPRequest findRoute request newLocalStorage s)) =
       trace s ++ [Console_internal_error (method request) (url request) t]) /\
  clock (snd (handleHTTPRequest findRoute request newLocalStorage s)) = clock s /\
  (exists response,
     fst (handleHTTPRequest findRoute request newLocalStorage s) = Ret response)
  \/
  exists found handler cookies,
    findRoute (url request) = inr found /\
    cors (found_route found) && String.eqb (method request) "OPTIONS" = false /\
    getHandler (found_module found) (method request) = inr handler /\
    checkRequest request (found_route found) = inr tt /\
    getCookies request = inr cookies.
Proof.
  destruct (handleHTTPRequest findRoute request newLocalStorage s)
    as [out s'] eqn:Hrun.
  cbn [fst snd].
  unfold handleHTTPRequest, tryCatch, bind, lift in Hrun.
  destruct (findRoute (url request)) as [[r|t]|found] eqn:Hfound.
  1, 2: answered_at_once Hrun.
  unfold ret at 1 in Hrun. cbv beta iota zeta in Hrun.
  destruct (cors (found_route found) && String.eqb (method request) "OPTIONS")
    eqn:Hpre.
  { answered_at_once Hrun. }
  destruct (getHandler (found_module found) (method request))
    as [[r|t]|handler] eqn:Hhandler.
  1, 2: answered_at_once Hrun.
  unfold ret at 1 in Hrun. cbv beta iota in Hrun.
  destruct (checkRequest request (found_route found)) as [[r|t]|[]] eqn:Hcheck.
  1, 2: answered_at_once Hrun.
  unfold ret at 1 in Hrun. cbv beta iota in Hrun.
  destruct (getCookies request) as [e|cookies] eqn:Hcookies.
  - unfold handleRoute in Hrun. rewrite Hcookies in Hrun.
    answered_at_once Hrun.
  - right. exists found, handler, cookies. auto.
Qed.

(** C5. For a request that reaches the pipeline of a route whose timeout
    is a number of seconds between 1 and 2147483, the engine arms a timer
    for that many seconds and runs the pipeline (middleware and handler)
    beside it.  If the pipeline has not produced a response when the
    deadline elapses (it never settles, or settles at the deadline or
    later), the engine answers 500 with the body "Timed Out", at the
    deadline, and the signal of this request's controller fires at the
    deadline; if the pipeline settles with a response before the deadline,
    that response is the answer, given when it is produced.  The handler,
    if called, was handed the signal of that same controller. *)
Theorem handleRoute_deadline (request : Request)
    (newLocalStorage : LocalStorage) (s : State) (found : Found)
    (handler : Exported) (cookies : list (string * string)) (seconds : Z) :
  findRoute (url request) = inr found ->
  cors (found_route found) && String.eqb (method request) "OPTIONS" = false ->
  getHandler (found_module found) (method request) = inr handler ->
  checkRequest request (found_route found) = inr tt ->
  getCookies request = inr cookies ->
  timeout (found_route found) = Js.Int seconds ->
  (1 <= seconds <= 2147483)%Z ->
  let controller := List.length (controllers s) in
  let deadline := (clock s + seconds * 1000)%Z in
  let pipeline :=
    runWithMiddleware (configOrEmpty (found_module found))
      (getCorsHeaders (found_route found)) (filename (found_route found))
      handler (found_middleware found) cookies (found_params found)
      controller request
      {| clock := clock s; trace := trace s; store := Some newLocalStorage;
         controllers := controllers s ++ [None] |} in
  let result := handleHTTPRequest findRoute request newLocalStorage s in
  ((fst pipeline = Never \/ (deadline <= clock (snd pipeline))%Z) ->
   fst result = Ret {| status := 500; headers := []; body := Some "Timed Out" |} /\
   clock (snd result) = deadline /\
   nth_error (controllers (snd result)) controller = Some (Some deadline)) /\
  (forall response : Response,
      fst pipeline = Ret response ->
      (clock (snd pipeline) < deadline)%Z ->
      fst result = Ret response /\
      clock (snd result) = clock (snd pipeline) /\
      nth_error (controllers (snd result)) controller =
        Some (Some (clock (snd pipeline)))) /\
  trace (snd result) = trace (snd pipeline) /\
  (handlerCalls (trace (snd result)) = handlerCalls (trace s) \/
   exists user,
     handlerCalls (trace (snd result)) =
       handlerCalls (trace s)
       ++ [(request, mkMetadata cookies (found_params found) controller user)]).
Proof.
  intros Hfound Hpre Hhandler Hcheck Hcookies Htimeout Hrange
    controller deadline pipeline result.
  subst result.
  rewrite (handleHTTPRequest_route _ _ _ _ _ _ Hfound Hpre Hhandler Hcheck
             Hcookies).
  pose proof (handleRoute_race (configOrEmpty (found_module found))
                (getCorsHeaders (found_route found))
                (filename (found_route found)) handler
                (found_middleware found) newLocalStorage (found_params found)
                request (timeout (found_route found)) s cookies Hcookies) as H.
  cbv zeta in H. rewrite Htimeout, (abortDelay_in_range _ Hrange) in H.
  rewrite Htimeout. fold controller deadline pipeline in H.
  destruct H as (Hlate & Hearly & Htrace & _).
  split; [exact Hlate|]. split; [exact Hearly|]. split; [exact Htrace|].
  rewrite Htrace.
  destruct pipeline as [out s1] eqn:Hrun. cbn [snd].
  apply runWithMiddleware_spec in Hrun.
  destruct Hrun as (_ & _ & Hcalls & _). cbn [trace] in Hcalls.
  destruct Hcalls as [|(u & ? & _)]; eauto.
Qed.

(** C10 (as amended). Take a request that reaches the pipeline of a route
    whose middleware has an [authenticate] that returns [null], [undefined]
    or an object without an id ([onRequest], if any, having returned).  The
    handler is not called, the user cell is not assigned and the diagnostic
    is logged.  The engine answers 500 "Timed Out" when the pipeline has
    not answered as the timer of the route fires, which it never does if
    [onResponse] never returns; otherwise it answers 403 Forbidden, which
    is shown to [onResponse], unless [onResponse] throws another response,
    which then is the answer.  For every request, the user cell is assigned
    at most once, and only to the value that [authenticate] returned with
    an id, or to [undefined] when no [authenticate] is configured; every
    call of the handler comes with such an assignment. *)
Theorem authentication_gate (request : Request)
    (newLocalStorage : LocalStorage) (s : State) :
  let result := handleHTTPRequest findRoute request newLocalStorage s in
  (forall found handler cookies auth ms user,
      findRoute (url request) = inr found ->
      cors (found_route found) && String.eqb (method request) "OPTIONS" = false ->
      getHandler (found_module found) (method request) = inr handler ->
      checkRequest request (found_route found) = inr tt ->
      getCookies request = inr cookies ->
      authenticate (found_middleware found) = Some auth ->
      onRequestPasses (found_middleware found) request ->
      auth request cookies = Returns ms user ->
      lacksId user = true ->
      let deadline := (clock s + abortDelay (timeout (found_route found)))%Z in
      let pipeline :=
        runWithMiddleware (configOrEmpty (found_module found))
          (getCorsHeaders (found_route found)) (filename (found_route found))
          handler (found_middleware found) cookies (found_params found)
          (List.length (controllers s)) request
          {| clock := clock s; trace := trace s; store := Some newLocalStorage;
             controllers := controllers s ++ [None] |} in
      handlerCalls (trace (snd result)) = handlerCalls (trace s) /\
      assignments (trace (snd result)) = assignments (trace s) /\
      In (Console_invalid_user (filename (found_route found)))
         (trace (snd result)) /\
      (fst pipeline = Never <->
       exists f, onResponse (found_middleware found) = Some f /\
                 f request forbidden = Hangs) /\
      ((fst pipeline = Never \/ (deadline <= clock (snd pipeline))%Z) ->
       fst result = Ret timedOut) /\
      (fst pipeline <> Never ->
       (clock (snd pipeline) < deadline)%Z ->
       fst result =
         Ret match onResponse (found_middleware found) with
             | Some f =>
                 match f request forbidden with
                 | Throws _ (ThrowResponse r) => r
                 | _ => forbidden
                 end
             | None => forbidden
             end)) /\
  (status forbidden = 403%Z /\ body forbidden = Some "Forbidden" /\
   status timedOut = 500%Z /\ body timedOut = Some "Timed Out") /\
  (lacksId SharedLocalStorage.UserNull = true /\
   lacksId SharedLocalStorage.UserUndefined = true /\
   forall u, lacksId (SharedLocalStorage.UserObj u) =
             negb (SharedLocalStorage.hasId u)) /\
  (assignments (trace (snd result)) = assignments (trace s) \/
   exists found cookies user,
     findRoute (url request) = inr found /\
     getCookies request = inr cookies /\
     assignments (trace (snd result)) = assignments (trace s) ++ [user] /\
     match authenticate (found_middleware found) with
     | None => user = SharedLocalStorage.UserUndefined
     | Some auth =>
         exists ms, auth request cookies = Returns ms user /\
                    lacksId user = false
     end) /\
  (handlerCalls (trace (snd result)) = handlerCalls (trace s) \/
   exists metadata,
     handlerCalls (trace (snd result)) =
       handlerCalls (trace s) ++ [(request, metadata)] /\
     assignments (trace (snd result)) =
       assignments (trace s) ++ [user metadata]) /\
  (forall found handler cookies,
      findRoute (url request) = inr found ->
      cors (found_route found) && String.eqb (method request) "OPTIONS" = false ->
      getHandler (found_module found) (method request) = inr handler ->
      checkRequest request (found_route found) = inr tt ->
      getCookies request = inr cookies ->
      authenticate (found_middleware found) = None ->
      onRequestPasses (found_middleware found) request ->
      assignments (trace (snd result)) =
        assignments (trace s) ++ [SharedLocalStorage.UserUndefined]).
Proof.
  intros result.
  assert (Hrace : forall found handler cookies,
    findRoute (url request) = inr found ->
    cors (found_route found) && String.eqb (method request) "OPTIONS" = false ->
    getHandler (found_module found) (method request) = inr handler ->
    checkRequest request (found_route found) = inr tt ->
    getCookies request = inr cookies ->
    let deadline := (clock s + abortDelay (timeout (found_route found)))%Z in
    let pipeline :=
      runWithMiddleware (configOrEmpty (found_module found))
        (getCorsHeaders (found_route found)) (filename (found_route found))
        handler (found_middleware found) cookies (found_params found)
        (List.length (controllers s)) request
        {| clock := clock s; trace := trace s; store := Some newLocalStorage;
           controllers := controllers s ++ [None] |} in
    ((fst pipeline = Never \/ (deadline <= clock (snd pipeline))%Z) ->
     fst result = Ret timedOut) /\
    (forall response, fst pipeline = Ret response ->
                      (clock (snd pipeline) < deadline)%Z ->
                      fst result = Ret response) /\
    trace (snd result) = trace (snd pipeline)).
  { intros found handler cookies Hfound Hpre Hhandler Hcheck Hcookies
      deadline pipeline.
    subst result.
    rewrite (handleHTTPRequest_route _ _ _ _ _ _ Hfound Hpre Hhandler Hcheck
               Hcookies).
    pose proof (handleRoute_race (configOrEmpty (found_module found))
                  (getCorsHeaders (found_route found))
                  (filename (found_route found)) handler
                  (found_middleware found) newLocalStorage
                  (found_params found) request (timeout (found_route found))
                  s cookies Hcookies) as H.
    cbv zeta in H. fold deadline pipeline in H.
    destruct H as (Hlate & Hearly & Htrace & _).
    split; [intros Hl; exact (proj1 (Hlate Hl))|].
    split; [intros r Hr Ht; exact (proj1 (Hearly r Hr Ht))|exact Htrace]. }
  split.
  { intros found handler cookies auth ms user Hfound Hpre Hhandler Hcheck
      Hcookies Hauth Hpass Hreturns Hlacks deadline pipeline.
    destruct (Hrace found handler cookies Hfound Hpre Hhandler Hcheck Hcookies)
      as (Hlate & Hearly & Htrace).
    fold deadline pipeline in Hlate, Hearly, Htrace.
    destruct pipeline as [out s1] eqn:Hrun. cbn [fst snd] in *.
    destruct (runWithMiddleware_rejects _ _ _ _ _ _ _ _ _ _ _ _ _ _ _
                Hauth Hpass Hreturns Hlacks Hrun)
      as (Hcalls & Hassigned & _ & Hlogged & Hout).
    cbn [trace] in Hcalls, Hassigned.
    rewrite Htrace.
    split; [exact Hcalls|]. split; [exact Hassigned|]. split; [exact Hlogged|].
    split; [|split].
    - rewrite Hout. destruct (onResponse (found_middleware found)) as [f|].
      + destruct (f request forbidden) as [? ?|? [?|?]|] eqn:Hf; split;
          try discriminate; try (intros (f' & [= <-] & Hhangs); congruence).
        intros _. eauto.
      + split; [discriminate|]. intros (f & Habs & _). discriminate.
    - exact Hlate.
    - intros Hsettles Hintime. subst out.
      destruct (onResponse (found_middleware found)) as [f|].
      + destruct (f request forbidden) as [? ?|? [?|?]|];
          try (apply Hearly; [reflexivity|exact Hintime]).
        now contradiction Hsettles.
      + apply Hearly; [reflexivity|exact Hintime]. }
  split; [repeat split; reflexivity|].
  split; [repeat split; reflexivity|].
  destruct (handleHTTPRequest_cases request newLocalStorage s)
    as [(Htrace & _ & _)|(found & handler & cookies & Hfound & Hpre & Hhandler
                          & Hcheck & Hcookies)].
  { fold result in Htrace.
    assert (Hquiet : handlerCalls (trace (snd result)) = handlerCalls (trace s) /\
                     assignments (trace (snd result)) = assignments (trace s)).
    { destruct Htrace as [->|(t & ->)]; [auto|].
      rewrite handlerCalls_app, assignments_app. simpl.
      now rewrite !app_nil_r. }
    destruct Hquiet as [Hcalls Hassigned].
    split; [now left|]. split; [now left|].
    intros found handler cookies Hfound Hpre Hhandler Hcheck Hcookies Hauth Hpass.
    exfalso.
    pose proof (handleHTTPRequest_route request newLocalStorage s _ _ _
                  Hfound Hpre Hhandler Hcheck Hcookies) as Hroute.
    destruct (Hrace found handler cookies Hfound Hpre Hhandler Hcheck Hcookies)
      as (_ & _ & Hsame).
    cbv zeta in Hsame.
    match type of Hsame with
    | _ = trace (snd ?p) => destruct p as [out s1] eqn:Hrun
    end.
    cbn [snd] in Hsame.
    pose proof Hrun as Hset.
    apply runWithMiddleware_anonymous with (installed := newLocalStorage)
      in Hset; [|exact Hauth|exact Hpass|reflexivity].
    destruct Hset as [Hset _].
    cbn [trace] in Hset. rewrite <- Hsame, Hassigned in Hset.
    apply (f_equal (@List.length _)) in Hset. rewrite length_app in Hset.
    simpl in Hset. lia. }
  destruct (Hrace found handler cookies Hfound Hpre Hhandler Hcheck Hcookies)
    as (_ & _ & Htrace).
  cbv zeta in Htrace.
  match type of Htrace with
  | _ = trace (snd ?p) => destruct p as [out s1] eqn:Hrun
  end.
  cbn [snd] in Htrace. rewrite Htrace.
  pose proof (runWithMiddleware_spec _ _ _ _ _ _ _ _ _ _ _ _ Hrun)
    as (_ & _ & Hcalls & Hassigned).
  cbn [trace] in Hcalls, Hassigned.
  split.
  { destruct Hassigned as [|(u & Hu & Hwho)]; [now left|].
    right. exists found, cookies, u. auto. }
  split.
  { destruct Hcalls as [|(u & Hu & Hset)]; [now left|].
    right. eexists. split; [exact Hu|exact Hset]. }
  intros found' handler' cookies' Hfound' Hpre' Hhandler' Hcheck' Hcookies'
    Hauth Hpass.
  rewrite Hfound in Hfound'. injection Hfound' as <-.
  rewrite Hhandler in Hhandler'. injection Hhandler' as <-.
  rewrite Hcookies in Hcookies'. injection Hcookies' as <-.
  apply runWithMiddleware_anonymous with (installed := newLocalStorage)
    in Hrun; [|exact Hauth|exact Hpass|reflexivity].
  exact (proj1 Hrun).
Qed.

(** The three CORS headers of a route. *)
Lemma getCorsHeaders_enabled (route : HTTPRoute) :
  cors route = true ->
  getCorsHeaders route =
  Some [("access-control-allow-origin", "*");
        ("access-control-allow-methods",
         match methods route with
         | Some ms => Js.join ", " ms
         | None => "*"
         end);
        ("access-control-allow-headers", "Content-Type, Authorization")].
Proof. intros H. unfold getCorsHeaders. rewrite H. reflexivity. Qed.

(** C7. When the request resolves to a route with CORS enabled and its
    method is OPTIONS, the engine answers 204 without a body and with the
    headers Access-Control-Allow-Origin: *, Access-Control-Allow-Methods: the
    route's methods joined by ", " (or * when the route has no method set)
    and Access-Control-Allow-Headers: Content-Type, Authorization; nothing
    else of the pipeline runs: no handler lookup, no method or content-type
    check, no middleware, no handler, no timer, and the world is unchanged. *)
Theorem cors_preflight (request : Request) (newLocalStorage : LocalStorage)
    (found : Found) (s : State) :
  findRoute (url request) = inr found ->
  cors (found_route found) = true ->
  method request = "OPTIONS" ->
  exists response : Response,
    handleHTTPRequest findRoute request newLocalStorage s = (Ret response, s) /\
    status response = 204%Z /\
    body response = None /\
    headers response =
      [("access-control-allow-origin", "*");
       ("access-control-allow-methods",
        match methods (found_route found) with
        | Some ms => Js.join ", " ms
        | None => "*"
        end);
       ("access-control-allow-headers", "Content-Type, Authorization")] /\
    headers_get "Access-Control-Allow-Origin" (headers response) = Some "*" /\
    headers_get "Access-Control-Allow-Methods" (headers response) =
      Some (match methods (found_route found) with
            | Some ms => Js.join ", " ms
            | None => "*"
            end) /\
    headers_get "Access-Control-Allow-Headers" (headers response) =
      Some "Content-Type, Authorization".
Proof.
  intros Hfound Hcors Hmethod.
  unfold handleHTTPRequest, tryCatch, bind, lift.
  rewrite Hfound. unfold ret at 1. cbv beta iota zeta.
  rewrite Hcors, Hmethod, (getCorsHeaders_enabled _ Hcors).
  cbn [andb String.eqb Ascii.eqb Bool.eqb orEmpty]. unfold ret.
  eexists. split; [reflexivity|].
  cbn [status body headers]. repeat split; reflexivity.
Qed.

End WithPlatform.
Lemma handleRoute_deadline_witness :
  (HttpSamples.sleepyRoutes "/x" = inr HttpSamples.sleepyRoute /\
   getHandler (found_module HttpSamples.sleepyRoute) "GET" =
     inr HttpSamples.sleepy /\
   checkRequest (HttpSamples.get "/x") (found_route HttpSamples.sleepyRoute) =
     inr tt /\
   getCookies (HttpSamples.get "/x") = inr [] /\
   timeout (found_route HttpSamples.sleepyRoute) = Js.Int 1) /\
  fst (handleHTTPRequest (platform := HttpSamples.platform)
         HttpSamples.sleepyRoutes (HttpSamples.get "/x") HttpSamples.fresh
         start) =
    Ret {| status := 500; headers := []; body := Some "Timed Out" |} /\
  nth_error
    (controllers
       (snd (handleHTTPRequest (platform := HttpSamples.platform)
               HttpSamples.sleepyRoutes (HttpSamples.get "/x")
               HttpSamples.fresh start))) 0 =
    Some (Some 1000%Z).
Proof.
  split; [repeat split; reflexivity|].
  pose proof (handleRoute_deadline (platform := HttpSamples.platform)
                HttpSamples.sleepyRoutes (HttpSamples.get "/x")
                HttpSamples.fresh start HttpSamples.sleepyRoute
                HttpSamples.sleepy [] 1 eq_refl eq_refl eq_refl eq_refl
                eq_refl eq_refl ltac:(lia)) as H.
  cbv zeta in H. destruct H as (Hlate & _).
  destruct Hlate as (Hresponse & _ & Hsignal).
  - right. apply Z.leb_le. reflexivity.
  - split; [exact Hresponse|exact Hsignal].
Defined.

Lemma cors_preflight_witness :
  (HttpSamples.openRoutes "/x" = inr HttpSamples.openRoute /\
   cors (found_route HttpSamples.openRoute) = true) /\
  exists response : Response,
    handleHTTPRequest (platform := HttpSamples.platform) HttpSamples.openRoutes
      {| method := "OPTIONS"; url := "/x"; request_headers := [] |}
      HttpSamples.fresh start = (Ret response, start) /\
    status response = 204%Z /\
    headers_get "Access-Control-Allow-Methods" (headers response) =
      Some "GET, POST".
Proof.
  split; [split; reflexivity|].
  destruct (cors_preflight (platform := HttpSamples.platform)
              HttpSamples.openRoutes
              {| method := "OPTIONS"; url := "/x"; request_headers := [] |}
              HttpSamples.fresh HttpSamples.openRoute start
              eq_refl eq_refl eq_refl)
    as (response & Hrun & Hstatus & _ & _ & _ & Hmethods & _).
  exists response. repeat split; assumption.
Defined.



Lemma authentication_gate_witness :
  (HttpSamples.guardedRoutes "/private" = inr HttpSamples.guardedRoute /\
   getHandler (found_module HttpSamples.guardedRoute) "GET" =
     inr HttpSamples.secret /\
   checkRequest (HttpSamples.get "/private")
     (found_route HttpSamples.guardedRoute) = inr tt /\
   getCookies (HttpSamples.get "/private") = inr [] /\
   lacksId SharedLocalStorage.UserUndefined = true) /\
  fst (handleHTTPRequest (platform := HttpSamples.platform)
         HttpSamples.guardedRoutes (HttpSamples.get "/private")
         HttpSamples.fresh start) = Ret forbidden /\
  handlerCalls
    (trace (snd (handleHTTPRequest (platform := HttpSamples.platform)
                   HttpSamples.guardedRoutes (HttpSamples.get "/private")
                   HttpSamples.fresh start))) = [].
Proof.
  split; [repeat split; reflexivity|].
  pose proof (authentication_gate (platform := HttpSamples.platform)
                HttpSamples.guardedRoutes (HttpSamples.get "/private")
                HttpSamples.fresh start) as H.
  cbv zeta in H. destruct H as (Hgate & _).
  destruct (Hgate HttpSamples.guardedRoute HttpSamples.secret []
              (fun _ _ => Returns 1 SharedLocalStorage.UserUndefined) 1%Z
              SharedLocalStorage.UserUndefined
              eq_refl eq_refl eq_refl eq_refl eq_refl eq_refl I eq_refl eq_refl)
    as (Hcalls & _ & _ & _ & _ & Hanswer).
  split; [|exact Hcalls].
  apply Hanswer.
  - vm_compute. discriminate.
  - vm_compute. reflexivity.
Defined.

(** C10 fails as stated: on a route whose [authenticate] returns [null] and
    whose [onResponse] throws a 200 response, the engine answers with that
    200 response, not with 403; the handler is not called. *)
Lemma forbidden_replaced_by_onResponse :
  fst (handleHTTPRequest (platform := HttpSamples.platform) HttpSamples.routes
         (HttpSamples.get "/private") HttpSamples.fresh start) =
    Ret HttpSamples.welcome /\
  status HttpSamples.welcome = 200%Z /\
  status HttpSamples.welcome <> 403%Z /\
  handlerCalls
    (trace (snd (handleHTTPRequest (platform := HttpSamples.platform)
                   HttpSamples.routes (HttpSamples.get "/private")
                   HttpSamples.fresh start))) = [] /\
  In (Call_onResponse (HttpSamples.get "/private") forbidden)
    (trace (snd (handleHTTPRequest (platform := HttpSamples.platform)
                   HttpSamples.routes (HttpSamples.get "/private")
                   HttpSamples.fresh start))).
Proof.
  repeat split; try reflexivity; try discriminate.
  vm_compute. auto 10.
Qed.

End HttpProps.

(** * Manifest loader *)

Module ManifestProps.
Import Manifest.

Lemma has_In (x : string) (l : list string) : Js.has x l = true <-> In x l.
Proof.
  unfold Js.has. rewrite existsb_exists. split.
  - intros (y & Hin & Heq). apply String.eqb_eq in Heq. now subst.
  - intros Hin. exists x. split; [exact Hin|apply String.eqb_refl].
Qed.

Lemma has_not_In (x : string) (l : list string) : Js.has x l = false <-> ~ In x l.
Proof.
  rewrite <- has_In. destruct (Js.has x l); split; intros; congruence.
Qed.

(** Setting a key that the map does not hold appends it. *)
Lemma Map_set_new {V} (key : string) (value : V) (m : list (string * V)) :
  ~ In key (map fst m) -> Map_set key value m = m ++ [(key, value)].
Proof.
  induction m as [|[k v] m IH]; simpl; intros Hnew.
  - reflexivity.
  - destruct (String.eqb k key) eqn:E.
    + apply String.eqb_eq in E. tauto.
    + rewrite IH; tauto.
Qed.

Lemma shapes_app (a b : list (string * Route)) :
  shapes (a ++ b) = shapes a ++ shapes b.
Proof. unfold shapes. apply map_app. Qed.

(** Adding a route under a shape not seen before keeps the two collections
    in step. *)
Lemma add_consistent (st : Loading) (path : string) (route : Route) :
  consistent st ->
  Js.has (signature path) (dupes st) = false ->
  consistent {| routes := Map_set path route (routes st);
                dupes := Set_add (signature path) (dupes st) |} /\
  Set_add (signature path) (dupes st) = dupes st ++ [signature path].
Proof.
  intros [Hsame Hnodup] Hnew.
  assert (Hfresh : ~ In (signature path) (dupes st)) by now apply has_not_In.
  assert (Hadd : Set_add (signature path) (dupes st) = dupes st ++ [signature path])
    by (unfold Set_add; now rewrite Hnew).
  split; [|exact Hadd].
  unfold consistent. cbn [routes dupes]. rewrite Hadd.
  rewrite Map_set_new.
  - rewrite shapes_app, <- Hsame. split; [reflexivity|].
    apply NoDup_app; [exact Hnodup|repeat constructor; simpl; tauto|].
    intros x Hin [<-|[]]. contradiction.
  - intros Hin. apply Hfresh. rewrite Hsame. unfold shapes.
    apply in_map_iff in Hin. destruct Hin as ([k v] & <- & Hin).
    apply in_map_iff. now exists (k, v).
Qed.

(** The timeout of a queue, as the manifest loader accepts it: 30 seconds
    when none is configured, the configured value from 1 to 500 seconds,
    [NaN] as it is, and an error for every other number. *)
Lemma queue_timeout_validated (t : Z) :
  getTimeout None 500 30 = inr (Js.Int 30) /\
  ((1 <= t <= 500)%Z ->
   getTimeout (Some (Seconds (Js.Int t))) 500 30 = inr (Js.Int t)) /\
  ((t < 1)%Z ->
   getTimeout (Some (Seconds (Js.Int t))) 500 30 =
   inl (Error "config.timeout must be at least 1 second")) /\
  ((500 < t)%Z ->
   getTimeout (Some (Seconds (Js.Int t))) 500 30 =
   inl (Error "config.timeout cannot be more than 500 seconds")) /\
  getTimeout (Some (Seconds Js.NaN)) 500 30 = inr Js.NaN.
Proof.
  unfold getTimeout. cbn [Js.lt].
  split; [reflexivity|]. split; [|split; [|split; [|reflexivity]]]; intros H.
  - destruct (Z.ltb_spec t 1); [lia|]. destruct (Z.ltb_spec 500 t); [lia|].
    reflexivity.
  - destruct (Z.ltb_spec t 1); [reflexivity|lia].
  - destruct (Z.ltb_spec t 1); [lia|]. destruct (Z.ltb_spec 500 t); [|lia].
    reflexivity.
Qed.

(** What [getTimeout] lets through: [NaN], or a number of seconds that is
    the default or lies between 1 and the maximum. *)
Lemma getTimeout_accepted (timeout : option TimeoutValue) (max def : Z)
    (t : Js.Number) :
  getTimeout timeout max def = inr t ->
  t = Js.NaN \/
  exists n, t = Js.Int n /\ (n = def \/ (1 <= n <= max)%Z).
Proof.
  unfold getTimeout. destruct timeout as [[[|n]|]|]; cbn [Js.lt].
  - intros [= <-]. now left.
  - destruct (Z.ltb_spec n 1); [discriminate|].
    destruct (Z.ltb_spec max n); [discriminate|].
    intros [= <-]. right. exists n. split; [reflexivity|right; lia].
  - discriminate.
  - intros [= <-]. right. exists def. auto.
Qed.

Section WithLibrary.
Context {library : PathToRegexp} {project : Project}.

(** A file that is added has a module and a path, and its shape is new. *)
Lemma addRoute_ok (f : string) (st st' : Loading) :
  consistent st ->
  addRoute f st = inr st' ->
  consistent st' /\
  exists path,
    pathFromFilename (withoutApi f) = inr path /\
    dupes st' = dupes st ++ [signature path].
Proof.
  intros Hst. unfold addRoute, tryRoute.
  destruct (loadRouteModule f) as [config|]; [|discriminate].
  destruct (pathFromFilename (withoutApi f)) as [e|path]; [discriminate|].
  destruct (Js.has (signature path) (dupes st)) eqn:Hnew; [discriminate|].
  destruct (checkContentType (accepts config)) as [e|acceptsType]; [discriminate|].
  destruct (getTimeout (timeout config) 30 30) as [e|t]; [discriminate|].
  intros [= <-].
  destruct (add_consistent st path
              {| route_checkContentType := acceptsType;
                 route_checkMethod := checkMethod (methods config);
                 filename := f; matcher := path; queue := None; seconds := t |}
              Hst Hnew) as [Hok Hadd].
  split; [exact Hok|]. exists path. split; [reflexivity|exact Hadd].
Qed.

(** A file whose shape was seen before is refused, by name. *)
Lemma addRoute_duplicate (f path : string) (config : RouteConfig) (st : Loading) :
  loadRouteModule f = Some config ->
  pathFromFilename (withoutApi f) = inr path ->
  In (signature path) (dupes st) ->
  addRoute f st = inl (errorIn f identicalRoute).
Proof.
  intros Hmodule Hpath Hseen. unfold addRoute, tryRoute.
  rewrite Hmodule, Hpath. apply has_In in Hseen. now rewrite Hseen.
Qed.

Lemma addRoute_error (f : string) (st : Loading) (e : JsError) :
  addRoute f st = inl e -> exists cause, e = errorIn f cause.
Proof.
  unfold addRoute. destruct (tryRoute f st) as [cause|?];
    [|discriminate].
  intros [= <-]. now exists cause.
Qed.

Lemma addRoutes_app (a b : list string) (st : Loading) :
  addRoutes (a ++ b) st =
  match addRoutes a st with
  | inl e => inl e
  | inr st' => addRoutes b st'
  end.
Proof.
  revert st. induction a as [|f a IH]; intros st; simpl.
  - reflexivity.
  - destruct (addRoute f st); [reflexivity|apply IH].
Qed.

(** The files that were added have paths, and the shapes of these paths
    were recorded in order. *)
Lemma addRoutes_ok (filenames : list string) :
  forall st st' : Loading,
    consistent st ->
    addRoutes filenames st = inr st' ->
    consistent st' /\
    exists paths,
      Forall2 (fun f p => pathFromFilename (withoutApi f) = inr p)
        filenames paths /\
      dupes st' = dupes st ++ map signature paths.
Proof.
  induction filenames as [|f rest IH]; intros st st' Hst; simpl.
  - intros [= <-]. split; [exact Hst|]. exists []. split; [constructor|].
    simpl. now rewrite app_nil_r.
  - destruct (addRoute f st) as [e|st1] eqn:Hadd; [discriminate|].
    intros Hrest.
    destruct (addRoute_ok f st st1 Hst Hadd) as (Hst1 & path & Hpath & Hd1).
    destruct (IH st1 st' Hst1 Hrest) as (Hst' & paths & Hpaths & Hd).
    split; [exact Hst'|]. exists (path :: paths).
    split; [now constructor|].
    rewrite Hd, Hd1. simpl. now rewrite <- app_assoc.
Qed.

(** The first file that is refused is named in the error. *)
Lemma addRoutes_error (filenames : list string) :
  forall (st : Loading) (e : JsError),
    addRoutes filenames st = inl e ->
    exists k fk cause,
      nth_error filenames k = Some fk /\ e = errorIn fk cause.
Proof.
  induction filenames as [|f rest IH]; intros st e; simpl.
  - discriminate.
  - destruct (addRoute f st) as [e'|st1] eqn:Hadd.
    + intros [= <-]. destruct (addRoute_error _ _ _ Hadd) as [cause ->].
      now exists 0, f, cause.
    + intros Hrest. destruct (IH _ _ Hrest) as (k & fk & cause & Hk & ->).
      now exists (S k), fk, cause.
Qed.

Lemma addQueueRoute_ok (q : Queue) (st st' : Loading) :
  consistent st -> addQueueRoute q st = inr st' -> consistent st'.
Proof.
  intros Hst. unfold addQueueRoute, tryQueueRoute.
  destruct (path q) as [queuePath|]; [|now intros [= <-]].
  destruct (negb (Js.truthy queuePath)); [now intros [= <-]|].
  destruct (verifyPathParameters _); [discriminate|].
  destruct (Js.has _ (dupes st)) eqn:Hnew; [discriminate|].
  intros [= <-]. now apply add_consistent.
Qed.

Lemma addQueueRoutes_ok (queues : list Queue) :
  forall st st' : Loading,
    consistent st -> addQueueRoutes queues st = inr st' -> consistent st'.
Proof.
  induction queues as [|q rest IH]; intros st st' Hst; simpl.
  - now intros [= <-].
  - destruct (addQueueRoute q st) as [e|st1] eqn:Hadd; [discriminate|].
    apply IH. eapply addQueueRoute_ok; eauto.
Qed.

Lemma empty_consistent : consistent empty.
Proof. split; [reflexivity|constructor]. Qed.

(** In a manifest that was produced, all route shapes differ. *)
Lemma loadRoutes_shapes_distinct (filenames : list string)
    (queues : list (string * Queue)) (loaded : list (string * Route)) :
  loadRoutes filenames queues = inr loaded -> NoDup (shapes loaded).
Proof.
  unfold loadRoutes. fold empty.
  destruct (addRoutes filenames empty) as [e|st] eqn:Hfiles; [discriminate|].
  destruct (addQueueRoutes (map snd queues) st) as [e|st'] eqn:Hqueues;
    [discriminate|].
  intros [= <-].
  destruct (addRoutes_ok _ _ _ empty_consistent Hfiles) as (Hst & _).
  destruct (addQueueRoutes_ok _ _ _ Hst Hqueues) as [Hsame Hnodup].
  now rewrite <- Hsame.
Qed.

Lemma Forall2_nth_error {A B} (R : A -> B -> Prop) (l : list A) (l' : list B) :
  Forall2 R l l' ->
  forall i a, nth_error l i = Some a ->
              exists b, nth_error l' i = Some b /\ R a b.
Proof.
  induction 1 as [|x y l l' Hxy _ IH]; intros [|i] a; simpl; try discriminate.
  - intros [= <-]. eauto.
  - apply IH.
Qed.

Lemma nth_error_firstn_lt {A} (l : list A) (n i : nat) :
  i < n -> nth_error (firstn n l) i = nth_error l i.
Proof.
  revert n i. induction l as [|x l IH]; intros [|n] [|i] Hlt; simpl;
    try reflexivity; try lia.
  apply IH. lia.
Qed.

(** Two files of the same shape among those added: impossible. *)
Lemma addRoutes_no_duplicates (filenames : list string) (st' : Loading)
    (i j : nat) (fi fj pi pj : string) :
  addRoutes filenames empty = inr st' ->
  i < j ->
  nth_error filenames i = Some fi ->
  nth_error filenames j = Some fj ->
  pathFromFilename (withoutApi fi) = inr pi ->
  pathFromFilename (withoutApi fj) = inr pj ->
  signature pi <> signature pj.
Proof.
  intros Hrun Hlt Hi Hj Hpi Hpj Hsame.
  destruct (addRoutes_ok _ _ _ empty_consistent Hrun)
    as ([_ Hnodup] & paths & Hpaths & Hdupes).
  simpl in Hdupes. rewrite Hdupes in Hnodup.
  destruct (Forall2_nth_error _ _ _ Hpaths i fi Hi) as (pi' & Hi' & Hpi').
  destruct (Forall2_nth_error _ _ _ Hpaths j fj Hj) as (pj' & Hj' & Hpj').
  assert (pi' = pi) by congruence. assert (pj' = pj) by congruence. subst.
  assert (Heq : i = j).
  { apply (proj1 (NoDup_nth_error (map signature paths)) Hnodup).
    - rewrite length_map. apply nth_error_Some. congruence.
    - rewrite !nth_error_map, Hi', Hj'. simpl. now rewrite Hsame. }
  lia.
Qed.

(** C6. If two files under api/ map to route paths of the same shape (the
    path with the name of each parameter dropped, so that a/:x and a/:y have
    the one shape a/:), loading the routes fails with an error that names a
    file: the second of the two, with the message of an identical route,
    when the files before it load, and otherwise a file before it that was
    refused.  Hence the shapes of the routes of every manifest that is
    produced, queue routes included, are pairwise distinct. *)
Theorem duplicate_shape_rejected (filenames : list string)
    (queues : list (string * Queue)) (i j : nat) (fi fj pi pj : string) :
  i < j ->
  nth_error filenames i = Some fi ->
  nth_error filenames j = Some fj ->
  pathFromFilename (withoutApi fi) = inr pi ->
  pathFromFilename (withoutApi fj) = inr pj ->
  signature pi = signature pj ->
  (exists k fk cause,
      k <= j /\ nth_error filenames k = Some fk /\
      loadRoutes filenames queues = inl (errorIn fk cause)) /\
  (forall config,
      (exists stj, addRoutes (firstn j filenames) empty = inr stj) ->
      loadRouteModule fj = Some config ->
      loadRoutes filenames queues = inl (errorIn fj identicalRoute)) /\
  (forall files' queues' loaded,
      loadRoutes files' queues' = inr loaded -> NoDup (shapes loaded)) /\
  signature "/a/:x" = signature "/a/:y".
Proof.
  intros Hlt Hi Hj Hpi Hpj Hsame.
  assert (Hsplit : filenames = firstn (S j) filenames ++ skipn (S j) filenames)
    by (symmetry; apply firstn_skipn).
  split; [|split; [|split]].
  - destruct (addRoutes (firstn (S j) filenames) empty) as [e|st'] eqn:Hprefix.
    + destruct (addRoutes_error _ _ _ Hprefix) as (k & fk & cause & Hk & ->).
      assert (Hbound : k < S j).
      { assert (k < List.length (firstn (S j) filenames))
          by (apply nth_error_Some; congruence).
        pose proof (firstn_le_length (S j) filenames). lia. }
      exists k, fk, cause. split; [lia|]. split.
      * now rewrite nth_error_firstn_lt in Hk.
      * unfold loadRoutes. fold empty.
        rewrite Hsplit, addRoutes_app, Hprefix. reflexivity.
    + exfalso.
      refine (addRoutes_no_duplicates _ _ i j fi fj pi pj Hprefix Hlt _ _
                Hpi Hpj Hsame).
      * rewrite nth_error_firstn_lt; [exact Hi|lia].
      * rewrite nth_error_firstn_lt; [exact Hj|lia].
  - intros config [stj Hbefore] Hmodule.
    destruct (addRoutes_ok _ _ _ empty_consistent Hbefore)
      as (_ & paths & Hpaths & Hdupes).
    simpl in Hdupes.
    assert (Hi' : nth_error (firstn j filenames) i = Some fi)
      by (rewrite nth_error_firstn_lt; [exact Hi|lia]).
    destruct (Forall2_nth_error _ _ _ Hpaths i fi Hi') as (pi' & Hin & Hpi').
    assert (pi' = pi) by congruence. subst pi'.
    assert (Hseen : In (signature pj) (dupes stj)).
    { rewrite Hdupes, <- Hsame. apply in_map. eapply nth_error_In; eauto. }
    destruct (nth_error_split _ _ Hj) as (before & after & Hparts & Hlen).
    assert (Hfirst : firstn j filenames = before).
    { subst filenames j. rewrite firstn_app, Nat.sub_diag, firstn_all. simpl.
      now rewrite app_nil_r. }
    unfold loadRoutes. fold empty.
    rewrite Hparts at 1. rewrite addRoutes_app, <- Hfirst, Hbefore. simpl.
    now rewrite (addRoute_duplicate fj pj config stj Hmodule Hpj Hseen).
  - intros files' queues' loaded. apply loadRoutes_shapes_distinct.
  - reflexivity.
Qed.

End WithLibrary.

Lemma duplicate_shape_rejected_witness :
  (nth_error ManifestSamples.twoFiles 0 = Some "api/a/[x].ts" /\
   nth_error ManifestSamples.twoFiles 1 = Some "api/a/[y].ts" /\
   pathFromFilename (library := ManifestSamples.library)
     (withoutApi "api/a/[x].ts") = inr "a/:x" /\
   pathFromFilename (library := ManifestSamples.library)
     (withoutApi "api/a/[y].ts") = inr "a/:y" /\
   signature "a/:x" = signature "a/:y") /\
  loadRoutes (library := ManifestSamples.library)
    (project := ManifestSamples.modules) ManifestSamples.twoFiles [] =
    inl (errorIn "api/a/[y].ts" identicalRoute).
Proof.
  split; [repeat split; reflexivity|].
  destruct (duplicate_shape_rejected (library := ManifestSamples.library)
              (project := ManifestSamples.modules)
              ManifestSamples.twoFiles [] 0 1
              "api/a/[x].ts" "api/a/[y].ts" "a/:x" "a/:y"
              (le_n 1) eq_refl eq_refl eq_refl eq_refl eq_refl)
    as (_ & Hnamed & _).
  apply (Hnamed {| methods := None; accepts := None; timeout := None |}).
  - eexists. vm_compute. reflexivity.
  - reflexivity.
Defined.

End ManifestProps.


(** * JavaScript string helpers *)

Module JsProps.
Import SqsDispatch JsMore.
Local Open Scope string_scope.

Lemma append_assoc (a b c : string) : (a ++ b) ++ c = a ++ b ++ c.
Proof. induction a as [|x a IH]; simpl; [reflexivity|now rewrite IH]. Qed.

Lemma append_nil_r (a : string) : a ++ "" = a.
Proof. induction a as [|x a IH]; simpl; [reflexivity|now rewrite IH]. Qed.

Lemma allChars_app (p : ascii -> bool) (a b : string) :
  allChars p (a ++ b) = allChars p a && allChars p b.
Proof.
  induction a as [|c a IH]; simpl.
  - reflexivity.
  - rewrite IH. now rewrite andb_assoc.
Qed.

Lemma lacks_cons (sep c : ascii) (s : string) :
  lacks sep (String c s) = true ->
  Ascii.eqb c sep = false /\ lacks sep s = true.
Proof.
  unfold lacks. simpl. intros H. apply andb_prop in H. destruct H as [Hc Hs].
  apply negb_true_iff in Hc. auto.
Qed.

Lemma split_nonempty (sep : ascii) (s : string) : Js.split sep s <> [].
Proof.
  destruct s as [|c s]; simpl.
  - discriminate.
  - destruct (Ascii.eqb c sep); [discriminate|].
    destruct (Js.split sep s); discriminate.
Qed.

(** A text without the separator is one piece. *)
Lemma split_lacks (sep : ascii) (s : string) :
  lacks sep s = true -> Js.split sep s = [s].
Proof.
  induction s as [|c s IH]; intros H.
  - reflexivity.
  - apply lacks_cons in H. destruct H as [Hc Hs]. simpl.
    rewrite Hc, (IH Hs). reflexivity.
Qed.

(** The pieces of a text that ends with a separator and a last piece. *)
Lemma split_snoc (sep : ascii) (s q : string) :
  lacks sep q = true ->
  Js.split sep (s ++ String sep q) = (Js.split sep s ++ [q])%list.
Proof.
  intros Hq. induction s as [|c s IH]; simpl.
  - rewrite Ascii.eqb_refl, (split_lacks _ _ Hq). reflexivity.
  - destruct (Ascii.eqb c sep).
    + now rewrite IH.
    + rewrite IH. destruct (Js.split sep s) as [|p ps] eqn:E.
      * now contradiction (split_nonempty sep s).
      * reflexivity.
Qed.

(** The first piece of a text that starts with a piece and a separator. *)
Lemma split_cons (sep : ascii) (a b : string) :
  lacks sep a = true ->
  Js.split sep (a ++ String sep b) = a :: Js.split sep b.
Proof.
  induction a as [|c a IH]; intros H.
  - simpl. now rewrite Ascii.eqb_refl.
  - apply lacks_cons in H. destruct H as [Hc Ha]. simpl.
    rewrite Hc, (IH Ha). reflexivity.
Qed.

(** Joining the pieces with the separator gives the text back. *)
Lemma join_split (sep : ascii) (s : string) :
  Js.join (String sep EmptyString) (Js.split sep s) = s.
Proof.
  induction s as [|c s IH]; simpl.
  - reflexivity.
  - destruct (Ascii.eqb c sep) eqn:E.
    + apply Ascii.eqb_eq in E. subst c.
      destruct (Js.split sep s) as [|p ps] eqn:Hs.
      * now contradiction (split_nonempty sep s).
      * simpl in *. now rewrite IH.
    + destruct (Js.split sep s) as [|p ps] eqn:Hs.
      * now contradiction (split_nonempty sep s).
      * destruct ps as [|p' ps]; simpl in *; now rewrite <- IH.
Qed.

Lemma join_snoc (sep : string) (l : list string) (q : string) :
  l <> [] -> Js.join sep (l ++ [q])%list = Js.join sep l ++ sep ++ q.
Proof.
  induction l as [|p l IH]; intros Hne.
  - now contradiction Hne.
  - destruct l as [|p' l].
    + reflexivity.
    + change (Js.join sep ((p :: p' :: l) ++ [q])%list)
        with (p ++ sep ++ Js.join sep ((p' :: l) ++ [q])%list).
      rewrite IH by discriminate.
      change (Js.join sep (p :: p' :: l)) with (p ++ sep ++ Js.join sep (p' :: l)).
      now rewrite !append_assoc.
Qed.

Lemma rev_string_acc (s acc : string) :
  Js.rev_string s acc = Js.rev_string s "" ++ acc.
Proof.
  revert acc. induction s as [|c s IH]; intros acc; simpl.
  - reflexivity.
  - rewrite IH, (IH (String c "")). now rewrite append_assoc.
Qed.

Lemma rev_string_app (a b : string) :
  Js.rev_string (a ++ b) "" = Js.rev_string b "" ++ Js.rev_string a "".
Proof.
  induction a as [|c a IH]; simpl.
  - now rewrite append_nil_r.
  - rewrite rev_string_acc, IH, (rev_string_acc a (String c "")).
    now rewrite append_assoc.
Qed.

Lemma prefix_app (a b : string) : String.prefix a (a ++ b) = true.
Proof.
  induction a as [|c a IH]; simpl.
  - now destruct b.
  - destruct (ascii_dec c c); [exact IH|congruence].
Qed.

(** [(a + b).endsWith(b)] *)
Lemma endsWith_app (a b : string) : Js.endsWith (a ++ b) b = true.
Proof. unfold Js.endsWith. rewrite rev_string_app. apply prefix_app. Qed.

Lemma length_app (a b : string) :
  String.length (a ++ b) = String.length a + String.length b.
Proof. induction a as [|c a IH]; simpl; auto. Qed.

Lemma substring_app (a b : string) :
  String.substring 0 (String.length a) (a ++ b) = a.
Proof.
  induction a as [|c a IH]; simpl.
  - now destruct b.
  - now rewrite IH.
Qed.

(** [(a + b).slice(0, -b.length)] *)
Lemma substring_front (a b : string) :
  String.substring 0 (String.length (a ++ b) - String.length b) (a ++ b) = a.
Proof.
  rewrite length_app.
  replace (String.length a + String.length b - String.length b)
    with (String.length a) by lia.
  apply substring_app.
Qed.

End JsProps.


(** * Batch dispatcher: further properties *)

Module SqsDispatchMoreProps.
Import Async SqsDispatch JsMore SqsObservations JsProps SqsDispatchProps SqsMoreSamples.
Local Open Scope task_scope.

Lemma afterSeparator_prefix (prefix queue : string) :
  lacks "_" prefix = true -> dotStar prefix = true -> dotStar queue = true ->
  afterSeparator (prefix ++ "__" ++ queue) = Some queue.
Proof.
  intros Hus Hplain Hq. induction prefix as [|c p IH].
  - simpl. now rewrite Hq.
  - apply lacks_cons in Hus. destruct Hus as [Hc Hp].
    unfold dotStar in Hplain. simpl in Hplain.
    apply andb_prop in Hplain. destruct Hplain as [Hlt Hrest].
    apply negb_true_iff in Hlt.
    change ((String c p ++ "__" ++ queue)%string)
      with (String c (p ++ "__" ++ queue)%string).
    cbn [afterSeparator stripPrefix].
    rewrite Ascii.eqb_sym, Hc, Hlt. now apply IH.
Qed.

Lemma arnGroups_parts (reg account name : string) :
  dotStar reg = true -> arnPart account = true -> arnPart name = true ->
  arnGroups (reg ++ ":" ++ account ++ ":" ++ name) = Some (reg, account, name).
Proof.
  intros Hreg Hacc Hname.
  apply andb_prop in Hacc. destruct Hacc as [Hacc1 Hacc2].
  apply andb_prop in Hname. destruct Hname as [Hname1 Hname2].
  unfold arnGroups.
  assert (Hplain : dotStar (reg ++ ":" ++ account ++ ":" ++ name) = true).
  { unfold dotStar in *. rewrite !allChars_app, Hreg, Hacc2, Hname2. reflexivity. }
  rewrite Hplain.
  replace (reg ++ ":" ++ account ++ ":" ++ name)%string
    with ((reg ++ String ":" account) ++ String ":" name)%string
    by (now rewrite append_assoc).
  rewrite (split_snoc _ _ _ Hname1), (split_snoc _ _ _ Hacc1).
  rewrite !rev_app_distr. cbn [rev app].
  destruct (rev (Js.split ":" reg)) as [|r rs] eqn:Hrev.
  - apply (f_equal (@rev string)) in Hrev. rewrite rev_involutive in Hrev.
    now contradiction (split_nonempty ":" reg).
  - change (rev rs ++ [r]) with (rev (r :: rs)). rewrite <- Hrev, rev_involutive, join_split. reflexivity.
Qed.

Lemma matchArn_at_start (rest : string) (g : string * string * string) :
  arnGroups rest = Some g -> matchArn ("arn:aws:sqs:" ++ rest) = Some g.
Proof.
  intros Hg. simpl. now rewrite Hg.
Qed.

Section WithPlatform.
Context {platform : Platform} {runtime : Runtime}.

(** X1. The queue name and the queue URL are read off the ARN of a message
    in its documented form: for the ARN "arn:aws:sqs:" region ":" account
    ":" prefix "__" queue, where the account, the prefix and the queue hold
    no colon, the prefix holds no underscore, no part holds a line
    terminator and the queue is not empty, [getQueueName] is the queue,
    [getQueueURL] is "https://sqs." region ".amazonaws.com/" account "/"
    prefix "__" queue, and the batch is a FIFO batch exactly when the queue
    ends with ".fifo". *)
Theorem queue_name_and_url_from_arn (message : SQSMessage)
    (reg account prefix queue : string) :
  eventSourceARN message =
    ("arn:aws:sqs:" ++ reg ++ ":" ++ account ++ ":" ++ prefix ++ "__" ++ queue)%string ->
  dotStar reg = true ->
  arnPart account = true ->
  arnPart prefix = true ->
  lacks "_" prefix = true ->
  arnPart queue = true ->
  queue <> "" ->
  getQueueName message = inr queue /\
  getQueueURL message =
    inr ("https://sqs." ++ reg ++ ".amazonaws.com/" ++ account ++ "/"
         ++ prefix ++ "__" ++ queue)%string /\
  isFifoQueue message = inr (Js.endsWith queue ".fifo").
Proof.
  intros Harn Hreg Hacc Hprefix Hus Hqueue Hne.
  pose proof Hprefix as Hprefix'. pose proof Hqueue as Hqueue'.
  apply andb_prop in Hprefix'. destruct Hprefix' as [Hp1 Hp2].
  apply andb_prop in Hqueue'. destruct Hqueue' as [Hq1 Hq2].
  assert (Hqualified : arnPart (prefix ++ "__" ++ queue) = true).
  { unfold arnPart, lacks, dotStar in *.
    rewrite !allChars_app, Hp1, Hp2, Hq1, Hq2. reflexivity. }
  assert (Hname : getQueueName message = inr queue).
  { unfold getQueueName. rewrite Harn.
    replace ("arn:aws:sqs:" ++ reg ++ ":" ++ account ++ ":" ++ prefix ++ "__" ++ queue)%string
      with (("arn:aws:sqs:" ++ reg ++ ":" ++ account)
            ++ String ":" (prefix ++ "__" ++ queue))%string
      by (now rewrite !append_assoc).
    apply andb_prop in Hqualified. destruct Hqualified as [Hc _].
    rewrite (split_snoc _ _ _ Hc), last_last. cbv zeta.
    rewrite (afterSeparator_prefix _ _ Hus Hp2 Hq2).
    destruct queue; [now contradiction Hne|reflexivity]. }
  split; [exact Hname|]. split.
  - unfold getQueueURL. rewrite Harn.
    rewrite (matchArn_at_start _ _
               (arnGroups_parts reg account (prefix ++ "__" ++ queue)
                  Hreg Hacc Hqualified)).
    reflexivity.
  - unfold isFifoQueue. now rewrite Hname.
Qed.

Lemma setFlag_last (l : list bool) (b : bool) :
  setFlag (l ++ [b]) (List.length l) = l ++ [true].
Proof. induction l as [|x l IH]; simpl; [reflexivity|now rewrite IH]. Qed.

Lemma signalsGiven_app (a b : list Event) :
  signalsGiven (a ++ b) = signalsGiven a ++ signalsGiven b.
Proof. unfold signalsGiven. now rewrite flat_map_app. Qed.

(** X2. Whenever [handleOneMessage] returns or throws, the abort signal that
    it made for the message has fired: it makes at most one controller, the
    handler is called at most once and with the signal of that controller,
    and on the way out the controller is aborted.  Controllers made earlier
    are left as they are. *)
Theorem signal_aborted_on_return (m : SQSMessage) (sqs : SQS) (t : Z)
    (w w' : World) (out : Outcome Thrown bool) :
  handleOneMessage m sqs t w = (out, w') ->
  out <> Never ->
  (controllers w' = controllers w /\
   signalsGiven (trace w') = signalsGiven (trace w)) \/
  (controllers w' = controllers w ++ [true] /\
   nth_error (controllers w') (List.length (controllers w)) = Some true /\
   (signalsGiven (trace w') = signalsGiven (trace w) \/
    signalsGiven (trace w') =
      signalsGiven (trace w) ++ [List.length (controllers w)])).
Proof.
  intros H Hout. run_cases H; try (now contradiction Hout).
  all: simpl; rewrite ?setFlag_last, ?signalsGiven_app; simpl;
    rewrite ?app_nil_r.
  all: try (left; split; reflexivity).
  all: right; split; [reflexivity|]; split;
    [rewrite nth_error_app2, Nat.sub_diag by lia; reflexivity|].
  all: first [left; reflexivity | right; reflexivity].
Qed.

(** X3. [handleOneMessage] answers [true] only for a message whose queue has
    a module, whose handler was called with the payload and the metadata of
    the message and resolved strictly before the abort timer of the message
    fired, and, unless the client is in local mode, whose deletion the
    backend acknowledged under the queue URL and the receipt handle of the
    message.  The timer is armed with the smaller of the timeout of the
    queue, which counts seconds, and of the remaining time, which counts
    milliseconds, the two compared as they are: with 30 milliseconds or
    more remaining, the timer is that of the timeout of the queue, however
    little time remains. *)
Theorem success_is_sound (m : SQSMessage) (sqs : SQS) (remainingMillis : Z)
    (w w' : World) :
  handleOneMessage m sqs remainingMillis w = (Ret true, w') ->
  exists name module payload ms,
    getQueueName m = inr name /\
    loadModule ("queues/" ++ name) = Some module /\
    getPayload m = inr payload /\
    handler module payload (getMetadata m name (List.length (controllers w)))
      = Resolves ms /\
    (ms < abortDelay (Js.Math_min (getTimeout (config module))
                        (Js.Int remainingMillis)))%Z /\
    ((30 <= remainingMillis)%Z ->
     (ms < abortDelay (getTimeout (config module)))%Z) /\
    (region sqs <> "localhost" ->
     exists url,
       getQueueURL m = inr url /\
       deleteMessage sqs url (receiptHandle m) = Fulfilled /\
       deleted w' = deleted w ++ [(url, receiptHandle m)]).
Proof.
  intros H.
  assert (Hcap : forall c, (30 <= remainingMillis)%Z ->
                           Js.Math_min (getTimeout c) (Js.Int remainingMillis) =
                           getTimeout c)
    by (intros c Hleft; apply remaining_time_is_no_cap; unfold maxTimeout; lia).
  run_cases H; region_cases.
  all: do 4 eexists.
  all: repeat match goal with
         | |- _ /\ _ => split
         | |- _ = _ => eassumption || reflexivity
         | |- (_ < _)%Z => apply Z.ltb_lt; eassumption
         | |- (_ <= _)%Z -> _ =>
             let Hleft := fresh "Hleft" in
             intros Hleft; rewrite <- (Hcap _ Hleft)
         end.
  all: intros Hremote; try congruence.
  all: eexists; repeat split; try eassumption; reflexivity.
Qed.

Lemma errorsLogged_app (a b : list Event) :
  errorsLogged (a ++ b) = errorsLogged a ++ errorsLogged b.
Proof. unfold errorsLogged. now rewrite flat_map_app. Qed.

Lemma onErrorCalls_app (a b : list Event) :
  onErrorCalls (a ++ b) = onErrorCalls a ++ onErrorCalls b.
Proof. unfold onErrorCalls. now rewrite flat_map_app. Qed.

(** X4. One call of [handleOneMessage] logs at most one error for the
    message and calls [onError] at most once: never when it answers [true]
    (then no error is logged either), and otherwise with the logged error,
    wrapped in an [Error] when it is none.  What [onError] itself throws is
    swallowed: the answer is [false] all the same. *)
Theorem onError_at_most_once (m : SQSMessage) (sqs : SQS) (t : Z)
    (w w' : World) (out : Outcome Thrown bool) :
  handleOneMessage m sqs t w = (out, w') ->
  exists errors calls,
    errorsLogged (trace w') = errorsLogged (trace w) ++ errors /\
    onErrorCalls (trace w') = onErrorCalls (trace w) ++ calls /\
    (List.length errors <= 1)%nat /\
    (calls = [] \/ calls = map asError errors) /\
    (out = Ret true -> errors = []) /\
    (errors <> [] -> out = Ret false \/ out = Never).
Proof.
  intros H. run_cases H.
  all: simpl; rewrite ?errorsLogged_app, ?onErrorCalls_app; simpl;
    rewrite ?app_nil_r.
  all: first
    [ exists [], []; rewrite ?app_nil_r;
      repeat split; auto; try discriminate; congruence
    | eexists [_], [_]; split; [reflexivity|]; split; [reflexivity|];
      repeat split; simpl; auto; discriminate
    | eexists [_], []; split; [reflexivity|]; split; [now rewrite app_nil_r|];
      repeat split; simpl; auto; discriminate ].
Qed.

Lemma handleOneMessage_no_module (m : SQSMessage) (sqs : SQS) (t : Z)
    (w : World) (name : string) :
  getQueueName m = inr name ->
  loadModule ("queues/" ++ name) = None ->
  handleOneMessage m sqs t w =
  (Throw (ThrownError (Error ("No handler for queue " ++ name))), w).
Proof.
  intros Hname Hload. unfold handleOneMessage. rewrite Hname.
  cbn [liftError]. unfold bind at 1. unfold ret at 1. now rewrite Hload.
Qed.

Lemma all_without_module (sqs : SQS) (name : string)
    (work : list (SQSMessage * Z)) (w : World) :
  loadModule ("queues/" ++ name) = None ->
  Forall (fun mt => getQueueName (fst mt) = inr name) work ->
  work <> [] ->
  promiseAll
    (map (fun mt : SQSMessage * Z =>
            ok <- handleOneMessage (fst mt) sqs (snd mt) ;;
            ret (if ok : bool then None else Some (messageId (fst mt))))
         work) w =
  (Throw (ThrownError (Error ("No handler for queue " ++ name))), w).
Proof.
  intros Hload Hall. induction Hall as [|[m t] work Hname Hall IH];
    intros Hne; [now contradiction Hne|].
  cbn [map promiseAll fst snd] in *. unfold bind at 1.
  rewrite (handleOneMessage_no_module _ _ _ _ _ Hname Hload).
  destruct work as [|mt work].
  - reflexivity.
  - rewrite IH by discriminate. reflexivity.
Qed.

Lemma combine_all {A B} (P : A -> Prop) (l : list A) (l' : list B) :
  Forall P l -> Forall (fun ab => P (fst ab)) (combine l l').
Proof.
  intros H. revert l'. induction H as [|a l Ha Hl IH]; intros [|b l']; simpl;
    constructor; auto.
Qed.

(** X5. When the project has no module for the queue that the messages of a
    batch come from, the batch dispatcher rejects the whole batch with the
    error "No handler for queue" and the queue name, on the FIFO path as on
    the standard path: it gives no failure report, calls no handler, logs
    nothing and deletes nothing. *)
Theorem missing_module_rejects_batch (first : SQSMessage)
    (rest : list SQSMessage) (sqs : SQS) (w : World) (name : string) :
  Forall (fun m => getQueueName m = inr name) (first :: rest) ->
  loadModule ("queues/" ++ name) = None ->
  fst (handleSQSMessages (first :: rest) sqs w) =
    Throw (ThrownError (Error ("No handler for queue " ++ name))) /\
  trace (snd (handleSQSMessages (first :: rest) sqs w)) = trace w /\
  deleted (snd (handleSQSMessages (first :: rest) sqs w)) = deleted w /\
  controllers (snd (handleSQSMessages (first :: rest) sqs w)) = controllers w.
Proof.
  intros Hall Hload.
  assert (Hname : getQueueName first = inr name) by now inversion Hall.
  assert (Hdispatch :
    handleSQSMessages (first :: rest) sqs w =
    (if Js.endsWith name ".fifo"
     then handleFifoMessages (first :: rest) sqs w
     else handleStandardMessages (first :: rest) sqs w)).
  { unfold handleSQSMessages, isFifoQueue. rewrite Hname.
    cbn [liftError]. unfold bind at 1. unfold ret at 1.
    destruct (Js.endsWith name ".fifo"); reflexivity. }
  rewrite Hdispatch. destruct (Js.endsWith name ".fifo").
  - rewrite fifo_step, turn_unfold.
    rewrite (handleOneMessage_no_module _ _ _ _ _ Hname Hload).
    repeat split; reflexivity.
  - assert (Hrun : exists w0,
              handleStandardMessages (first :: rest) sqs w =
              (Throw (ThrownError (Error ("No handler for queue " ++ name))), w0)
              /\ trace w0 = trace w /\ deleted w0 = deleted w
              /\ controllers w0 = controllers w).
    { unfold handleStandardMessages. cbv zeta. unfold bind at 1.
      rewrite (all_without_module sqs name).
      + eexists. split; [reflexivity|]. repeat split; reflexivity.
      + exact Hload.
      + exact (combine_all (fun m => getQueueName m = inr name) _ _ Hall).
      + cbn. discriminate. }
    destruct Hrun as (w0 & -> & Ht & Hd & Hc). auto.
Qed.

(** X6. An empty report of the FIFO loop means that every message of the
    batch was handled successfully, in arrival order: each was announced,
    the budget was read once per message, and unless the client is in local
    mode each message was deleted under its queue URL, in order.  Conversely
    a batch whose messages all succeed in turn gives the empty report. *)
Theorem fifo_empty_report (messages : list SQSMessage) (sqs : SQS)
    (w w' : World) :
  handleFifoMessages messages sqs w = (Ret [], w') ->
  succeedInTurn messages sqs w = Some w' /\
  handled (trace w') = handled (trace w) ++ map messageId messages /\
  reads w' = (reads w + List.length messages)%nat /\
  (region sqs <> "localhost" ->
   deleted w' = deleted w ++ flat_map deleteRequest messages) /\
  (region sqs = "localhost" -> deleted w' = deleted w) /\
  (forall v v', succeedInTurn messages sqs v = Some v' ->
                handleFifoMessages messages sqs v = (Ret [], v')).
Proof.
  intros Hrun.
  assert (Hall : succeedInTurn messages sqs w = Some w').
  { revert w Hrun. induction messages as [|m rest IH]; intros w Hrun.
    - cbn in Hrun. now injection Hrun as <-.
    - rewrite fifo_step in Hrun. cbn [succeedInTurn].
      destruct (turn m sqs w) as [[[|]|e|] w1]; try discriminate.
      now apply IH. }
  split; [exact Hall|].
  destruct (succeedInTurn_spec messages sqs w w' [] Hall)
    as (_ & Hhandled & Hreads & Hlocal & Hremote).
  split; [exact Hhandled|]. split; [exact Hreads|].
  split; [intros R; exact (proj1 (Hremote R))|].
  split; [exact Hlocal|].
  intros v v' Hv.
  destruct (succeedInTurn_spec messages sqs v v' [] Hv) as (Hloop & _).
  rewrite app_nil_r in Hloop. rewrite Hloop. reflexivity.
Qed.

Lemma keepIds_cons (i : option string) (ids : list (option string)) :
  keepIds (i :: ids) = keepIds [i] ++ keepIds ids.
Proof. unfold keepIds. simpl. now rewrite app_nil_r. Qed.

Lemma has_cons_other (x y : string) (l : list string) :
  x <> y -> Js.has x (y :: l) = Js.has x l.
Proof.
  intros Hne. unfold Js.has. simpl.
  destruct (String.eqb x y) eqn:E; [|reflexivity].
  apply String.eqb_eq in E. contradiction.
Qed.

Lemma has_false (x : string) (l : list string) :
  ~ In x l -> Js.has x l = false.
Proof.
  intros Hnot. unfold Js.has. apply not_true_is_false. intros H.
  apply existsb_exists in H. destruct H as (y & Hin & Heq).
  apply String.eqb_eq in Heq. now subst.
Qed.

(** The tasks that [handleStandardMessages] hands to [Promise.all]. *)
Lemma standard_tasks (sqs : SQS) (work : list (SQSMessage * Z)) :
  forall (w w' : World) (results : list (option string)),
    NoDup (map (fun mt => messageId (fst mt)) work) ->
    Forall (fun mt => messageId (fst mt) <> "") work ->
    promiseAll
      (map (fun mt : SQSMessage * Z =>
              ok <- handleOneMessage (fst mt) sqs (snd mt) ;;
              ret (if ok : bool then None else Some (messageId (fst mt))))
           work) w = (Ret results, w') ->
    incl (keepIds results) (map (fun mt => messageId (fst mt)) work) /\
    keepIds results =
      map messageId (reported (keepIds results) (map fst work)) /\
    reads w' = reads w /\
    (region sqs <> "localhost" ->
     deleted w' =
       deleted w
       ++ flat_map deleteRequest (acknowledged (keepIds results) (map fst work))) /\
    (region sqs = "localhost" -> deleted w' = deleted w).
Proof.
  induction work as [|[m t] work IH]; intros w w' results Hnodup Hids Hrun.
  - cbn in Hrun. injection Hrun as <- <-. cbn.
    rewrite app_nil_r. repeat split; auto. intros x [].
  - cbn [map promiseAll fst snd] in Hrun.
    unfold bind at 1 in Hrun.
    destruct (handleOneMessage m sqs t w) as [[ok|e|] w1] eqn:Hone;
      cbv beta iota in Hrun; unfold ret at 1 in Hrun;
      destruct (promiseAll _ w1) as [[rs|e'|] w2] eqn:Hrest;
      try discriminate.
    injection Hrun as <- <-.
    cbn [map fst] in Hnodup. apply NoDup_cons_iff in Hnodup.
    destruct Hnodup as [Hfresh Hnodup].
    apply Forall_cons_iff in Hids. destruct Hids as [Hid Hids].
    cbn [fst] in Hid.
    destruct (IH w1 w2 rs Hnodup Hids Hrest)
      as (Hincl & Hreported & Hreads & Hremote & Hlocal).
    assert (Hnot : ~ In (messageId m) (keepIds rs))
      by (intros Hin; apply Hfresh; now apply Hincl).
    assert (Hothers : forall m', In m' (map fst work) -> messageId m' <> messageId m).
    { intros m' Hin Heq. apply Hfresh. rewrite <- Heq.
      apply in_map_iff in Hin. destruct Hin as (mt & <- & Hin).
      apply in_map_iff. now exists mt. }
    rewrite keepIds_cons. cbn [map fst].
    destruct ok.
    + apply handleOneMessage_true in Hone.
      destruct Hone as (_ & Hr1 & Hl1 & Hd1).
      cbn [keepIds flat_map app].
      unfold reported, acknowledged. cbn [filter].
      rewrite (has_false _ _ Hnot). cbn [negb flat_map].
      split; [intros x Hx; right; now apply Hincl|].
      split; [exact Hreported|]. split; [congruence|]. split.
      * intros R. rewrite (Hremote R), (proj1 (Hd1 R)). now rewrite app_assoc.
      * intros L. rewrite (Hlocal L). auto.
    + apply handleOneMessage_false in Hone.
      destruct Hone as (_ & Hr1 & Hd1).
      assert (Hkeep : keepIds [Some (messageId m)] = [messageId m]).
      { unfold keepIds. cbn. destruct (messageId m); [now contradiction Hid|].
        reflexivity. }
      rewrite Hkeep. cbn [app].
      assert (Hsame : forall f : bool -> bool,
                filter (fun m' => f (Js.has (messageId m') (messageId m :: keepIds rs)))
                  (map fst work) =
                filter (fun m' => f (Js.has (messageId m') (keepIds rs)))
                  (map fst work)).
      { intros f. apply filter_ext_in. intros m' Hin.
        now rewrite (has_cons_other _ _ _ (Hothers m' Hin)). }
      unfold reported, acknowledged. cbn [filter].
      assert (Hself : Js.has (messageId m) (messageId m :: keepIds rs) = true).
      { unfold Js.has. cbn. now rewrite String.eqb_refl. }
      rewrite Hself. cbn [negb map].
      rewrite (Hsame (fun b => b)), (Hsame negb).
      split; [intros x [<-|Hx]; [now left|right; now apply Hincl]|].
      split; [f_equal; exact Hreported|]. split; [congruence|]. split.
      * intros R. rewrite (Hremote R), Hd1. reflexivity.
      * intros L. rewrite (Hlocal L). auto.
Qed.

Lemma combine_fst {A B} (l : list A) (l' : list B) :
  List.length l = List.length l' -> map fst (combine l l') = l.
Proof.
  revert l'. induction l as [|a l IH]; intros [|b l'] Hlen; simpl in *;
    try reflexivity; try discriminate.
  f_equal. apply IH. lia.
Qed.

(** X7. The report of a standard batch and the deletions agree.  For a batch
    whose message ids are distinct and not empty, when the dispatcher
    returns its report: the report lists, in batch order, the ids of the
    messages it names; the budget was read once per message; and unless the
    client is in local mode the messages deleted from the queue are exactly
    those the report does not name, each once and under its queue URL (in
    whatever order the parallel handlers finish).  In local mode nothing is
    deleted. *)
Theorem standard_batch_report (messages : list SQSMessage) (sqs : SQS)
    (w w' : World) (failures : list string) :
  NoDup (map messageId messages) ->
  Forall (fun m => messageId m <> "") messages ->
  handleStandardMessages messages sqs w = (Ret failures, w') ->
  failures = map messageId (reported failures messages) /\
  reads w' = (reads w + List.length messages)%nat /\
  (region sqs <> "localhost" ->
   Permutation (deleted w')
     (deleted w ++ flat_map deleteRequest (acknowledged failures messages))) /\
  (region sqs = "localhost" -> deleted w' = deleted w).
Proof.
  intros Hnodup Hids Hrun. unfold handleStandardMessages in Hrun.
  cbv zeta in Hrun. unfold bind at 1 in Hrun.
  set (work := combine messages _) in Hrun.
  assert (Hwork : map fst work = messages).
  { apply combine_fst. now rewrite length_map, length_seq. }
  destruct (promiseAll _ _) as [[results|e|] w1] eqn:Hall; try discriminate.
  unfold ret in Hrun. injection Hrun as <- <-.
  apply standard_tasks in Hall.
  - rewrite Hwork in Hall.
    destruct Hall as (_ & Hreported & Hreads & Hremote & Hlocal).
    cbn [reads deleted] in Hreads, Hremote, Hlocal.
    repeat split; auto. intros R. rewrite (Hremote R). apply Permutation_refl.
  - rewrite <- Hwork in Hnodup. now rewrite map_map in Hnodup.
  - rewrite <- Hwork in Hids. rewrite Forall_map in Hids. exact Hids.
Qed.

Lemma lastValue_from (name : string) (entries : list (string * string)) :
  forall (all : list (string * string)) (found : option string),
    Js.getProperty name all = found ->
    Js.getProperty name
      (fold_left (fun all nv => Js.setProperty (fst nv) (snd nv) all) entries all)
    = fold_left (fun found nv => if String.eqb (fst nv) name then Some (snd nv)
                                 else found) entries found.
Proof.
  induction entries as [|[k v] entries IH]; intros all found Hall; simpl.
  - exact Hall.
  - apply IH. destruct (String.eqb k name) eqn:E.
    + apply String.eqb_eq in E. subst k.
      apply HttpProps.getProperty_setProperty_same.
    + rewrite HttpProps.getProperty_setProperty_other; [exact Hall|].
      intros ->. now rewrite String.eqb_refl in E.
Qed.

Lemma setProperty_keys (n v : string) (all : list (string * string)) (k : string) :
  In k (map fst (Js.setProperty n v all)) -> k = n \/ In k (map fst all).
Proof.
  induction all as [|[n' v'] all IH]; simpl.
  - intros [<-|[]]. now left.
  - destruct (String.eqb n' n) eqn:E; simpl.
    + auto.
    + intros [<-|Hin]; [auto|]. destruct (IH Hin); auto.
Qed.

Lemma setProperty_NoDup (n v : string) (all : list (string * string)) :
  NoDup (map fst all) -> NoDup (map fst (Js.setProperty n v all)).
Proof.
  induction all as [|[n' v'] all IH]; simpl; intros Hnodup.
  - repeat constructor. intros [].
  - destruct (String.eqb n' n) eqn:E; simpl; [exact Hnodup|].
    apply NoDup_cons_iff in Hnodup. destruct Hnodup as [Hfresh Hnodup].
    constructor; [|now apply IH].
    intros Hin. apply setProperty_keys in Hin. destruct Hin as [->|Hin].
    + now rewrite String.eqb_refl in E.
    + contradiction.
Qed.

Lemma setProperty_keeps (n v : string) (all : list (string * string)) (k : string) :
  In k (map fst all) -> In k (map fst (Js.setProperty n v all)).
Proof.
  induction all as [|[n' v'] all IH]; simpl; [contradiction|].
  destruct (String.eqb n' n); simpl; tauto.
Qed.

Lemma setProperty_adds (n v : string) (all : list (string * string)) :
  In n (map fst (Js.setProperty n v all)).
Proof.
  induction all as [|[n' v'] all IH]; simpl; [now left|].
  destruct (String.eqb n' n) eqn:E; simpl; [|tauto].
  apply String.eqb_eq in E. now left.
Qed.

Lemma assigned_NoDup (entries : list (string * string)) :
  forall all : list (string * string),
    NoDup (map fst all) ->
    NoDup (map fst (fold_left
                      (fun all nv => Js.setProperty (fst nv) (snd nv) all)
                      entries all)).
Proof.
  induction entries as [|[k v] rest IH]; intros all Hall; simpl; [exact Hall|].
  apply IH. now apply setProperty_NoDup.
Qed.

Lemma assigned_keys (entries : list (string * string)) :
  forall (all : list (string * string)) k,
    In k (map fst (fold_left
                     (fun all nv => Js.setProperty (fst nv) (snd nv) all)
                     entries all)) <->
    In k (map fst all) \/ In k (map fst entries).
Proof.
  induction entries as [|[n v] rest IH]; intros all k; simpl.
  - tauto.
  - rewrite IH. split.
    + intros [Hin|Hin]; [|tauto].
      apply setProperty_keys in Hin. destruct Hin as [->|Hin]; tauto.
    + intros [Hin|[<-|Hin]]; [| |tauto]; left.
      * now apply setProperty_keeps.
      * apply setProperty_adds.
Qed.

(** X8. The [params] that a handler is given hold exactly the parameter
    names of the "params" attribute of the message, each once, with the
    value of the last entry of that name: of a name that the attribute
    repeats, only the last value gets through. *)
Theorem params_last_wins (message : SQSMessage) (name : string)
    (controller : nat) :
  let entries :=
    URLSearchParams_entries (stringValue "params" (messageAttributes message)) in
  let given := params (getMetadata message name controller) in
  NoDup (map fst given) /\
  (forall k, Js.getProperty k given = lastValue k entries) /\
  (forall k, In k (map fst given) <-> In k (map fst entries)).
Proof.
  intros entries given. subst given. cbn [params getMetadata].
  fold entries.
  split; [apply assigned_NoDup; constructor|]. split.
  - intros k. unfold lastValue. now apply lastValue_from.
  - intros k. rewrite assigned_keys. simpl. tauto.
Qed.

(** X9. A message that declares the type "application/json" and whose body
    is no JSON fails before its handler is called: unless the smaller of
    the timeout and of the remaining time is zero or less, the error is
    logged for the message, the handler is not called, the message is not
    deleted, and the answer is [false] (or none, when [onError] never
    settles). *)
Theorem unparseable_json_fails_message (m : SQSMessage) (sqs : SQS) (t : Z)
    (w : World) (name : string) (module : QueueModule) :
  getQueueName m = inr name ->
  loadModule ("queues/" ++ name) = Some module ->
  Js.le (Js.Math_min (getTimeout (config module)) (Js.Int t)) (Js.Int 0) = false ->
  stringValue "type" (messageAttributes m) = Some "application/json" ->
  JSON_parse (body m) = None ->
  let run := handleOneMessage m sqs t w in
  (fst run = Ret false \/ fst run = Never) /\
  (exists error, getPayload m = inl error /\
                 errorsLogged (trace (snd run)) =
                   errorsLogged (trace w) ++ [ThrownError error]) /\
  signalsGiven (trace (snd run)) = signalsGiven (trace w) /\
  deleted (snd run) = deleted w.
Proof.
  intros Hname Hload Hpositive Htype Hparse run. subst run.
  assert (Hpayload : getPayload m = inl (SyntaxError "Unexpected token in JSON"))
    by (unfold getPayload; now rewrite Htype, Hparse).
  destruct (handleOneMessage m sqs t w) as [out w'] eqn:Hrun. cbn [fst snd].
  unfold handleOneMessage in Hrun. rewrite Hname in Hrun.
  cbn [liftError] in Hrun. unfold bind at 1 in Hrun. unfold ret at 1 in Hrun.
  rewrite Hload in Hrun. cbv zeta in Hrun. rewrite Hpositive, Hpayload in Hrun.
  unfold liftError, await, bind, tryCatch, finally, effect, ret, throw, never,
    newAbortController in Hrun.
  cbv beta iota in Hrun.
  repeat run_step.
  all: simpl; rewrite ?errorsLogged_app, ?signalsGiven_app; simpl;
    rewrite ?app_nil_r.
  all: split; [auto|]; split; [eauto|]; split; reflexivity.
Qed.

End WithPlatform.

Lemma success_is_sound_witness :
  handleOneMessage (platform := SqsSamples.textPlatform)
    (runtime := SqsSamples.runtime "B") SqsSamples.A SqsSamples.remote 60000
    emptyWorld = (Ret true, afterOne SqsSamples.A SqsSamples.remote) /\
  exists url,
    getQueueURL SqsSamples.A = inr url /\
    deleteMessage SqsSamples.remote url (receiptHandle SqsSamples.A) = Fulfilled /\
    deleted (afterOne SqsSamples.A SqsSamples.remote) =
      [(url, receiptHandle SqsSamples.A)].
Proof.
  assert (H : handleOneMessage (platform := SqsSamples.textPlatform)
                (runtime := SqsSamples.runtime "B") SqsSamples.A
                SqsSamples.remote 60000 emptyWorld =
              (Ret true, afterOne SqsSamples.A SqsSamples.remote))
    by (vm_compute; reflexivity).
  split; [exact H|].
  destruct (success_is_sound (platform := SqsSamples.textPlatform)
              (runtime := SqsSamples.runtime "B") _ _ _ _ _ H)
    as (name & module & payload & ms & _ & _ & _ & _ & _ & Hdeleted).
  apply Hdeleted. discriminate.
Defined.

Lemma onError_at_most_once_witness :
  handleOneMessage (platform := SqsSamples.textPlatform)
    (runtime := SqsSamples.runtime "B") SqsSamples.B SqsSamples.remote 60000
    emptyWorld = (Ret false, afterOne SqsSamples.B SqsSamples.remote) /\
  exists errors calls,
    errorsLogged (trace (afterOne SqsSamples.B SqsSamples.remote)) = errors /\
    onErrorCalls (trace (afterOne SqsSamples.B SqsSamples.remote)) = calls /\
    (List.length errors <= 1)%nat /\
    (calls = [] \/ calls = map asError errors).
Proof.
  assert (H : handleOneMessage (platform := SqsSamples.textPlatform)
                (runtime := SqsSamples.runtime "B") SqsSamples.B
                SqsSamples.remote 60000 emptyWorld =
              (Ret false, afterOne SqsSamples.B SqsSamples.remote))
    by (vm_compute; reflexivity).
  split; [exact H|].
  destruct (onError_at_most_once (platform := SqsSamples.textPlatform)
              (runtime := SqsSamples.runtime "B") _ _ _ _ _ _ H)
    as (errors & calls & Herrors & Hcalls & Hlen & Hsame & _).
  exists errors, calls. auto.
Defined.

Lemma missing_module_rejects_batch_witness :
  (Forall (fun m => getQueueName m = inr "other") orphans /\
   loadModule (Runtime := SqsSamples.runtime "B") ("queues/" ++ "other") = None) /\
  fst (handleSQSMessages (platform := SqsSamples.textPlatform)
         (runtime := SqsSamples.runtime "B") orphans SqsSamples.remote
         emptyWorld) =
    Throw (ThrownError (Error "No handler for queue other")) /\
  deleted (snd (handleSQSMessages (platform := SqsSamples.textPlatform)
                  (runtime := SqsSamples.runtime "B") orphans SqsSamples.remote
                  emptyWorld)) = [].
Proof.
  assert (H1 : Forall (fun m => getQueueName m = inr "other") orphans)
    by (repeat constructor).
  assert (H2 : loadModule (Runtime := SqsSamples.runtime "B")
                 ("queues/" ++ "other") = None) by reflexivity.
  split; [auto|].
  destruct (missing_module_rejects_batch (platform := SqsSamples.textPlatform)
              (runtime := SqsSamples.runtime "B") _ _ SqsSamples.remote
              emptyWorld "other" H1 H2) as (Hthrow & _ & Hdeleted & _).
  split; [exact Hthrow|exact Hdeleted].
Defined.

Lemma fifo_empty_report_witness :
  handleFifoMessages (platform := SqsSamples.textPlatform)
    (runtime := SqsSamples.runtime "B") [SqsSamples.A; SqsSamples.C]
    SqsSamples.remote emptyWorld =
    (Ret [], snd (handleFifoMessages (platform := SqsSamples.textPlatform)
                    (runtime := SqsSamples.runtime "B")
                    [SqsSamples.A; SqsSamples.C] SqsSamples.remote emptyWorld)) /\
  handled (trace (snd (handleFifoMessages (platform := SqsSamples.textPlatform)
                    (runtime := SqsSamples.runtime "B")
                    [SqsSamples.A; SqsSamples.C] SqsSamples.remote emptyWorld))) =
    ["A"; "C"] /\
  deleted (snd (handleFifoMessages (platform := SqsSamples.textPlatform)
                    (runtime := SqsSamples.runtime "B")
                    [SqsSamples.A; SqsSamples.C] SqsSamples.remote emptyWorld)) =
    flat_map deleteRequest [SqsSamples.A; SqsSamples.C].
Proof.
  assert (H : handleFifoMessages (platform := SqsSamples.textPlatform)
                (runtime := SqsSamples.runtime "B") [SqsSamples.A; SqsSamples.C]
                SqsSamples.remote emptyWorld =
              (Ret [], snd (handleFifoMessages (platform := SqsSamples.textPlatform)
                    (runtime := SqsSamples.runtime "B")
                    [SqsSamples.A; SqsSamples.C] SqsSamples.remote emptyWorld)))
    by (vm_compute; reflexivity).
  split; [exact H|].
  destruct (fifo_empty_report (platform := SqsSamples.textPlatform)
              (runtime := SqsSamples.runtime "B") _ _ _ _ H)
    as (_ & Hhandled & _ & Hremote & _).
  split; [exact Hhandled|]. apply Hremote. discriminate.
Defined.

Lemma standard_batch_report_witness :
  (NoDup (map messageId standardBatch) /\
   Forall (fun m => messageId m <> "") standardBatch /\
   handleStandardMessages (platform := SqsSamples.textPlatform)
     (runtime := SqsSamples.runtime "B") standardBatch SqsSamples.remote
     emptyWorld =
     (Ret ["B"],
      snd (handleStandardMessages (platform := SqsSamples.textPlatform)
             (runtime := SqsSamples.runtime "B") standardBatch
             SqsSamples.remote emptyWorld))) /\
  ["B"] = map messageId (reported ["B"] standardBatch) /\
  Permutation
    (deleted (snd (handleStandardMessages (platform := SqsSamples.textPlatform)
                     (runtime := SqsSamples.runtime "B") standardBatch
                     SqsSamples.remote emptyWorld)))
    (flat_map deleteRequest (acknowledged ["B"] standardBatch)).
Proof.
  assert (H1 : NoDup (map messageId standardBatch)).
  { repeat constructor; simpl; intuition discriminate. }
  assert (H2 : Forall (fun m => messageId m <> "") standardBatch)
    by (repeat constructor; discriminate).
  assert (H3 : handleStandardMessages (platform := SqsSamples.textPlatform)
     (runtime := SqsSamples.runtime "B") standardBatch SqsSamples.remote
     emptyWorld =
     (Ret ["B"],
      snd (handleStandardMessages (platform := SqsSamples.textPlatform)
             (runtime := SqsSamples.runtime "B") standardBatch
             SqsSamples.remote emptyWorld))) by (vm_compute; reflexivity).
  split; [auto|].
  destruct (standard_batch_report (platform := SqsSamples.textPlatform)
              (runtime := SqsSamples.runtime "B") _ _ _ _ _ H1 H2 H3)
    as (Hreport & _ & Hremote & _).
  split; [exact Hreport|]. apply Hremote. discriminate.
Defined.

Lemma unparseable_json_fails_message_witness :
  (getQueueName declaredJson = inr "jobs" /\
   stringValue "type" (messageAttributes declaredJson) = Some "application/json" /\
   JSON_parse (Platform := SqsSamples.textPlatform) (body declaredJson) = None) /\
  fst (handleOneMessage (platform := SqsSamples.textPlatform)
         (runtime := SqsSamples.runtime "B") declaredJson SqsSamples.remote
         60000 emptyWorld) = Ret false /\
  deleted (snd (handleOneMessage (platform := SqsSamples.textPlatform)
                  (runtime := SqsSamples.runtime "B") declaredJson
                  SqsSamples.remote 60000 emptyWorld)) = [].
Proof.
  assert (H1 : getQueueName declaredJson = inr "jobs") by reflexivity.
  assert (H2 : loadModule (Runtime := SqsSamples.runtime "B") ("queues/" ++ "jobs")
               = Some (SqsSamples.failingOn "B")) by reflexivity.
  assert (H3 : Js.le (Js.Math_min
                        (getTimeout (config (SqsSamples.failingOn "B")))
                        (Js.Int 60000)) (Js.Int 0) = false)
    by reflexivity.
  assert (H4 : stringValue "type" (messageAttributes declaredJson) =
               Some "application/json") by reflexivity.
  assert (H5 : JSON_parse (Platform := SqsSamples.textPlatform)
                 (body declaredJson) = None) by reflexivity.
  split; [auto|].
  destruct (unparseable_json_fails_message (platform := SqsSamples.textPlatform)
              (runtime := SqsSamples.runtime "B") declaredJson SqsSamples.remote
              60000 emptyWorld "jobs" (SqsSamples.failingOn "B")
              H1 H2 H3 H4 H5) as (Hout & _ & _ & Hdeleted).
  split; [|exact Hdeleted].
  destruct Hout as [Hout|Hout]; [exact Hout|]. vm_compute in Hout. discriminate.
Defined.

Lemma signal_aborted_on_return_witness :
  fst (handleOneMessage (platform := SqsSamples.textPlatform)
         (runtime := SqsSamples.runtime "B") SqsSamples.B SqsSamples.remote
         60000 emptyWorld) = Ret false /\
  controllers (snd (handleOneMessage (platform := SqsSamples.textPlatform)
         (runtime := SqsSamples.runtime "B") SqsSamples.B SqsSamples.remote
         60000 emptyWorld)) = [true].
Proof.
  assert (H : handleOneMessage (platform := SqsSamples.textPlatform)
         (runtime := SqsSamples.runtime "B") SqsSamples.B SqsSamples.remote
         60000 emptyWorld =
         (Ret false,
          snd (handleOneMessage (platform := SqsSamples.textPlatform)
         (runtime := SqsSamples.runtime "B") SqsSamples.B SqsSamples.remote
         60000 emptyWorld))) by (vm_compute; reflexivity).
  split; [vm_compute; reflexivity|].
  destruct (signal_aborted_on_return (platform := SqsSamples.textPlatform)
              (runtime := SqsSamples.runtime "B") SqsSamples.B SqsSamples.remote
              60000 emptyWorld _ _ H) as [[Hc _]|[Hc _]].
  - discriminate.
  - vm_compute. reflexivity.
  - exact Hc.
Defined.

Lemma queue_name_and_url_from_arn_witness :
  (eventSourceARN (SqsSamples.sample "A" "jobs.fifo" None) =
     ("arn:aws:sqs:" ++ "us-east-2" ++ ":" ++ "123456789012" ++ ":"
      ++ "project-branch" ++ "__" ++ "jobs.fifo")%string /\
   "jobs.fifo" <> "") /\
  getQueueName (SqsSamples.sample "A" "jobs.fifo" None) = inr "jobs.fifo" /\
  getQueueURL (SqsSamples.sample "A" "jobs.fifo" None) =
    inr "https://sqs.us-east-2.amazonaws.com/123456789012/project-branch__jobs.fifo" /\
  isFifoQueue (SqsSamples.sample "A" "jobs.fifo" None) = inr true.
Proof.
  assert (H1 : eventSourceARN (SqsSamples.sample "A" "jobs.fifo" None) =
     ("arn:aws:sqs:" ++ "us-east-2" ++ ":" ++ "123456789012" ++ ":"
      ++ "project-branch" ++ "__" ++ "jobs.fifo")%string) by reflexivity.
  assert (H2 : "jobs.fifo" <> "") by discriminate.
  split; [auto|].
  exact (queue_name_and_url_from_arn (SqsSamples.sample "A" "jobs.fifo" None)
           "us-east-2" "123456789012" "project-branch" "jobs.fifo"
           H1 eq_refl eq_refl eq_refl eq_refl eq_refl H2).
Defined.

End SqsDispatchMoreProps.


(** * Per-record dispatcher *)

Module LegacySqsProps.
Import SqsDispatch LegacySqs LegacyGroups.

Lemma getGroup_addToGroup_same (g : string) (m : SQSMessage)
    (groups : list (string * list SQSMessage)) :
  getGroup g (addToGroup g m groups) =
  Some (match getGroup g groups with Some ms => ms ++ [m] | None => [m] end).
Proof.
  induction groups as [|[g' ms] groups IH]; simpl.
  - now rewrite String.eqb_refl.
  - destruct (String.eqb g' g) eqn:E; simpl; rewrite E; auto.
Qed.

Lemma getGroup_addToGroup_other (g g0 : string) (m : SQSMessage)
    (groups : list (string * list SQSMessage)) :
  g0 <> g -> getGroup g0 (addToGroup g m groups) = getGroup g0 groups.
Proof.
  intros Hne. induction groups as [|[g' ms] groups IH]; simpl.
  - destruct (String.eqb g g0) eqn:E; [|reflexivity].
    apply String.eqb_eq in E. congruence.
  - destruct (String.eqb g' g) eqn:E; simpl.
    + apply String.eqb_eq in E. subst g'.
      destruct (String.eqb g g0) eqn:E'; [|reflexivity].
      apply String.eqb_eq in E'. congruence.
    + now rewrite IH.
Qed.

Lemma addToGroup_keys (g : string) (m : SQSMessage)
    (groups : list (string * list SQSMessage)) (k : string) :
  In k (map fst (addToGroup g m groups)) -> k = g \/ In k (map fst groups).
Proof.
  induction groups as [|[g' ms] groups IH]; simpl.
  - intros [<-|[]]. now left.
  - destruct (String.eqb g' g) eqn:E; simpl.
    + auto.
    + intros [<-|Hin]; [auto|]. destruct (IH Hin); auto.
Qed.

Lemma addToGroup_NoDup (g : string) (m : SQSMessage)
    (groups : list (string * list SQSMessage)) :
  NoDup (map fst groups) -> NoDup (map fst (addToGroup g m groups)).
Proof.
  induction groups as [|[g' ms] groups IH]; simpl; intros Hnodup.
  - repeat constructor. intros [].
  - destruct (String.eqb g' g) eqn:E; simpl; [exact Hnodup|].
    apply NoDup_cons_iff in Hnodup. destruct Hnodup as [Hfresh Hnodup].
    constructor; [|now apply IH].
    intros Hin. apply addToGroup_keys in Hin. destruct Hin as [->|Hin].
    + now rewrite String.eqb_refl in E.
    + contradiction.
Qed.

Lemma ofGroup_app (g : string) (a b : list SQSMessage) :
  ofGroup g (a ++ b) = ofGroup g a ++ ofGroup g b.
Proof. unfold ofGroup. apply filter_app. Qed.

Lemma fifoGroups_from (later : list SQSMessage) :
  forall (seen : list SQSMessage) (groups : list (string * list SQSMessage)),
    groupedBy groups seen ->
    groupedBy
      (fold_left
         (fun groups m =>
            if isFifo m
            then match MessageGroupId (attributes m) with
                 | Some g => addToGroup g m groups
                 | None => groups
                 end
            else groups)
         later groups)
      (seen ++ later).
Proof.
  induction later as [|m later IH]; intros seen groups Hgroups.
  - simpl. now rewrite app_nil_r.
  - cbn [fold_left].
    replace (seen ++ m :: later) with ((seen ++ [m]) ++ later)
      by (now rewrite <- app_assoc).
    apply IH. destruct Hgroups as [Hnodup Hget].
    assert (Hskip : isFifo m = false \/ MessageGroupId (attributes m) = None ->
                    forall g, ofGroup g (seen ++ [m]) = ofGroup g seen).
    { intros Hno g. rewrite ofGroup_app. unfold ofGroup at 2. cbn [filter].
      destruct Hno as [E|E]; rewrite E; cbn; [|rewrite andb_false_r];
        now rewrite app_nil_r. }
    destruct (isFifo m) eqn:Hfifo.
    + destruct (MessageGroupId (attributes m)) as [g|] eqn:Hg.
      * split; [now apply addToGroup_NoDup|].
        intros g0. rewrite ofGroup_app. unfold ofGroup at 2. cbn [filter].
        rewrite Hfifo, Hg. cbn [andb].
        destruct (String.eqb g g0) eqn:E.
        -- apply String.eqb_eq in E. subst g0.
           rewrite getGroup_addToGroup_same, Hget.
           destruct (ofGroup g seen); reflexivity.
        -- rewrite app_nil_r, getGroup_addToGroup_other, Hget; [reflexivity|].
           intros ->. now rewrite String.eqb_refl in E.
      * split; [exact Hnodup|]. intros g. rewrite Hskip; auto.
    + split; [exact Hnodup|]. intros g. rewrite Hskip; auto.
Qed.

Lemma getGroup_In (g : string) (ms : list SQSMessage)
    (groups : list (string * list SQSMessage)) :
  NoDup (map fst groups) -> In (g, ms) groups -> getGroup g groups = Some ms.
Proof.
  induction groups as [|[g' ms'] groups IH]; simpl; intros Hnodup Hin.
  - contradiction.
  - apply NoDup_cons_iff in Hnodup. destruct Hnodup as [Hfresh Hnodup].
    destruct Hin as [[= -> ->]|Hin].
    + now rewrite String.eqb_refl.
    + destruct (String.eqb g' g) eqn:E; [|now apply IH].
      apply String.eqb_eq in E. subst g'. exfalso. apply Hfresh.
      apply in_map_iff. now exists (g, ms).
Qed.

(** X10. The groups that the per-record dispatcher builds partition the FIFO
    records of the batch by group id: the list kept under a group id holds
    exactly the records that carry a non-empty [MessageGroupId] equal to it,
    in the order of the batch; a group id that no record carries has no
    entry; no group id has two entries; and no entry is empty or kept under
    the empty id. *)
Theorem fifoGroups_partition (messages : list SQSMessage) :
  (forall g, getGroup g (fifoGroups messages) =
             match ofGroup g messages with [] => None | l => Some l end) /\
  NoDup (map fst (fifoGroups messages)) /\
  (forall g ms, In (g, ms) (fifoGroups messages) ->
                ms = ofGroup g messages /\ ms <> [] /\ g <> "") /\
  (forall m, In m messages ->
             In m (unordered messages) \/
             exists g, MessageGroupId (attributes m) = Some g /\
                       In m (ofGroup g messages)).
Proof.
  assert (Hall : groupedBy (fifoGroups messages) messages).
  { unfold fifoGroups. apply (fifoGroups_from messages [] []).
    split; [constructor|]. intros g. reflexivity. }
  destruct Hall as [Hnodup Hget].
  split; [exact Hget|]. split; [exact Hnodup|]. split.
  - intros g ms Hin. pose proof (getGroup_In g ms _ Hnodup Hin) as Hsome.
    rewrite Hget in Hsome.
    destruct (ofGroup g messages) as [|m l] eqn:Hof; [discriminate|].
    injection Hsome as <-. split; [reflexivity|]. split; [discriminate|].
    assert (Hm : In m (ofGroup g messages)) by (rewrite Hof; now left).
    unfold ofGroup in Hm. apply filter_In in Hm. destruct Hm as [_ Hm].
    apply andb_prop in Hm. destruct Hm as [Hfifo Hsame].
    unfold isFifo in Hfifo.
    destruct (MessageGroupId (attributes m)) as [g'|]; [|discriminate].
    apply String.eqb_eq in Hsame. subst g'.
    intros ->. discriminate.
  - intros m Hin. destruct (isFifo m) eqn:Hfifo.
    + right. pose proof Hfifo as Hfifo'. unfold isFifo in Hfifo'.
      destruct (MessageGroupId (attributes m)) as [g|] eqn:Hg; [|discriminate].
      exists g. split; [reflexivity|].
      unfold ofGroup. apply filter_In. split; [exact Hin|].
      now rewrite Hfifo, Hg, String.eqb_refl.
    + left. unfold unordered. apply filter_In. split; [exact Hin|].
      now rewrite Hfifo.
Qed.

End LegacySqsProps.


(** * HTTP engine: further properties *)

Module HttpMoreProps.
Import Async Http HttpObservations JsProps HttpProps HttpMoreSamples.
Local Open Scope task_scope.
Local Open Scope Z_scope.

Lemma stages_app (a b : list Event) : stages (a ++ b) = (stages a ++ stages b)%list.
Proof. unfold stages. now rewrite flat_map_app. Qed.

Lemma errorCalls_app (a b : list Event) :
  errorCalls (a ++ b) = (errorCalls a ++ errorCalls b)%list.
Proof. unfold errorCalls. now rewrite flat_map_app. Qed.

Lemma responsesShown_app (a b : list Event) :
  responsesShown (a ++ b) = (responsesShown a ++ responsesShown b)%list.
Proof. unfold responsesShown. now rewrite flat_map_app. Qed.

Ltac read_calls :=
  simpl;
  rewrite ?stages_app, ?errorCalls_app, ?responsesShown_app; simpl;
  rewrite ?app_nil_r.

Lemma getProperty_absent (n : string) (l : list (string * string)) :
  ~ In n (map fst l) -> Js.getProperty n l = None.
Proof.
  induction l as [|[k v] l IH]; simpl; intros Hnot; [reflexivity|].
  destruct (String.eqb k n) eqn:E.
  - apply String.eqb_eq in E. tauto.
  - apply IH. tauto.
Qed.

(** [new Headers({ ...base, ...entries })]: an entry wins over the base. *)
Lemma headers_get_assign (name : string) (l : Headers) :
  wellFormed l ->
  forall base : Headers,
    headers_get name (headers_assign base l) =
    match headers_get name l with
    | Some v => Some v
    | None => headers_get name base
    end.
Proof.
  unfold wellFormed, headers_assign.
  induction l as [|[k v] l IH]; intros [Hnodup Hlower] base.
  - reflexivity.
  - cbn [map fst] in Hnodup, Hlower.
    apply NoDup_cons_iff in Hnodup. destruct Hnodup as [Hfresh Hnodup].
    apply Forall_cons_iff in Hlower. destruct Hlower as [Hk Hlower].
    cbn [fold_left fst snd]. rewrite (IH (conj Hnodup Hlower)).
    unfold headers_get at 1 3. cbn [Js.getProperty].
    destruct (String.eqb k (Js.toLowerCase name)) eqn:E.
    + apply String.eqb_eq in E.
      rewrite <- E, (getProperty_absent _ _ Hfresh).
      unfold headers_get, headers_set. rewrite Hk, <- E.
      apply getProperty_setProperty_same.
    + destruct (Js.getProperty (Js.toLowerCase name) l); [reflexivity|].
      unfold headers_get, headers_set. rewrite Hk.
      apply getProperty_setProperty_other.
      intros Heq. rewrite Heq, String.eqb_refl in E. discriminate.
Qed.

Ltac find_scrutinee t :=
  match t with
  | match ?x with _ => _ end => find_scrutinee x
  | match ?x with _ => _ end => x
  | ?f _ => find_scrutinee f
  end.
Ltac run_step :=
  match goal with
  | H : (_, _) = (_, _) |- _ => inversion H; subst; clear H
  | H : ?run = (_, _) |- _ =>
      let x := find_scrutinee run in
      first [ match goal with E : x = _ |- _ => rewrite E in H end
            | let E := fresh "E" in
              destruct x eqn:E; try (cbn in E; congruence) ];
      cbv beta iota in H
  end.
Ltac find_event :=
  repeat first [ apply in_or_app; right; left; reflexivity
               | apply in_or_app; left ].
Ltac run_with defs H :=
  defs H;
  unfold callHandler, callOnError, callOnResponse, whenPresent, assignUser,
    await, log, lift, bind, tryCatch, effect, ret, throw in H;
  cbv beta iota zeta in H;
  repeat run_step.
Ltac read_trace :=
  unfold quiet; simpl;
  rewrite ?handlerCalls_app, ?assignments_app; simpl;
  rewrite ?app_nil_r.
Ltac use_quiet :=
  repeat match goal with
    | H : handleOnError _ _ _ _ _ = _ |- _ =>
        apply handleOnError_quiet in H; destruct H as [(? & ? & ? & ?) ?]
    | H : handleOnResponse _ _ _ _ _ = _ |- _ =>
        apply handleOnResponse_quiet in H; destruct H as [(? & ? & ? & ?) ?]
    | H : resultToResponse _ _ _ _ _ _ = _ |- _ =>
        apply resultToResponse_quiet in H;
        destruct H as ((? & ? & ? & ?) & ? & ? & ?)
    end.
Ltac chase :=
  repeat match goal with
    | H : handlerCalls (trace ?a) = _ |- context [handlerCalls (trace ?a)] =>
        rewrite H
    | H : assignments (trace ?a) = _ |- context [assignments (trace ?a)] =>
        rewrite H
    | H : controllers ?a = _ |- context [controllers ?a] => rewrite H
    | H : store ?a = _ |- context [store ?a] => rewrite H
    end;
  simpl; rewrite ?handlerCalls_app, ?assignments_app; simpl;
  rewrite ?app_nil_r.
Ltac rewrite_matches :=
  repeat match goal with
    | E : ?x = _ |- context [match ?x with _ => _ end] => rewrite E
    end.

Section WithPlatform.
Context {platform : Platform}.

(** X11. [handleOnResponse] never throws.  It shows the response to
    [onResponse], if there is one, exactly once; when that returns, or when
    there is none, the response stands; when it throws a response, that one
    replaces it; when it throws anything else, [onError], if there is one,
    is called once with that error and the answer is 500 Internal Server
    Error.  What [onError] throws is swallowed. *)
Theorem handleOnResponse_paths (filename : string) (middleware : RouteMiddleware)
    (request : Request) (response : Response)
    (s s' : State) (out : Outcome HttpThrown Response) :
  handleOnResponse filename middleware request response s = (out, s') ->
  (forall e, out <> Throw e) /\
  responsesShown (trace s') =
    (responsesShown (trace s)
     ++ match onResponse middleware with Some _ => [response] | None => [] end)%list /\
  (out <> Never ->
   out = Ret match onResponse middleware with
             | Some f =>
                 match f request response with
                 | Throws _ (ThrowResponse r) => r
                 | Throws _ (ThrowOther _) => internalServerError
                 | _ => response
                 end
             | None => response
             end /\
   errorCalls (trace s') =
     (errorCalls (trace s)
      ++ match onResponse middleware, onError middleware with
         | Some f, Some _ =>
             match f request response with
             | Throws _ (ThrowOther t) => [asError t]
             | _ => []
             end
         | _, _ => []
         end)%list).
Proof.
  intros H. run_with ltac:(fun H => unfold handleOnResponse in H) H.
  all: rewrite_matches; read_calls.
  all: split; [discriminate|]; split; [reflexivity|].
  all: intros Hout; try (now contradiction Hout).
  all: split; [reflexivity|].
  all: repeat match goal with
         | |- context [match ?x with _ => _ end] => destruct x
         end; read_calls; reflexivity.
Qed.

(** X12. [handleOnError] never throws.  The response it intends is the thrown
    response, or 500 Internal Server Error for any other thrown value; it
    shows that response to [onResponse], if there is one, exactly once, and
    answers with it unless [onResponse] throws a response, which then
    replaces it.  [onError], if there is one, is called exactly once when
    the thrown value was no response, and with that value (wrapped in an
    [Error] when it is none) whatever [onResponse] threw; it is not called
    for a thrown response. *)
Theorem handleOnError_paths (error : HttpThrown) (filename : string)
    (middleware : RouteMiddleware) (request : Request)
    (s s' : State) (out : Outcome HttpThrown Response) :
  handleOnError error filename middleware request s = (out, s') ->
  let intended := match error with
                  | ThrowResponse r => r
                  | ThrowOther _ => internalServerError
                  end in
  (forall e, out <> Throw e) /\
  responsesShown (trace s') =
    (responsesShown (trace s)
     ++ match onResponse middleware with Some _ => [intended] | None => [] end)%list /\
  (out <> Never ->
   out = Ret match onResponse middleware with
             | Some f =>
                 match f request intended with
                 | Throws _ (ThrowResponse r) => r
                 | _ => intended
                 end
             | None => intended
             end /\
   errorCalls (trace s') =
     (errorCalls (trace s)
      ++ match error, onError middleware with
         | ThrowOther t, Some _ => [asError t]
         | _, _ => []
         end)%list).
Proof.
  intros H intended. subst intended.
  destruct error as [r|t].
  all: run_with ltac:(fun H => unfold handleOnError in H) H.
  all: rewrite_matches; read_calls.
  all: split; [discriminate|]; split; [reflexivity|].
  all: intros Hout; try (now contradiction Hout).
  all: split; [reflexivity|].
  all: repeat match goal with
         | |- context [match ?x with _ => _ end] => destruct x
         end; read_calls; reflexivity.
Qed.

Lemma resultToResponse_stages (cache : option Z) (corsHeaders : option Headers)
    (etag : EtagValue) (filename : string) (result : HandlerResult)
    (s s' : State) (out : Outcome HttpThrown Response) :
  resultToResponse cache corsHeaders etag filename result s = (out, s') ->
  stages (trace s') = stages (trace s).
Proof.
  intros H. run_with ltac:(fun H => unfold resultToResponse in H) H.
  all: read_calls; reflexivity.
Qed.

Lemma handleOnResponse_stages (filename : string) (middleware : RouteMiddleware)
    (request : Request) (response : Response)
    (s s' : State) (out : Outcome HttpThrown Response) :
  handleOnResponse filename middleware request response s = (out, s') ->
  exists new, stages (trace s') = (stages (trace s) ++ new)%list /\
              In new [[]; [3]; [4]; [3; 4]]%nat /\
              forall e, out <> Throw e.
Proof.
  intros H. run_with ltac:(fun H => unfold handleOnResponse in H) H.
  all: read_calls; rewrite <- ?app_assoc; simpl;
    eexists; (split; [try reflexivity; symmetry; apply app_nil_r|]);
    (split; [simpl; auto|discriminate]).
Qed.

Lemma handleOnError_stages (error : HttpThrown) (filename : string)
    (middleware : RouteMiddleware) (request : Request)
    (s s' : State) (out : Outcome HttpThrown Response) :
  handleOnError error filename middleware request s = (out, s') ->
  exists new, stages (trace s') = (stages (trace s) ++ new)%list /\
              In new [[]; [3]; [4]; [3; 4]]%nat /\
              forall e, out <> Throw e.
Proof.
  intros H. run_with ltac:(fun H => unfold handleOnError in H) H.
  all: read_calls; rewrite <- ?app_assoc; simpl;
    eexists; (split; [try reflexivity; symmetry; apply app_nil_r|]);
    (split; [simpl; auto|discriminate]).
Qed.

Ltac use_stages :=
  repeat match goal with
    | H : handleOnError _ _ _ _ _ = _ |- _ =>
        apply handleOnError_stages in H; destruct H as (? & H & ? & ?)
    | H : handleOnResponse _ _ _ _ _ = _ |- _ =>
        apply handleOnResponse_stages in H; destruct H as (? & H & ? & ?)
    | H : resultToResponse _ _ _ _ _ _ = _ |- _ =>
        apply resultToResponse_stages in H
    end;
  try match goal with
    | N : forall e, ?o <> Throw e, E : ?o = Throw _ |- _ =>
        now contradiction (N _ E)
    | N : forall e, Throw ?x <> Throw e |- _ =>
        now contradiction (N x eq_refl)
    end.

Ltac chase_stages :=
  repeat match goal with
    | H : stages (trace ?a) = _ |- context [stages (trace ?a)] => rewrite H
    end;
  read_calls; rewrite <- ?app_assoc; simpl.

(** X13. In one run of the pipeline the calls into user code come in the
    order [onRequest], [authenticate], the request handler, [onResponse],
    [onError], and each is made at most once, whatever the middleware and
    the handler do. *)
Theorem middleware_order (config : RouteConfig)
    (corsHeaders : option Headers) (filename : string)
    (handler : Exported) (middleware : RouteMiddleware)
    (cookies params : list (string * string)) (sig : nat)
    (request : Request) (s s' : State) (out : Outcome HttpThrown Response) :
  runWithMiddleware config corsHeaders filename handler middleware cookies
    params sig request s = (out, s') ->
  exists new,
    stages (trace s') = (stages (trace s) ++ new)%list /\
    increasing new = true /\
    incl new [0; 1; 2; 3; 4]%nat.
Proof.
  intros H. run_with ltac:(fun H => unfold runWithMiddleware in H) H.
  all: use_stages.
  all: repeat match goal with
         | H : In _ (_ :: _) |- _ => destruct H as [<-|H]
         | H : In _ [] |- _ => destruct H
         end.
  all: chase_stages.
  all: eexists; (split; [try reflexivity; symmetry; apply app_nil_r|]).
  all: split; [reflexivity|].
  all: intros x Hx; simpl in *; tauto.
Qed.


Variable findRoute : string -> HttpThrown + Found.



(** A text without "=" is no cookie. *)
Lemma matchCookie_lacks (text : string) :
  JsMore.lacks "=" text = true -> matchCookie text = None.
Proof.
  intros H. unfold matchCookie.
  assert (Hpair : cookiePair text = None).
  { induction text as [|c text IH]; [reflexivity|].
    apply lacks_cons in H. destruct H as [Hc Hrest].
    cbn [cookiePair].
    destruct (Ascii.eqb c "=") eqn:E.
    - apply Ascii.eqb_eq in E. congruence.
    - now rewrite (IH Hrest). }
  now rewrite Hpair.
Qed.

(** One piece that is no cookie makes the reducer of [getCookies] throw,
    whatever the pieces before it gave. *)
Lemma cookies_stuck (pieces : list string) (piece : string) :
  In piece pieces ->
  matchCookie (Js.trim piece) = None ->
  forall cookies : list (string * string),
    fold_left
      (fun acc cookie =>
         match acc, matchCookie (Js.trim cookie) with
         | inl e, _ => inl e
         | inr cookies, Some (key, value) =>
             inr (Js.setProperty key value cookies)
         | inr _, None => inl (TypeError "undefined is not iterable")
         end) pieces (inr cookies) =
    inl (TypeError "undefined is not iterable").
Proof.
  intros Hin Hnone.
  assert (Hstuck : forall l e0,
            fold_left
              (fun acc cookie =>
                 match acc, matchCookie (Js.trim cookie) with
                 | inl e, _ => inl e
                 | inr cookies, Some (key, value) =>
                     inr (Js.setProperty key value cookies)
                 | inr _, None => inl (TypeError "undefined is not iterable")
                 end) l (inl e0) = inl e0).
  { induction l as [|c l IH]; intros e0; simpl; auto. }
  induction pieces as [|c pieces IH]; [contradiction|].
  intros cookies. cbn [fold_left].
  destruct Hin as [->|Hin].
  - now rewrite Hnone, Hstuck.
  - destruct (matchCookie (Js.trim c)) as [[k v]|].
    + now apply IH.
    + apply Hstuck.
Qed.

(** X16. A Cookie header with a piece that holds no "=" makes [getCookies]
    throw a TypeError.  The engine, for a request that passed its checks,
    then answers 500 Internal Server Error at once: the error is logged as
    an internal processing error, and neither middleware nor the handler is
    called. *)
Theorem malformed_cookie_is_500 (request : Request)
    (newLocalStorage : LocalStorage) (s : State) (found : Found)
    (h : Exported) (header piece : string) :
  findRoute (url request) = inr found ->
  cors (found_route found) && String.eqb (method request) "OPTIONS" = false ->
  getHandler (found_module found) (method request) = inr h ->
  checkRequest request (found_route found) = inr tt ->
  headers_get "cookie" (request_headers request) = Some header ->
  header <> "" ->
  In piece (Js.split ";" header) ->
  JsMore.lacks "=" (Js.trim piece) = true ->
  exists message,
    getCookies request = inl (TypeError message) /\
    fst (handleHTTPRequest findRoute request newLocalStorage s) =
      Ret internalServerError /\
    trace (snd (handleHTTPRequest findRoute request newLocalStorage s)) =
      (trace s ++ [Console_internal_error (method request) (url request)
                     (ThrownError (TypeError message))])%list /\
    clock (snd (handleHTTPRequest findRoute request newLocalStorage s)) =
      clock s.
Proof.
  intros Hfound Hpre Hh Hcheck Hheader Htruthy Hin Hlacks.
  assert (Hcookies : exists message, getCookies request = inl (TypeError message)).
  { unfold getCookies. rewrite Hheader.
    destruct header as [|c header]; [now contradiction Htruthy|].
    cbn [Js.truthy negb].
    rewrite (cookies_stuck _ _ Hin (matchCookie_lacks _ Hlacks)). eauto. }
  destruct Hcookies as [message Hcookies]. exists message.
  split; [exact Hcookies|].
  assert (Hrun : handleHTTPRequest findRoute request newLocalStorage s =
                 (Ret internalServerError,
                  emit (Console_internal_error (method request) (url request)
                          (ThrownError (TypeError message)))
                    {| clock := clock s; trace := trace s; store := store s;
                       controllers := (controllers s ++ [None])%list |})).
  { unfold handleHTTPRequest, tryCatch, bind, lift.
    rewrite Hfound. unfold ret at 1. cbv beta iota zeta.
    rewrite Hpre, Hh. unfold ret at 1. cbv beta iota.
    rewrite Hcheck. unfold ret at 1. cbv beta iota.
    unfold handleRoute. rewrite Hcookies. reflexivity. }
  rewrite Hrun. cbn [fst snd]. repeat split; reflexivity.
Qed.

Lemma addETag_keeps (h : Headers) (content : string) (e : EtagValue)
    (name value : string) :
  headers_get name h = Some value ->
  headers_get name (addETag h content e) = Some value.
Proof.
  intros Hget. unfold addETag.
  destruct (headers_has "ETag" h || negb (etagTruthy e)) eqn:E; [exact Hget|].
  apply orb_false_iff in E. destruct E as [Hno _].
  rewrite headers_get_set_other; [exact Hget|].
  intros Hsame. unfold headers_has, headers_get in Hno.
  unfold headers_get in Hget. rewrite Hsame in Hget.
  cbn in Hget. cbn in Hno. now rewrite Hget in Hno.
Qed.

Lemma addCacheControl_keeps (h : Headers) (cache : option Z)
    (name value : string) :
  headers_get name h = Some value ->
  headers_get name (addCacheControl h cache) = Some value.
Proof.
  intros Hget. unfold addCacheControl. destruct cache as [n|]; [|exact Hget].
  destruct (headers_has "Cache-Control" h || (n =? 0)) eqn:E; [exact Hget|].
  apply orb_false_iff in E. destruct E as [Hno _].
  rewrite headers_get_set_other; [exact Hget|].
  intros Hsame. unfold headers_has, headers_get in Hno.
  unfold headers_get in Hget. rewrite Hsame in Hget.
  cbn in Hget. cbn in Hno. now rewrite Hget in Hno.
Qed.

Lemma addETag_other (h : Headers) (content : string) (e : EtagValue)
    (name : string) :
  Js.toLowerCase name <> "etag" ->
  headers_get name (addETag h content e) = headers_get name h.
Proof.
  intros Hne. unfold addETag.
  destruct (headers_has "ETag" h || negb (etagTruthy e)); [reflexivity|].
  now apply headers_get_set_other.
Qed.

Lemma addCacheControl_other (h : Headers) (cache : option Z) (name : string) :
  Js.toLowerCase name <> "cache-control" ->
  headers_get name (addCacheControl h cache) = headers_get name h.
Proof.
  intros Hne. unfold addCacheControl. destruct cache as [n|]; [|reflexivity].
  destruct (headers_has "Cache-Control" h || (n =? 0)); [reflexivity|].
  now apply headers_get_set_other.
Qed.

(** X17. A [Response] that the handler returns goes out with its status and
    its body, and with every header it carries; the CORS headers of the
    route fill in the names it does not carry, and besides these only ETag
    and Cache-Control can be added. *)
Theorem returned_response_kept (cache : option Z) (corsHeaders : option Headers)
    (etag : EtagValue) (filename : string) (r : Response) (s : State) :
  wellFormed (headers r) ->
  exists response : Response,
    resultToResponse cache corsHeaders etag filename (ResultResponse r) s =
      (Ret response, s) /\
    status response = status r /\
    body response = body r /\
    (forall name value,
        headers_get name (headers r) = Some value ->
        headers_get name (headers response) = Some value) /\
    (forall name,
        headers_get name (headers r) = None ->
        Js.toLowerCase name <> "etag" ->
        Js.toLowerCase name <> "cache-control" ->
        headers_get name (headers response) =
        headers_get name (orEmpty corsHeaders)).
Proof.
  intros Hwell. eexists. split; [reflexivity|].
  cbn [status body headers]. split; [reflexivity|]. split; [reflexivity|].
  split.
  - intros name value Hget.
    assert (Hmerged : headers_get name
                        (headers_assign (orEmpty corsHeaders) (headers r))
                      = Some value)
      by (rewrite (headers_get_assign name _ Hwell), Hget; reflexivity).
    destruct (status r =? 200); [|exact Hmerged].
    now apply addCacheControl_keeps, addETag_keeps.
  - intros name Hget Hetag Hcache.
    assert (Hmerged : headers_get name
                        (headers_assign (orEmpty corsHeaders) (headers r))
                      = headers_get name (orEmpty corsHeaders))
      by (rewrite (headers_get_assign name _ Hwell), Hget; reflexivity).
    destruct (status r =? 200); [|exact Hmerged].
    now rewrite addCacheControl_other, addETag_other.
Qed.

Lemma addCacheControl_spec (h : Headers) (cache : option Z) :
  headers_get "Cache-Control" (addCacheControl h cache) =
  match headers_get "Cache-Control" h with
  | Some v => Some v
  | None =>
      match cache with
      | Some n =>
          if n =? 0 then None
          else Some ("private, max-age=" ++ Z_to_string n ++ ", must-revalidate")%string
      | None => None
      end
  end.
Proof.
  unfold addCacheControl, headers_has.
  destruct (headers_get "Cache-Control" h) as [v|] eqn:Hget.
  - destruct cache as [n|]; [|exact Hget]. cbn [orb]. exact Hget.
  - destruct cache as [n|]; [|exact Hget]. cbn [orb].
    destruct (n =? 0); [exact Hget|]. apply headers_get_set_same.
Qed.

(** X18. Cache-Control on a 200 response.  The response that the coercion
    step builds keeps a Cache-Control header that was set before (by the
    CORS headers or by a response the handler returned); otherwise, when its
    status is 200 and the cache policy gives a number of seconds other than
    zero, it carries "private, max-age=" that number ", must-revalidate";
    and with no policy, or zero seconds, it carries none. *)
Theorem cache_control_on_200 (cache : option Z) (corsHeaders : option Headers)
    (etag : EtagValue) (filename : string) (result : HandlerResult) (s : State) :
  exists (response : Response) (s' : State),
    resultToResponse cache corsHeaders etag filename result s =
      (Ret response, s') /\
    (status response = 200 ->
     headers_get "Cache-Control" (headers response) =
     match headers_get "Cache-Control" (presetHeaders corsHeaders result) with
     | Some v => Some v
     | None =>
         match cache with
         | Some n =>
             if n =? 0 then None
             else Some ("private, max-age=" ++ Z_to_string n
                        ++ ", must-revalidate")%string
         | None => None
         end
     end).
Proof.
  assert (Htext : forall (type text : string),
    headers_get "Cache-Control"
      (addCacheControl
         (addETag (headers_set "Content-Type" type (orEmpty corsHeaders))
            text etag) cache) =
    match headers_get "Cache-Control" (orEmpty corsHeaders) with
    | Some v => Some v
    | None =>
        match cache with
        | Some n =>
            if n =? 0 then None
            else Some ("private, max-age=" ++ Z_to_string n
                       ++ ", must-revalidate")%string
        | None => None
        end
    end).
  { intros type text. rewrite addCacheControl_spec, addETag_other by discriminate.
    rewrite headers_get_set_other by discriminate. reflexivity. }
  unfold resultToResponse.
  destruct result as [r|text|bytes|v|].
  - do 2 eexists. split; [reflexivity|]. cbn [status headers presetHeaders].
    intros H200. rewrite H200. cbn [Z.eqb Pos.eqb].
    rewrite addCacheControl_spec, addETag_other by discriminate. reflexivity.
  - do 2 eexists. split; [reflexivity|]. intros _. apply Htext.
  - do 2 eexists. split; [reflexivity|]. intros _. apply Htext.
  - destruct v as [|b|n|text|items|fields];
      try destruct (valueTruthy _);
      do 2 eexists; (split; [reflexivity|]); cbn [status headers presetHeaders];
      try (intros _; apply Htext); discriminate.
  - do 2 eexists. split; [reflexivity|]. discriminate.
Qed.

Lemma hd_split_cons (sep : ascii) (a b : string) :
  JsMore.lacks sep a = true ->
  hd "" (Js.split sep (a ++ String sep b)) = a.
Proof. intros H. now rewrite (split_cons _ _ _ H). Qed.

(** X19. What [checkRequest] lets through, for a route whose methods allow
    the method of the request.  A GET or HEAD request passes whatever its
    Content-Type, and so does every request to a route that accepts "*/*".
    Any other request is refused with 415 Unsupported Media Type when it
    has no Content-Type header, and otherwise judged by the media type of
    that header alone, family "/" subtype: it passes exactly when the route
    accepts that media type or the whole family (family "/*").  The
    parameters that follow the first semicolon of the header play no
    part. *)
Theorem content_negotiation (request : Request) (route : HTTPRoute)
    (ms : list string) :
  methods route = Some ms ->
  Js.has "*" ms || Js.has (method request) ms = true ->
  ((method request = "GET" \/ method request = "HEAD") ->
   checkRequest request route = inr tt) /\
  (Js.has "*/*" (accepts route) = true -> checkRequest request route = inr tt) /\
  (method request <> "GET" -> method request <> "HEAD" ->
   Js.has "*/*" (accepts route) = false ->
   (headers_get "content-type" (request_headers request) = None ->
    checkRequest request route = inl (ThrowResponse unsupportedMediaType)) /\
   (forall value family subtype,
       headers_get "content-type" (request_headers request) = Some value ->
       mediaType value = (family ++ "/" ++ subtype)%string ->
       JsMore.lacks "/" family = true ->
       checkRequest request route =
       if Js.has (family ++ "/" ++ subtype)%string (accepts route)
          || Js.has (family ++ "/*")%string (accepts route)
       then inr tt
       else inl (ThrowResponse unsupportedMediaType))) /\
  (forall value parameters,
      JsMore.lacks ";" value = true ->
      mediaType (value ++ ";" ++ parameters) = mediaType value).
Proof.
  intros Hmethods Hallowed.
  unfold checkRequest. rewrite Hmethods, Hallowed. cbn [negb]. cbv zeta.
  split; [|split; [|split]].
  - intros [-> | ->]; reflexivity.
  - intros ->. now destruct (negb (_ && _)).
  - intros Hget Hhead Hany.
    apply String.eqb_neq in Hget, Hhead. rewrite Hget, Hhead, Hany.
    cbn [negb andb]. split.
    + intros ->. reflexivity.
    + intros value family subtype -> Hmedia Hfamily.
      fold (mediaType value). rewrite Hmedia.
      change (family ++ "/" ++ subtype)%string
        with (family ++ String "/" subtype)%string.
      rewrite (hd_split_cons _ _ _ Hfamily).
      assert (Htruthy : Js.truthy (family ++ String "/" subtype) = true)
        by (destruct family; reflexivity).
      rewrite Htruthy. cbn [andb].
      destruct (Js.has _ (accepts route) || Js.has _ (accepts route));
        reflexivity.
  - intros value parameters Hvalue. unfold mediaType.
    change (value ++ ";" ++ parameters)%string
      with (value ++ String ";" parameters)%string.
    rewrite (hd_split_cons _ _ _ Hvalue), (split_lacks _ _ Hvalue).
    reflexivity.
Qed.

(** What [getHandler] returned and is no function is never called. *)
Lemma runWithMiddleware_no_function (config : RouteConfig)
    (corsHeaders : option Headers) (filename : string) (truthy : bool)
    (middleware : RouteMiddleware) (cookies params : list (string * string))
    (sig : nat) (request : Request) (s s' : State)
    (out : Outcome HttpThrown Response) :
  runWithMiddleware config corsHeaders filename (Value truthy) middleware
    cookies params sig request s = (out, s') ->
  handlerCalls (trace s') = handlerCalls (trace s).
Proof.
  intros H. run_with ltac:(fun H => unfold runWithMiddleware in H) H.
  all: use_quiet.
  all: chase; reflexivity.
Qed.

(** X20. The handler of a request is what the module holds under the name
    of the method in lower case; failing that, for a DELETE request what it
    holds under [del] and for a HEAD request what it holds under [get];
    failing that, its default export.  The first of these that is there is
    taken, function or not.  In a module without falsy exports the lookup
    fails exactly when all of these are missing; a falsy export under the
    name of the method makes it fail even when there is a default export;
    it fails with 405 Method Not Allowed and in no other way.  A method
    that spells [config] finds the configuration of the module, which is no
    function: the lookup succeeds, and the pipeline then calls no
    handler. *)
Theorem getHandler_fallbacks (module : RouteExports) :
  (forall method h,
      property (Js.toLowerCase method) module = Some (Function h) ->
      getHandler module method = inr (Function h)) /\
  (forall h,
      property "delete" module = None ->
      property "del" module = Some (Function h) ->
      getHandler module "DELETE" = inr (Function h)) /\
  (forall h,
      property "head" module = None ->
      property "get" module = Some (Function h) ->
      getHandler module "HEAD" = inr (Function h)) /\
  (forall method h,
      property (Js.toLowerCase method) module = None ->
      method <> "DELETE" -> method <> "HEAD" ->
      property "default" module = Some (Function h) ->
      getHandler module method = inr (Function h)) /\
  (forall method,
      (forall name, property name module <> Some (Value false)) ->
      ((exists e, getHandler module method = inl e) <->
       property (Js.toLowerCase method) module = None /\
       (method = "DELETE" -> property "del" module = None) /\
       (method = "HEAD" -> property "get" module = None) /\
       property "default" module = None)) /\
  (forall method,
      property (Js.toLowerCase method) module = Some (Value false) ->
      getHandler module method = inl (ThrowResponse methodNotAllowed)) /\
  (forall method e,
      getHandler module method = inl e -> e = ThrowResponse methodNotAllowed) /\
  (forall method c,
      Js.toLowerCase method = "config" ->
      config module = Some c ->
      getHandler module method = inr (Value true)) /\
  (forall method truthy,
      getHandler module method = inr (Value truthy) -> truthy = true) /\
  (forall truthy config corsHeaders filename middleware cookies params sig
          request s,
      handlerCalls
        (trace (snd (runWithMiddleware config corsHeaders filename
                       (Value truthy) middleware cookies params sig request s)))
      = handlerCalls (trace s)).
Proof.
  split; [|split; [|split; [|split; [|split; [|split; [|split; [|split;
    [|split]]]]]]]].
  - intros method h H. unfold getHandler, orElse. now rewrite H.
  - intros h Hdelete Hdel. unfold getHandler, orElse.
    change (Js.toLowerCase "DELETE") with "delete".
    now rewrite Hdelete, Hdel.
  - intros h Hhead Hget. unfold getHandler, orElse.
    change (Js.toLowerCase "HEAD") with "head".
    now rewrite Hhead, Hget.
  - intros method h Hnone Hd Hh Hdefault. unfold getHandler, orElse.
    rewrite Hnone.
    apply String.eqb_neq in Hd, Hh. now rewrite Hd, Hh, Hdefault.
  - intros method Htruthy.
    assert (Hdel := Htruthy "del"). assert (Hget := Htruthy "get").
    assert (Hdefault := Htruthy "default").
    assert (Hlower := Htruthy (Js.toLowerCase method)).
    unfold getHandler, orElse.
    destruct (property (Js.toLowerCase method) module) as [[h1|[|]]|];
      try (now contradiction Hlower).
    1, 2: split; [intros [e He]; discriminate|intros (Habs & _); discriminate].
    destruct (String.eqb method "DELETE") eqn:Hd;
      destruct (String.eqb method "HEAD") eqn:Hh;
      destruct (property "del" module) as [[h2|[|]]|];
      destruct (property "get" module) as [[h3|[|]]|];
      destruct (property "default" module) as [[h4|[|]]|];
      try (now contradiction Hdel); try (now contradiction Hget);
      try (now contradiction Hdefault).
    all: try apply String.eqb_neq in Hd; try apply String.eqb_neq in Hh.
    all: try apply String.eqb_eq in Hd; try apply String.eqb_eq in Hh.
    all: split;
      [intros [e He]; try discriminate He; repeat split; intros; congruence
      |intros (_ & H2 & H3 & H4); first [discriminate H4
                                        | discriminate (H2 Hd)
                                        | discriminate (H3 Hh)
                                        | eauto]].
  - intros method H. unfold getHandler, orElse. now rewrite H.
  - intros method e He. unfold getHandler, orElse in He.
    repeat match type of He with
           | match ?x with _ => _ end = _ => destruct x
           end; try discriminate; now injection He as <-.
  - intros method c Hname Hconfig. unfold getHandler, orElse, property.
    rewrite Hname. cbn [String.eqb Ascii.eqb Bool.eqb]. now rewrite Hconfig.
  - intros method truthy H. unfold getHandler, orElse in H.
    repeat match type of H with
           | match ?x with _ => _ end = _ => destruct x
           end; try discriminate; now injection H as <-.
  - intros truthy config corsHeaders filename middleware cookies params sig
      request s.
    destruct (runWithMiddleware _ _ _ _ _ _ _ _ _ s) as [out s'] eqn:Hrun.
    cbn [snd]. exact (runWithMiddleware_no_function _ _ _ _ _ _ _ _ _ _ _ _ Hrun).
Qed.

End WithPlatform.

Lemma handleOnResponse_paths_witness :
  handleOnResponse "api/private.ts"
    HttpSamples.lenient (HttpSamples.get "/private") forbidden start =
    (Ret HttpSamples.welcome,
     snd (handleOnResponse "api/private.ts"
            HttpSamples.lenient (HttpSamples.get "/private") forbidden start)) /\
  responsesShown
    (trace (snd (handleOnResponse
                   "api/private.ts" HttpSamples.lenient
                   (HttpSamples.get "/private") forbidden start))) =
    [forbidden].
Proof.
  assert (H : handleOnResponse "api/private.ts"
    HttpSamples.lenient (HttpSamples.get "/private") forbidden start =
    (Ret HttpSamples.welcome,
     snd (handleOnResponse "api/private.ts"
            HttpSamples.lenient (HttpSamples.get "/private") forbidden start)))
    by (vm_compute; reflexivity).
  split; [exact H|].
  exact (proj1 (proj2 (handleOnResponse_paths
                         _ _ _ _ _ _ _ H))).
Defined.

Lemma handleOnError_paths_witness :
  handleOnError
    (ThrowOther (ThrownValue "boom")) "api/x.ts" watchful (HttpSamples.get "/x")
    start =
    (Ret internalServerError,
     snd (handleOnError
            (ThrowOther (ThrownValue "boom")) "api/x.ts" watchful
            (HttpSamples.get "/x") start)) /\
  errorCalls
    (trace (snd (handleOnError
                   (ThrowOther (ThrownValue "boom")) "api/x.ts" watchful
                   (HttpSamples.get "/x") start))) =
    [Error "boom"].
Proof.
  assert (H : handleOnError
    (ThrowOther (ThrownValue "boom")) "api/x.ts" watchful (HttpSamples.get "/x")
    start =
    (Ret internalServerError,
     snd (handleOnError
            (ThrowOther (ThrownValue "boom")) "api/x.ts" watchful
            (HttpSamples.get "/x") start)))
    by (vm_compute; reflexivity).
  split; [exact H|].
  destruct (handleOnError_paths
              _ _ _ _ _ _ _ H) as (_ & _ & Hreturned).
  destruct Hreturned as [_ Hcalls]; [discriminate|]. exact Hcalls.
Defined.

Lemma middleware_order_witness :
  runWithMiddleware (platform := HttpSamples.platform) HttpSamples.defaults None
    "api/private.ts" HttpSamples.secret HttpSamples.lenient [] [] 0
    (HttpSamples.get "/private") running =
    (Ret HttpSamples.welcome,
     snd (runWithMiddleware (platform := HttpSamples.platform)
            HttpSamples.defaults None "api/private.ts" HttpSamples.secret
            HttpSamples.lenient [] [] 0 (HttpSamples.get "/private") running)) /\
  exists new,
    stages (trace (snd (runWithMiddleware (platform := HttpSamples.platform)
            HttpSamples.defaults None "api/private.ts" HttpSamples.secret
            HttpSamples.lenient [] [] 0 (HttpSamples.get "/private") running)))
      = new /\
    increasing new = true.
Proof.
  assert (H : runWithMiddleware (platform := HttpSamples.platform)
    HttpSamples.defaults None
    "api/private.ts" HttpSamples.secret HttpSamples.lenient [] [] 0
    (HttpSamples.get "/private") running =
    (Ret HttpSamples.welcome,
     snd (runWithMiddleware (platform := HttpSamples.platform)
            HttpSamples.defaults None "api/private.ts" HttpSamples.secret
            HttpSamples.lenient [] [] 0 (HttpSamples.get "/private") running)))
    by (vm_compute; reflexivity).
  split; [exact H|].
  destruct (middleware_order (platform := HttpSamples.platform)
              _ _ _ _ _ _ _ _ _ _ _ _ H) as (new & Hstages & Hincreasing & _).
  exists new. split; [exact Hstages|exact Hincreasing].
Defined.

Lemma malformed_cookie_is_500_witness :
  (HttpSamples.openRoutes (url brokenCookie) = inr HttpSamples.openRoute /\
   getHandler (found_module HttpSamples.openRoute) (method brokenCookie) =
     inr HttpSamples.secret /\
   checkRequest brokenCookie (found_route HttpSamples.openRoute) = inr tt /\
   headers_get "cookie" (request_headers brokenCookie) = Some "a=1; broken" /\
   In " broken" (Js.split ";" "a=1; broken")) /\
  exists message,
    getCookies brokenCookie = inl (TypeError message) /\
    fst (handleHTTPRequest (platform := HttpSamples.platform)
           HttpSamples.openRoutes brokenCookie HttpSamples.fresh start) =
      Ret internalServerError.
Proof.
  assert (H1 : HttpSamples.openRoutes (url brokenCookie) =
               inr HttpSamples.openRoute) by reflexivity.
  assert (H2 : cors (found_route HttpSamples.openRoute)
               && String.eqb (method brokenCookie) "OPTIONS" = false)
    by reflexivity.
  assert (H3 : getHandler (found_module HttpSamples.openRoute)
                 (method brokenCookie) = inr HttpSamples.secret) by reflexivity.
  assert (H4 : checkRequest brokenCookie (found_route HttpSamples.openRoute) =
               inr tt) by reflexivity.
  assert (H5 : headers_get "cookie" (request_headers brokenCookie) =
               Some "a=1; broken") by reflexivity.
  assert (H6 : In " broken" (Js.split ";" "a=1; broken"))
    by (right; left; reflexivity).
  split; [auto 6|].
  destruct (malformed_cookie_is_500 (platform := HttpSamples.platform)
              HttpSamples.openRoutes brokenCookie HttpSamples.fresh start
              HttpSamples.openRoute HttpSamples.secret "a=1; broken" " broken"
              H1 H2 H3 H4 H5 ltac:(discriminate) H6 eq_refl)
    as (message & Hcookies & Hanswer & _).
  exists message. split; [exact Hcookies|exact Hanswer].
Defined.

Lemma returned_response_kept_witness :
  wellFormed (headers created) /\
  exists response : Response,
    resultToResponse (platform := HttpSamples.platform) None None
      (EtagBoolean true) "api/x.ts" (ResultResponse created) start =
      (Ret response, start) /\
    status response = 201 /\
    headers_get "Location" (headers response) = Some "/x/1".
Proof.
  assert (H : wellFormed (headers created)).
  { split; repeat constructor. intros []. }
  split; [exact H|].
  destruct (returned_response_kept (platform := HttpSamples.platform) None None
              (EtagBoolean true) "api/x.ts" created start H)
    as (response & Hrun & Hstatus & _ & Hkept & _).
  exists response. split; [exact Hrun|]. split; [exact Hstatus|].
  apply Hkept. reflexivity.
Defined.

Lemma content_negotiation_witness :
  (methods (found_route HttpSamples.openRoute) = Some ["GET"; "POST"] /\
   mediaType "application/json; charset=utf-8" = "application/json") /\
  checkRequest jsonPost (found_route HttpSamples.openRoute) = inr tt.
Proof.
  assert (H1 : methods (found_route HttpSamples.openRoute) =
               Some ["GET"; "POST"]) by reflexivity.
  assert (H2 : Js.has "*" ["GET"; "POST"] || Js.has (method jsonPost) ["GET"; "POST"]
               = true) by reflexivity.
  assert (H3 : mediaType "application/json; charset=utf-8" = "application/json")
    by reflexivity.
  split; [auto|].
  destruct (content_negotiation jsonPost (found_route HttpSamples.openRoute)
              ["GET"; "POST"] H1 H2) as (_ & _ & Hbody & _).
  destruct Hbody as [_ Hjudged]; try discriminate; [reflexivity|].
  exact (Hjudged "application/json; charset=utf-8" "application" "json"
           eq_refl H3 eq_refl).
Defined.

End HttpMoreProps.


(** * Manifest loader: further properties *)

Module ManifestMoreProps.
Import Manifest ManifestShapes JsProps JsMore ManifestProps ManifestMoreSamples.
Local Open Scope string_scope.

(** ** Nested routes *)

Lemma collapse_dot_slash (a b : string) :
  forall flag, collapse flag (a ++ String "." b) = collapse flag (a ++ String "/" b).
Proof.
  induction a as [|c a IH]; intros flag; simpl.
  - reflexivity.
  - destruct (Ascii.eqb c "." || Ascii.eqb c "/")%bool.
    + destruct flag; now rewrite IH.
    + now rewrite IH.
Qed.

Lemma collapse_tidy (s : string) :
  forall flag, tidy flag (collapse flag s) = true.
Proof.
  induction s as [|c s IH]; intros flag; simpl.
  - reflexivity.
  - destruct (Ascii.eqb c ".") eqn:Hdot; simpl.
    + destruct flag; simpl; [apply IH|]. apply IH.
    + destruct (Ascii.eqb c "/") eqn:Hslash; simpl.
      * destruct flag; simpl; [apply IH|]. apply IH.
      * rewrite Hdot, Hslash. apply IH.
Qed.

Lemma tidy_fixed (s : string) :
  forall flag, tidy flag s = true -> collapse flag s = s.
Proof.
  induction s as [|c s IH]; intros flag; simpl.
  - reflexivity.
  - destruct (Ascii.eqb c ".") eqn:Hdot; [discriminate|].
    destruct (Ascii.eqb c "/") eqn:Hslash; simpl.
    + destruct flag; simpl; [discriminate|]. intros H.
      apply Ascii.eqb_eq in Hslash. subst c. now rewrite (IH true H).
    + intros H. now rewrite (IH false H).
Qed.

Lemma tidy_lacks_dot (s : string) :
  forall flag, tidy flag s = true -> lacks "." s = true.
Proof.
  unfold lacks. induction s as [|c s IH]; intros flag; simpl.
  - reflexivity.
  - destruct (Ascii.eqb c ".") eqn:Hdot; [discriminate|]. simpl.
    destruct (Ascii.eqb c "/").
    + intros H. apply andb_prop in H. destruct H as [_ H]. exact (IH true H).
    + apply IH.
Qed.

(** X21. Nested routes: in a file name a dot stands for a slash, so that
    "foo.bar" names the route of "foo/bar".  What [expandNestedRoutes]
    returns holds no dot and no two slashes in a row, and expanding it
    again changes nothing. *)
Theorem nested_routes_expand (a b : string) :
  expandNestedRoutes (a ++ "." ++ b) = expandNestedRoutes (a ++ "/" ++ b) /\
  lacks "." (expandNestedRoutes a) = true /\
  tidy false (expandNestedRoutes a) = true /\
  expandNestedRoutes (expandNestedRoutes a) = expandNestedRoutes a.
Proof.
  unfold expandNestedRoutes. split; [apply collapse_dot_slash|].
  pose proof (collapse_tidy a false) as Htidy.
  split; [exact (tidy_lacks_dot _ _ Htidy)|].
  split; [exact Htidy|]. now apply tidy_fixed.
Qed.

(** ** Brackets *)

Lemma stripPrefix_app (p s : string) :
  SqsDispatch.stripPrefix p (p ++ s) = Some s.
Proof.
  induction p as [|c p IH]; simpl.
  - now destruct s.
  - now rewrite Ascii.eqb_refl.
Qed.

Lemma unbracket_closed (opening before after n : string) :
  SqsDispatch.dotStar n = true ->
  unbracket opening "]" before after (opening ++ n ++ "]") = before ++ n ++ after.
Proof.
  intros Hplain. unfold unbracket.
  rewrite stripPrefix_app, endsWith_app.
  assert (H : SqsDispatch.dotStar (n ++ "]") = true).
  { unfold SqsDispatch.dotStar in *. rewrite allChars_app, Hplain. reflexivity. }
  rewrite H. cbn [andb]. now rewrite substring_front.
Qed.

Lemma unbracket_other (opening closing before after part : string) :
  SqsDispatch.stripPrefix opening part = None ->
  unbracket opening closing before after part = part.
Proof. intros H. unfold unbracket. now rewrite H. Qed.

Lemma stripPrefix_not_prefix (p s : string) :
  String.prefix p s = false -> SqsDispatch.stripPrefix p s = None.
Proof.
  revert s. induction p as [|a p IH]; intros [|b s]; simpl; try discriminate;
    try reflexivity.
  destruct (ascii_dec a b) as [->|Hne].
  - rewrite Ascii.eqb_refl. apply IH.
  - intros _. destruct (Ascii.eqb a b) eqn:E; [|reflexivity].
    apply Ascii.eqb_eq in E. contradiction.
Qed.

Lemma prefix_snoc (p s t : string) :
  String.prefix p s = false -> String.length p <= String.length s ->
  String.prefix p (s ++ t) = false.
Proof.
  revert s. induction p as [|a p IH]; intros [|b s]; simpl; try discriminate;
    try lia.
  destruct (ascii_dec a b); [|reflexivity].
  intros H Hlen. apply IH; [exact H|lia].
Qed.

Lemma prefix_dots (n : string) :
  String.prefix "..." n = false -> String.prefix "..." (n ++ "]") = false.
Proof.
  intros H.
  destruct n as [|c1 [|c2 [|c3 n]]]; cbn [String.prefix String.append] in *;
    repeat match goal with
      | |- context [ascii_dec ?a ?b] => destruct (ascii_dec a b)
      end; try reflexivity; try congruence.
  destruct n; discriminate H.
Qed.

(** The rewriting of one path part. *)
Lemma renamePathProperties_snoc (dir part : string) :
  lacks "/" part = true ->
  renamePathProperties (dir ++ "/" ++ part) =
  renamePathProperties dir ++ "/"
  ++ unbracket "[" "]" ":" "" (unbracket "[..." "]" ":" "*" part).
Proof.
  intros Hpart. unfold renamePathProperties.
  change (dir ++ "/" ++ part) with (dir ++ String "/" part).
  rewrite (split_snoc _ _ _ Hpart), map_app. cbn [map].
  apply join_snoc. destruct (Js.split "/" dir) eqn:E; [|discriminate].
  now contradiction (split_nonempty "/" dir).
Qed.

(** X22. Brackets in file names.  As the last part of a file name, "[" name
    "]" becomes the parameter ":" name, "[..." name "]" becomes the
    catch-all parameter ":" name "*", and a part that does not start with a
    bracket stays as it is; the parts before it are rewritten on their
    own. *)
Theorem bracket_parameters (dir n : string) :
  parameterName n = true ->
  renamePathProperties (dir ++ "/" ++ "[..." ++ n ++ "]") =
    renamePathProperties dir ++ "/" ++ ":" ++ n ++ "*" /\
  (Js.startsWith n "..." = false ->
   renamePathProperties (dir ++ "/" ++ "[" ++ n ++ "]") =
     renamePathProperties dir ++ "/" ++ ":" ++ n) /\
  (Js.startsWith n "[" = false ->
   renamePathProperties (dir ++ "/" ++ n) = renamePathProperties dir ++ "/" ++ n).
Proof.
  intros Hname. apply andb_prop in Hname. destruct Hname as [Hslash Hplain].
  assert (Hpart : forall opening,
            lacks "/" opening = true ->
            lacks "/" (opening ++ n ++ "]") = true).
  { intros opening Hopening. unfold lacks in *.
    rewrite !allChars_app, Hopening, Hslash. reflexivity. }
  split; [|split].
  - rewrite renamePathProperties_snoc by (now apply Hpart).
    rewrite (unbracket_closed "[..." ":" "*" n Hplain).
    rewrite unbracket_other by reflexivity. reflexivity.
  - intros Hnot. rewrite renamePathProperties_snoc by (now apply Hpart).
    rewrite (unbracket_other "[..."), (unbracket_closed "[" ":" "" n Hplain).
    + now rewrite append_nil_r.
    + change ("[" ++ n ++ "]") with (String "[" (n ++ "]")).
      change (SqsDispatch.stripPrefix "[..." (String "[" (n ++ "]")))
        with (SqsDispatch.stripPrefix "..." (n ++ "]")).
      apply stripPrefix_not_prefix, prefix_dots, Hnot.
  - intros Hnot. rewrite renamePathProperties_snoc by exact Hslash.
    assert (Hopen : SqsDispatch.stripPrefix "[" n = None)
      by (now apply stripPrefix_not_prefix).
    assert (Hdots : SqsDispatch.stripPrefix "[..." n = None).
    { destruct n as [|c n]; [reflexivity|].
      cbn [SqsDispatch.stripPrefix] in *.
      destruct (Ascii.eqb "[" c); [discriminate|reflexivity]. }
    rewrite (unbracket_other "[..." _ _ _ _ Hdots),
      (unbracket_other "[" _ _ _ _ Hopen).
    reflexivity.
Qed.

(** ** Shapes *)

Lemma signature_parameter (x rest : string) :
  parameterName x = true ->
  forall t, signatureFrom (Some t) (x ++ String "/" rest) =
            ":/" ++ signatureFrom None rest.
Proof.
  intros Hname. apply andb_prop in Hname. destruct Hname as [Hslash Hplain].
  induction x as [|c x IH]; intros t.
  - reflexivity.
  - apply lacks_cons in Hslash. destruct Hslash as [Hc Hx].
    unfold SqsDispatch.dotStar in Hplain. simpl in Hplain.
    apply andb_prop in Hplain. destruct Hplain as [Hlt Hrest].
    apply negb_true_iff in Hlt.
    cbn [String.append signatureFrom]. rewrite Hc, Hlt. now apply IH.
Qed.

Lemma signature_last_parameter (x : string) :
  parameterName x = true ->
  forall t, signatureFrom (Some t) x = ":".
Proof.
  intros Hname. apply andb_prop in Hname. destruct Hname as [Hslash Hplain].
  induction x as [|c x IH]; intros t.
  - reflexivity.
  - apply lacks_cons in Hslash. destruct Hslash as [Hc Hx].
    unfold SqsDispatch.dotStar in Hplain. simpl in Hplain.
    apply andb_prop in Hplain. destruct Hplain as [Hlt Hrest].
    apply negb_true_iff in Hlt.
    cbn [signatureFrom]. rewrite Hc, Hlt. now apply IH.
Qed.

Lemma signature_after_colon (before u v : string) :
  (forall t t', signatureFrom (Some t) u = signatureFrom (Some t') v) ->
  forall skipped,
    signatureFrom skipped (before ++ String ":" u) =
    signatureFrom skipped (before ++ String ":" v).
Proof.
  intros Hsame. induction before as [|c before IH]; intros skipped.
  - destruct skipped as [t|]; cbn [String.append signatureFrom];
      cbn [Ascii.eqb Bool.eqb Js.isLineTerminator orb]; apply Hsame.
  - destruct skipped as [t|]; cbn [String.append signatureFrom].
    + destruct (Ascii.eqb c "/"); [now rewrite IH|].
      destruct (Js.isLineTerminator c); now rewrite IH.
    + destruct (Ascii.eqb c ":"); now rewrite IH.
Qed.

(** X23. The shape of a route path does not depend on the names of its
    parameters: two paths that differ only in the name of one parameter,
    in the middle or at the end, have the same shape, whatever comes before
    and after. *)
Theorem shape_ignores_parameter_names (before x y after : string) :
  parameterName x = true ->
  parameterName y = true ->
  signature (before ++ ":" ++ x ++ "/" ++ after) =
    signature (before ++ ":" ++ y ++ "/" ++ after) /\
  signature (before ++ ":" ++ x) = signature (before ++ ":" ++ y).
Proof.
  intros Hx Hy. unfold signature. split.
  - apply (signature_after_colon before (x ++ String "/" after)
             (y ++ String "/" after)).
    intros t t'. now rewrite !signature_parameter.
  - apply (signature_after_colon before x y).
    intros t t'. now rewrite !signature_last_parameter.
Qed.

(** ** Methods *)

Lemma upperChar_idempotent (c : ascii) : upperChar (upperChar c) = upperChar c.
Proof.
  destruct c as [[] [] [] [] [] [] [] []]; reflexivity.
Qed.

Lemma toUpperCase_idempotent (s : string) :
  toUpperCase (toUpperCase s) = toUpperCase s.
Proof.
  induction s as [|c s IH]; simpl; [reflexivity|].
  now rewrite upperChar_idempotent, IH.
Qed.

(** X24. The method check of a route ignores case, in the configuration as
    in the request: a method passes exactly when it equals, up to case, one
    of the configured methods.  Without configured methods every method
    passes; with an empty list of methods none does. *)
Theorem checkMethod_ignores_case (methods : option OneOrMany) (method : string) :
  checkMethod methods (toUpperCase method) = checkMethod methods method /\
  (absent methods = true -> checkMethod methods method = true) /\
  (absent methods = false ->
   (checkMethod methods method = true <->
    exists m, In m (match methods with Some c => asArray c | None => [] end) /\
              toUpperCase m = toUpperCase method)) /\
  checkMethod (Some (Many [])) method = false /\
  (forall l, checkMethod (Some (Many (map toUpperCase l))) method =
             checkMethod (Some (Many l)) method).
Proof.
  unfold checkMethod.
  split; [|split; [|split; [|split]]].
  - destruct (absent methods); [reflexivity|].
    now rewrite toUpperCase_idempotent.
  - intros ->. reflexivity.
  - intros ->. rewrite has_In, in_map_iff. split.
    + intros (m & Heq & Hin). exists m. auto.
    + intros (m & Hin & Heq). exists m. auto.
  - reflexivity.
  - intros l. cbn [absent asArray]. rewrite map_map.
    f_equal. apply map_ext. intros m. apply toUpperCase_idempotent.
Qed.

(** ** Content types *)

Lemma hd_split_lacks (sep : ascii) (s : string) :
  lacks sep (hd "" (Js.split sep s)) = true.
Proof.
  induction s as [|c s IH]; simpl.
  - reflexivity.
  - destruct (Ascii.eqb c sep) eqn:E; simpl; [reflexivity|].
    destruct (Js.split sep s) as [|p ps] eqn:Hs; simpl in *.
    + unfold lacks. simpl. now rewrite E.
    + unfold lacks in *. simpl. now rewrite E, IH.
Qed.

Lemma hd_split_front (sep : ascii) (a b : string) :
  hd "" (Js.split sep (a ++ String sep b)) = hd "" (Js.split sep a).
Proof.
  induction a as [|c a IH]; simpl.
  - now rewrite Ascii.eqb_refl.
  - destruct (Ascii.eqb c sep); [reflexivity|].
    destruct (Js.split sep (a ++ String sep b)) as [|p ps] eqn:H1;
      [now contradiction (split_nonempty sep (a ++ String sep b))|].
    destruct (Js.split sep a) as [|q qs] eqn:H2;
      [now contradiction (split_nonempty sep a)|].
    simpl in *. now rewrite IH.
Qed.

Lemma allChars_rev (p : ascii -> bool) (s : string) :
  SqsDispatch.allChars p (Js.rev_string s "") = SqsDispatch.allChars p s.
Proof.
  induction s as [|c s IH]; simpl.
  - reflexivity.
  - rewrite rev_string_acc, allChars_app, IH. simpl.
    rewrite andb_true_r. apply andb_comm.
Qed.

(** A pattern that ends with "/*" is its family followed by "/*". *)
Lemma family_pattern (a : string) :
  isMimePattern a = true -> Js.endsWith a "/*" = true ->
  a = hd "" (Js.split "/" a) ++ "/*".
Proof.
  unfold isMimePattern. intros Hvalid Hends.
  pose proof (join_split "/" a) as Hjoin.
  destruct (Js.split "/" a) as [|t [|sub [|x rest]]]; try discriminate.
  cbn [Js.join hd] in *.
  apply andb_prop in Hvalid. destruct Hvalid as [_ Hsub].
  destruct (String.eqb sub "*") eqn:Hstar.
  - apply String.eqb_eq in Hstar. now subst.
  - cbn [orb] in Hsub. apply andb_prop in Hsub. destruct Hsub as [Htruthy Hletters].
    exfalso. rewrite <- Hjoin in Hends. unfold Js.endsWith in Hends.
    change (t ++ "/" ++ sub) with (t ++ String "/" sub) in Hends.
    rewrite rev_string_app in Hends.
    rewrite <- allChars_rev in Hletters.
    change (Js.rev_string (String "/" sub) "") with (Js.rev_string sub "/") in Hends.
    rewrite (rev_string_acc sub "/") in Hends.
    destruct (Js.rev_string sub "") as [|c r] eqn:Hrev.
    + apply (f_equal String.length) in Hrev.
      assert (Hlen : forall s acc, String.length (Js.rev_string s acc) =
                                   String.length s + String.length acc).
      { induction s as [|y s IHs]; intros acc; simpl; [reflexivity|].
        rewrite IHs. simpl. lia. }
      rewrite Hlen in Hrev. destruct sub; simpl in *; [discriminate Htruthy|lia].
    + simpl in Hletters. apply andb_prop in Hletters. destruct Hletters as [Hc _].
      change (Js.rev_string "/*" "") with "*/" in Hends.
      cbn [append prefix] in Hends. destruct (ascii_dec "*" c) as [<-|].
      * vm_compute in Hc. discriminate Hc.
      * discriminate Hends.
Qed.

(** X25. The content type check that [config.accepts] gives.  A list with an
    entry that is no MIME pattern (letters, a slash, and letters or a star)
    is refused, and only such a list.  Otherwise a content type passes
    exactly when the list names it (and it is no family pattern itself), or
    when the list names its family: the text before its first slash,
    followed by "/*". *)
Theorem content_type_patterns (list : list string) :
  ((exists e, checkContentType (Some (Many list)) = inl e) <->
   exists a, In a list /\ isMimePattern a = false) /\
  (forall accepted : string -> bool,
      checkContentType (Some (Many list)) = inr accepted ->
      forall type,
        accepted type = true <->
        (In type list /\ Js.endsWith type "/*" = false) \/
        In (hd "" (Js.split "/" type) ++ "/*") list).
Proof.
  unfold checkContentType. cbn [absent asArray].
  destruct (forallb isMimePattern list) eqn:Hvalid; cbn [negb].
  - split.
    + split; [intros [e He]; discriminate|].
      intros (a & Hin & Hbad).
      rewrite forallb_forall in Hvalid. rewrite (Hvalid a Hin) in Hbad.
      discriminate.
    + intros accepted [= <-] type.
      rewrite forallb_forall in Hvalid.
      rewrite orb_true_iff, !has_In, filter_In, negb_true_iff, in_map_iff.
      split.
      * intros [Hexact|(a & Hfamily & Hin)]; [now left|right].
        apply filter_In in Hin. destruct Hin as [Hin Hends].
        rewrite <- Hfamily, <- (family_pattern a (Hvalid a Hin) Hends).
        exact Hin.
      * intros [Hexact|Hfamily]; [now left|right].
        exists (hd "" (Js.split "/" type) ++ "/*"). split.
        -- change (hd "" (Js.split "/" type) ++ "/*")
             with (hd "" (Js.split "/" type) ++ String "/" "*").
           rewrite hd_split_front.
           now rewrite (split_lacks _ _ (hd_split_lacks "/" type)).
        -- apply filter_In. split; [exact Hfamily|apply endsWith_app].
  - split; [|discriminate].
    split; [intros _|eauto].
    apply not_true_iff_false in Hvalid.
    destruct (existsb (fun a => negb (isMimePattern a)) list) eqn:Hsome.
    + apply existsb_exists in Hsome. destruct Hsome as (a & Hin & Hbad).
      exists a. split; [exact Hin|]. now apply negb_true_iff.
    + exfalso. apply Hvalid. apply forallb_forall. intros a Hin.
      destruct (isMimePattern a) eqn:Ha; [reflexivity|].
      assert (Hex : existsb (fun a => negb (isMimePattern a)) list = true)
        by (apply existsb_exists; exists a; split; [exact Hin|now rewrite Ha]).
      congruence.
Qed.

(** ** Loading *)

Lemma lastSegment_lacks (s : string) :
  lacks "/" s = true -> lastSegment s = (None, s).
Proof.
  induction s as [|c s IH]; intros H.
  - reflexivity.
  - apply lacks_cons in H. destruct H as [Hc Hs].
    cbn [lastSegment]. rewrite (IH Hs), Hc. reflexivity.
Qed.

Lemma collapse_from_dot (rest : string) :
  collapse false ("./" ++ rest) = "/" ++ collapse true rest.
Proof. reflexivity. Qed.

Lemma Map_set_Forall {V} (P : string * V -> Prop) (key : string) (value : V)
    (m : list (string * V)) :
  P (key, value) -> Forall P m -> Forall P (Map_set key value m).
Proof.
  intros Hnew. induction m as [|[k v] m IH]; simpl; intros Hall.
  - now constructor.
  - apply Forall_cons_iff in Hall. destruct Hall as [Hkv Hall].
    destruct (String.eqb k key) eqn:E.
    + apply String.eqb_eq in E. subst k. now constructor.
    + constructor; auto.
Qed.

Lemma Map_set_keys {V} (key : string) (value : V) (m : list (string * V)) (k : string) :
  In k (map fst (Map_set key value m)) -> k = key \/ In k (map fst m).
Proof.
  induction m as [|[k' v] m IH]; simpl.
  - intros [<-|[]]. now left.
  - destruct (String.eqb k' key) eqn:E; simpl.
    + auto.
    + intros [<-|Hin]; [auto|]. destruct (IH Hin); auto.
Qed.

Lemma Map_set_NoDup {V} (key : string) (value : V) (m : list (string * V)) :
  NoDup (map fst m) -> NoDup (map fst (Map_set key value m)).
Proof.
  induction m as [|[k v] m IH]; simpl; intros Hnodup.
  - repeat constructor. intros [].
  - destruct (String.eqb k key) eqn:E; simpl; [exact Hnodup|].
    apply NoDup_cons_iff in Hnodup. destruct Hnodup as [Hfresh Hnodup].
    constructor; [|now apply IH].
    intros Hin. apply Map_set_keys in Hin. destruct Hin as [->|Hin].
    + now rewrite String.eqb_refl in E.
    + contradiction.
Qed.

Section WithLibrary.
Context {library : PathToRegexp} {project : Project}.

Lemma pathFromFilename_top_level (filename : string) :
  lacks "/" filename = true -> exists e, pathFromFilename filename = inl e.
Proof.
  intros Htop. unfold pathFromFilename.
  assert (Hdir : dirname filename = ".")
    by (unfold dirname; now rewrite (lastSegment_lacks _ Htop)).
  rewrite Hdir. cbv zeta.
  set (base := basename filename (extname filename)).
  assert (Hexpanded : exists rest,
            expandNestedRoutes
              (renamePathProperties
                 (if String.eqb base "index" then "." else "." ++ "/" ++ base))
            = "/" ++ rest).
  { destruct (String.eqb base "index").
    - exists "". reflexivity.
    - unfold renamePathProperties.
      change ("." ++ "/" ++ base) with ("." ++ String "/" base).
      rewrite (split_cons "/" "." base eq_refl). cbn [map].
      change (unbracket "[" "]" ":" "" (unbracket "[..." "]" ":" "*" "."))
        with ".".
      destruct (map _ (Js.split "/" base)) as [|p ps] eqn:Hparts.
      + apply map_eq_nil in Hparts. now contradiction (split_nonempty "/" base).
      + change (Js.join "/" ("." :: p :: ps))
          with ("./" ++ Js.join "/" (p :: ps)).
        unfold expandNestedRoutes. rewrite collapse_from_dot. eauto. }
  destruct Hexpanded as [rest ->].
  unfold verifyPathParameters.
  change (Js.split "/" ("/" ++ rest)) with ("" :: Js.split "/" rest).
  cbn [forallb isValidPathPart andb].
  destruct (pathToRegexp ("/" ++ rest)) as [e|keys]; [eauto|].
  destruct (negb (distinctNames (map name keys))); [eauto|].
  destruct (findCatchAll keys 0) as [i|]; [|eauto].
  destruct (negb (Nat.eqb i (List.length keys - 1))); eauto.
Qed.

Lemma addRoutes_refused (f : string) (filenames : list string) :
  (forall st, exists e, addRoute f st = inl e) ->
  In f filenames ->
  forall st, exists e, addRoutes filenames st = inl e.
Proof.
  intros Hrefused. induction filenames as [|g rest IH]; intros Hin st.
  - contradiction.
  - cbn [addRoutes]. destruct (addRoute g st) as [e|st'] eqn:Hadd; [eauto|].
    destruct Hin as [->|Hin].
    + destruct (Hrefused st) as [e He]. congruence.
    + now apply IH.
Qed.

(** X26. A route file that lies directly under api/ cannot be loaded.  For a
    file name without a directory part [pathFromFilename] builds a path
    that starts with a slash, whose first part is empty and so no valid
    path part, and throws; hence loading the routes of a project that has
    such a file fails. *)
Theorem top_level_api_file_rejected (name : string) :
  lacks "/" name = true ->
  (exists e, pathFromFilename name = inl e) /\
  (forall (filenames : list string) (queues : list (string * Queue)),
      In ("api/" ++ name) filenames ->
      exists e, loadRoutes filenames queues = inl e).
Proof.
  intros Htop. split; [now apply pathFromFilename_top_level|].
  intros filenames queues Hin.
  assert (Hrefused : forall st, exists e, addRoute ("api/" ++ name) st = inl e).
  { intros st. unfold addRoute, tryRoute.
    destruct (loadRouteModule ("api/" ++ name)); [|eauto].
    unfold withoutApi. rewrite stripPrefix_app.
    destruct (pathFromFilename_top_level name Htop) as [e ->]. eauto. }
  unfold loadRoutes.
  destruct (addRoutes_refused _ _ Hrefused Hin {| routes := []; dupes := [] |})
    as [e ->].
  eauto.
Qed.

(** What [tryQueue] accepts. *)
Lemma tryQueue_ok (f : string) (q : Queue) :
  tryQueue f = inr q ->
  queue_filename q = f /\
  queueNameFromFilename f = inr (queueName q) /\
  (String.length (queueName q) <= 40)%nat /\
  isFifo q = Js.endsWith (queueName q) ".fifo" /\
  allowedTimeout 500 (queue_seconds q) /\
  (forall p, path q = Some p ->
             exists keys,
               pathToRegexp p = inr keys /\
               (isFifo q = true -> Js.has "group" (map name keys) = true)).
Proof.
  unfold tryQueue.
  destruct (loadQueueModule f) as [config|]; [|discriminate].
  destruct (queueNameFromFilename f) as [e|qname] eqn:Hname; [discriminate|].
  destruct (checkContentType (queue_accepts config)) as [e|acceptsType];
    [discriminate|].
  destruct (getQueuePath config (Js.endsWith qname ".fifo")) as [e|p] eqn:Hpath;
    [discriminate|].
  destruct (getTimeout (queue_timeout config) 500 30) as [e|t] eqn:Htimeout;
    [discriminate|].
  intros [= <-]. cbn [queue_filename queueName isFifo queue_seconds path].
  split; [reflexivity|]. split; [reflexivity|]. split.
  { unfold queueNameFromFilename in Hname.
    destruct (negb _); [discriminate|].
    destruct (40 <? _)%nat eqn:Hlen; [discriminate|].
    injection Hname as <-. now apply Nat.ltb_ge in Hlen. }
  split; [reflexivity|]. split.
  { destruct (getTimeout_accepted _ _ _ _ Htimeout) as [->|(n & -> & Hn)];
      [now left|].
    right. exists n. split; [reflexivity|lia]. }
  intros p' ->. unfold getQueuePath in Hpath.
  destruct (url config) as [u|]; [|discriminate].
  destruct (negb (Js.truthy u)); [discriminate|].
  destruct (negb (Js.startsWith u "/")); [discriminate|].
  destruct (pathToRegexp (renamePathProperties u)) as [e|keys] eqn:Hkeys;
    [discriminate|].
  destruct (Js.endsWith qname ".fifo" && negb (Js.has "group" (map name keys)))%bool
    eqn:Hgroup; [discriminate|].
  injection Hpath as <-. exists keys. split; [exact Hkeys|].
  intros Hfifo. rewrite Hfifo in Hgroup. cbn in Hgroup.
  now apply negb_false_iff in Hgroup.
Qed.

Lemma loadQueues_invariant (P : string * Queue -> Prop) (filenames : list string) :
  (forall f q, In f filenames -> tryQueue f = inr q -> P (queueName q, q)) ->
  forall acc queues,
    Forall P acc -> NoDup (map fst acc) ->
    loadQueues filenames acc = inr queues ->
    Forall P queues /\ NoDup (map fst queues).
Proof.
  induction filenames as [|f rest IH]; intros Hstep acc queues Hacc Hnodup.
  - cbn. intros [= <-]. auto.
  - cbn [loadQueues]. destruct (tryQueue f) as [e|q] eqn:Htry; [discriminate|].
    apply IH.
    + intros f' q' Hin. apply Hstep. now right.
    + apply Map_set_Forall; [|exact Hacc]. apply (Hstep f); [now left|exact Htry].
    + now apply Map_set_NoDup.
Qed.

(** X27. What holds of every queue in a manifest that was loaded: it is
    kept under its queue name, which comes from the name of one of the
    files, is at most 40 characters long and names a FIFO queue exactly
    when it ends with ".fifo"; its timeout is [NaN] or lies between 1 and
    500 seconds; and when it has a path, the path was accepted by path-to-regexp and,
    for a FIFO queue, has a parameter called "group".  No two queues share
    a name. *)
Theorem loaded_queues_invariant (filenames : list string)
    (queues : list (string * Queue)) :
  loadQueues filenames [] = inr queues ->
  NoDup (map fst queues) /\
  Forall (fun entry =>
            let q := snd entry in
            fst entry = queueName q /\
            In (queue_filename q) filenames /\
            queueNameFromFilename (queue_filename q) = inr (queueName q) /\
            (String.length (queueName q) <= 40)%nat /\
            isFifo q = Js.endsWith (queueName q) ".fifo" /\
            allowedTimeout 500 (queue_seconds q) /\
            (forall p, path q = Some p ->
                       exists keys,
                         pathToRegexp p = inr keys /\
                         (isFifo q = true ->
                          Js.has "group" (map name keys) = true)))
         queues.
Proof.
  intros Hload.
  refine ((fun H => conj (proj2 H) (proj1 H))
            (loadQueues_invariant _ filenames _ [] queues _ _ Hload)).
  - intros f q Hin Htry. cbn [fst snd].
    destruct (tryQueue_ok f q Htry) as (Hfile & Hname & Hlen & Hfifo & Hsec & Hpath).
    rewrite Hfile. auto 10.
  - constructor.
  - constructor.
Qed.

Lemma pathFromFilename_verified (f path : string) :
  pathFromFilename f = inr path -> verifyPathParameters path = inr tt.
Proof.
  unfold pathFromFilename. cbv zeta.
  destruct (verifyPathParameters _) as [e|[]] eqn:Hverify; [discriminate|].
  now intros [= <-].
Qed.

(** X28. What holds of every route in a manifest that was loaded.  The route
    is kept under the path its matcher was compiled from, and that path
    passed [verifyPathParameters].  A route that comes from a file under
    api/ has a timeout that is [NaN] or lies between 1 and 30 seconds.  A route that comes from a
    queue carries the file name, the timeout and the content type check of
    that queue, and accepts the method POST alone, in any case of
    letters. *)
Theorem loaded_routes_invariant (filenames : list string)
    (queues : list (string * Queue)) (loaded : list (string * Route)) :
  loadRoutes filenames queues = inr loaded ->
  Forall (fun entry =>
            let r := snd entry in
            matcher r = fst entry /\
            verifyPathParameters (fst entry) = inr tt /\
            match queue r with
            | None =>
                In (filename r) filenames /\ allowedTimeout 30 (seconds r)
            | Some q =>
                In q (map snd queues) /\
                filename r = queue_filename q /\
                seconds r = queue_seconds q /\
                (forall type, route_checkContentType r type =
                              queue_checkContentType q type) /\
                (forall method, route_checkMethod r method =
                                String.eqb (toUpperCase method) "POST")
            end)
         loaded.
Proof.
  set (P := fun entry : string * Route =>
            let r := snd entry in
            matcher r = fst entry /\
            verifyPathParameters (fst entry) = inr tt /\
            match queue r with
            | None =>
                In (filename r) filenames /\ allowedTimeout 30 (seconds r)
            | Some q =>
                In q (map snd queues) /\
                filename r = queue_filename q /\
                seconds r = queue_seconds q /\
                (forall type, route_checkContentType r type =
                              queue_checkContentType q type) /\
                (forall method, route_checkMethod r method =
                                String.eqb (toUpperCase method) "POST")
            end).
  assert (Hfiles : forall files st st',
            incl files filenames ->
            Forall P (routes st) ->
            addRoutes files st = inr st' -> Forall P (routes st')).
  { induction files as [|f rest IH]; intros st st' Hincl Hst.
    - cbn. now intros [= <-].
    - cbn [addRoutes]. destruct (addRoute f st) as [e|st1] eqn:Hadd;
        [discriminate|].
      apply IH; [intros x Hx; apply Hincl; now right|].
      unfold addRoute, tryRoute in Hadd.
      destruct (loadRouteModule f) as [config|]; [|discriminate].
      destruct (pathFromFilename (withoutApi f)) as [e|path] eqn:Hpath;
        [discriminate|].
      destruct (Js.has (signature path) (dupes st)); [discriminate|].
      destruct (checkContentType (accepts config)) as [e|acceptsType];
        [discriminate|].
      destruct (getTimeout (timeout config) 30 30) as [e|t] eqn:Htimeout;
        [discriminate|].
      injection Hadd as <-. cbn [routes].
      apply Map_set_Forall; [|exact Hst].
      unfold P. cbn [fst snd matcher queue filename seconds].
      split; [reflexivity|].
      split; [exact (pathFromFilename_verified _ _ Hpath)|].
      split; [apply Hincl; now left|].
      destruct (getTimeout_accepted _ _ _ _ Htimeout) as [->|(n & -> & Hn)];
        [now left|].
      right. exists n. split; [reflexivity|lia]. }
  assert (Hqueues : forall qs st st',
            incl qs (map snd queues) ->
            Forall P (routes st) ->
            addQueueRoutes qs st = inr st' -> Forall P (routes st')).
  { induction qs as [|q rest IH]; intros st st' Hincl Hst.
    - cbn. now intros [= <-].
    - cbn [addQueueRoutes]. destruct (addQueueRoute q st) as [e|st1] eqn:Hadd;
        [discriminate|].
      apply IH; [intros x Hx; apply Hincl; now right|].
      unfold addQueueRoute, tryQueueRoute in Hadd.
      destruct (path q) as [queuePath|]; [|now injection Hadd as <-].
      destruct (negb (Js.truthy queuePath)); [now injection Hadd as <-|].
      destruct (verifyPathParameters _) as [e|[]] eqn:Hverify; [discriminate|].
      destruct (Js.has _ (dupes st)); [discriminate|].
      injection Hadd as <-. cbn [routes].
      apply Map_set_Forall; [|exact Hst].
      unfold P. cbn [fst snd matcher queue filename seconds
                       route_checkContentType route_checkMethod].
      split; [reflexivity|]. split; [exact Hverify|].
      split; [apply Hincl; now left|]. auto. }
  unfold loadRoutes.
  destruct (addRoutes filenames _) as [e|st] eqn:H1; [discriminate|].
  destruct (addQueueRoutes (map snd queues) st) as [e|st'] eqn:H2;
    [discriminate|].
  intros [= <-].
  apply (Hqueues _ _ _ (incl_refl _)) in H2; [exact H2|].
  apply (Hfiles _ _ _ (incl_refl _)) in H1; [exact H1|]. constructor.
Qed.

End WithLibrary.

Lemma bracket_parameters_witness :
  parameterName "id" = true /\
  renamePathProperties "bookmarks/[...id]" = "bookmarks/:id*" /\
  renamePathProperties "bookmarks/[id]" = "bookmarks/:id".
Proof.
  assert (H : parameterName "id" = true) by reflexivity.
  split; [exact H|].
  destruct (bracket_parameters "bookmarks" "id" H) as (Hall & Hone & _).
  split; [exact Hall|]. apply Hone. reflexivity.
Defined.

Lemma shape_ignores_parameter_names_witness :
  (parameterName "project" = true /\ parameterName "id" = true) /\
  signature "api/:project/tasks" = signature "api/:id/tasks".
Proof.
  assert (H1 : parameterName "project" = true) by reflexivity.
  assert (H2 : parameterName "id" = true) by reflexivity.
  split; [auto|].
  exact (proj1 (shape_ignores_parameter_names "api/" "project" "id" "tasks"
                  H1 H2)).
Defined.

Lemma top_level_api_file_rejected_witness :
  lacks "/" "map.ts" = true /\
  (exists e, pathFromFilename (library := ManifestSamples.library) "map.ts"
             = inl e) /\
  exists e, loadRoutes (library := ManifestSamples.library)
              (project := ManifestSamples.modules) ["api/map.ts"] [] = inl e.
Proof.
  assert (H : lacks "/" "map.ts" = true) by reflexivity.
  split; [exact H|].
  destruct (top_level_api_file_rejected (library := ManifestSamples.library)
              (project := ManifestSamples.modules) "map.ts" H)
    as [Hpath Hload].
  split; [exact Hpath|]. apply Hload. now left.
Defined.

Lemma loaded_queues_invariant_witness :
  loadQueues (library := ManifestSamples.library)
    (project := ManifestSamples.modules) queueFiles [] = inr twoQueues /\
  NoDup (map fst twoQueues) /\
  Forall (fun entry => allowedTimeout 500 (queue_seconds (snd entry))) twoQueues.
Proof.
  assert (H : loadQueues (library := ManifestSamples.library)
                (project := ManifestSamples.modules) queueFiles [] =
              inr twoQueues) by reflexivity.
  split; [exact H|].
  destruct (loaded_queues_invariant (library := ManifestSamples.library)
              (project := ManifestSamples.modules) _ _ H) as [Hnodup Hall].
  split; [exact Hnodup|].
  apply (Forall_impl _ (fun entry Hentry =>
           proj1 (proj2 (proj2 (proj2 (proj2 (proj2 Hentry)))))) Hall).
Defined.

Lemma loaded_routes_invariant_witness :
  loadRoutes (library := ManifestSamples.library)
    (project := ManifestSamples.modules) ["api/a/[x].ts"] [] = inr oneRoute /\
  Forall (fun entry => matcher (snd entry) = fst entry) oneRoute.
Proof.
  assert (H : loadRoutes (library := ManifestSamples.library)
                (project := ManifestSamples.modules) ["api/a/[x].ts"] [] =
              inr oneRoute) by reflexivity.
  split; [exact H|].
  apply (Forall_impl _ (fun entry Hentry => proj1 Hentry)
           (loaded_routes_invariant (library := ManifestSamples.library)
              (project := ManifestSamples.modules) _ _ _ H)).
Defined.

End ManifestMoreProps.


(** * Ambient request context: further properties *)

Module SharedLocalStorageMoreProps.
Import SharedLocalStorage SharedLocalStorageProps.
Local Open Scope ctx_scope.

Lemma update_front (h rest : Heap) (l : Ref) (v : LocalStorage) :
  l < List.length h -> update (h ++ rest) l v = update h l v ++ rest.
Proof.
  revert l. induction h as [|x h IH]; intros l Hlt; simpl in *; [lia|].
  destruct l as [|l]; [reflexivity|]. rewrite IH by lia. reflexivity.
Qed.

(** X29. Contexts are isolated from each other and may follow one another.
    With two stores, code that runs in the context of the first and sets
    its user, followed by code that runs in the context of the second and
    reads the user, finds no user there: the second context is opened
    without complaint once the first has ended, and what was assigned in
    the first stays in the first. *)
Theorem contexts_are_isolated (u1 u2 : Urls) (user : UserArg) (h : Heap) :
  acceptable user = true ->
  (a <- alloc u1 ;;
   b <- alloc u2 ;;
   withLocalStorage a (r <- getLocalStorage ;; assignUser r user) ;;;
   withLocalStorage b (r <- getLocalStorage ;; readUser r)) None h =
  (Returned None,
   h ++ [{| urls := u1; _user := orNull user; _userSet := true;
            connection := None |};
         new_LocalStorage u2]).
Proof.
  intros Hok.
  unfold bind, alloc, withLocalStorage, getLocalStorage, getStore, bind,
    asyncLocal_run, ret, assignUser, readUser.
  cbv beta iota.
  assert (Hset : set_user (new_LocalStorage u1) user =
                 inr {| urls := u1; _user := orNull user; _userSet := true;
                        connection := None |}).
  { unfold set_user. simpl. destruct user as [| |o]; simpl in *; try reflexivity.
    now rewrite Hok. }
  rewrite nth_error_app1 by (rewrite length_app; simpl; lia).
  rewrite nth_error_last, Hset.
  rewrite update_front by (rewrite length_app; simpl; lia).
  rewrite update_last.
  replace (List.length (h ++ [new_LocalStorage u1]))
    with (List.length
            (h ++ [{| urls := u1; _user := orNull user; _userSet := true;
                      connection := None |}]))
    by (now rewrite !length_app).
  rewrite nth_error_last. cbn [get_user new_LocalStorage _user].
  now rewrite <- app_assoc.
Qed.

Lemma contexts_are_isolated_witness :
  acceptable (UserObj (mkUser (Some "u1") [])) = true /\
  (a <- alloc (mkUrls "http://h" "ws://h") ;;
   b <- alloc (mkUrls "http://h" "ws://h") ;;
   withLocalStorage a
     (r <- getLocalStorage ;; assignUser r (UserObj (mkUser (Some "u1") []))) ;;;
   withLocalStorage b (r <- getLocalStorage ;; readUser r)) None [] =
  (Returned None,
   [{| urls := mkUrls "http://h" "ws://h"; _user := Some (mkUser (Some "u1") []);
       _userSet := true; connection := None |};
    new_LocalStorage (mkUrls "http://h" "ws://h")]).
Proof.
  split; [reflexivity|].
  exact (contexts_are_isolated (mkUrls "http://h" "ws://h")
           (mkUrls "http://h" "ws://h") (UserObj (mkUser (Some "u1") [])) []
           eq_refl).
Defined.

Lemma ambient_user_assigned_once_witness :
  acceptable UserNull = true /\
  (l <- alloc (mkUrls "http://h" "ws://h") ;;
   withLocalStorage l
     (r <- getLocalStorage ;;
      assignUser r UserNull ;;;
      assignUser r (UserObj (mkUser (Some "u1") []))))
    None [] =
  (Thrown (Error "Local context user already set"),
   [{| urls := mkUrls "http://h" "ws://h"; _user := None; _userSet := true;
       connection := None |}]).
Proof.
  split; [reflexivity|].
  exact (ambient_user_assigned_once (mkUrls "http://h" "ws://h") UserNull
           (UserObj (mkUser (Some "u1") [])) [] eq_refl).
Defined.

End SharedLocalStorageMoreProps.
